(** * pcs-scrapper: extraction pipeline of [index.js]

    A shallow embedding of the scraper: the page content the script reads
    (a DOM tree with the selectors the script uses), the regular
    expressions it applies to cell text, the numeric coercion [+x], the
    [Promise.all] fan-out, and the orchestration of [main] with its
    top-level [catch].

    [src/index.js] holds three successive revisions of the script and
    [src/unnamed/part_000] a fourth; the functions that differ between
    revisions live in one module per revision:
    - [First]:   [src/index.js], lines 1-131 (element handles);
    - [Listing]: [src/unnamed/part_000] (categories and submission lists);
    - [Main]:    [src/index.js], lines 132-380 (scales and review parts);
    - [Award] and [AwardRun]: [src/index.js], lines 381-593 (the [award]
      column).

    A page is modelled by the document it shows; the opening and closing
    of page handles is not tracked.

    JavaScript strings are modelled as [string]; a character stands for
    one code unit below 256. *)

From Stdlib Require Import Bool Arith Lia List String Ascii ZArith QArith.
From Stdlib Require Import Qround Qabs Qpower Qreduction Lqa.
From Stdlib Require DecimalString.
Import ListNotations.
Close Scope Q_scope.
Open Scope nat_scope.
Open Scope string_scope.
Open Scope list_scope.

Set Implicit Arguments.
Set Warnings "-register-all".

(** ** Strings *)

Module Str.

(** The characters [String.prototype.trim] and [StringToNumber] strip:
    WhiteSpace and LineTerminator code units below 256. *)
Definition is_ws (c : ascii) : bool :=
  let n := nat_of_ascii c in
  ((9 <=? n)%nat && (n <=? 13)%nat) || (n =? 32)%nat || (n =? 160)%nat.

Definition is_digit (c : ascii) : bool :=
  let n := nat_of_ascii c in (48 <=? n)%nat && (n <=? 57)%nat.

Definition is_empty (s : string) : bool :=
  match s with EmptyString => true | String _ _ => false end.

Fixpoint trimStart (s : string) : string :=
  match s with
  | String c s' => if is_ws c then trimStart s' else s
  | EmptyString => EmptyString
  end.

Fixpoint trimEnd (s : string) : string :=
  match s with
  | String c s' =>
      let t := trimEnd s' in
      if is_ws c && is_empty t then EmptyString else String c t
  | EmptyString => EmptyString
  end.

(** [s.trim()] *)
Definition trim (s : string) : string := trimEnd (trimStart s).

(** [s.includes(sub)] *)
Fixpoint includes (sub s : string) : bool :=
  prefix sub s ||
  match s with
  | String _ s' => includes sub s'
  | EmptyString => false
  end.

(** The first [n] code units of [s]. *)
Fixpoint take (n : nat) (s : string) : string :=
  match n, s with
  | S n', String c s' => String c (take n' s')
  | _, _ => EmptyString
  end.

(** [consumed s rest] is the part of [s] in front of its suffix [rest]. *)
Definition consumed (s rest : string) : string :=
  take (String.length s - String.length rest) s.

(** [xs.join(sep)] *)
Definition join (sep : string) (xs : list string) : string := String.concat sep xs.

(** The longest prefix of [s] made of characters in [p], and the rest. *)
Fixpoint span (p : ascii -> bool) (s : string) : string * string :=
  match s with
  | String c s' =>
      if p c then let (a, b) := span p s' in (String c a, b) else (EmptyString, s)
  | EmptyString => (EmptyString, EmptyString)
  end.

(** Every character of [s] is in [p]. *)
Fixpoint all (p : ascii -> bool) (s : string) : bool :=
  match s with
  | String c s' => p c && all p s'
  | EmptyString => true
  end.

Fixpoint contains (c : ascii) (s : string) : bool :=
  match s with
  | String c' s' => Ascii.eqb c c' || contains c s'
  | EmptyString => false
  end.

End Str.

(** ** Regular expressions

    The fragment of the JavaScript regular expressions the script uses,
    with the backtracking semantics of [RegExp.prototype.exec]: the
    leftmost start position wins, quantifiers are greedy. *)

Module RegExp.

Inductive regex : Type :=
| Chr (c : ascii)                  (* a literal character *)
| Cls (p : ascii -> bool)          (* a character class: [\d] *)
| Cat (r1 r2 : regex)              (* r1 r2 *)
| Opt (r : regex)                  (* (?:r)? *)
| Plus (p : ascii -> bool)         (* [class]+ *)
| Grp (n : nat) (r : regex).       (* the n-th capturing group (r) *)

(** Captures, the latest on top; index 0 is the whole match. *)
Definition captures := list (nat * string).

Fixpoint group (n : nat) (m : captures) : option string :=
  match m with
  | [] => None
  | (k, s) :: m' => if Nat.eqb k n then Some s else group n m'
  end.

Section Matcher.
Variable A : Type.

Fixpoint plus (p : ascii -> bool) (s : string) (k : string -> option A) : option A :=
  match s with
  | String c s' =>
      if p c then
        match plus p s' k with
        | Some a => Some a
        | None => k s'
        end
      else None
  | EmptyString => None
  end.

Fixpoint rmatch (r : regex) (s : string) (cs : captures)
         (k : string -> captures -> option A) : option A :=
  match r with
  | Chr c =>
      match s with
      | String c' s' => if Ascii.eqb c c' then k s' cs else None
      | EmptyString => None
      end
  | Cls p =>
      match s with
      | String c' s' => if p c' then k s' cs else None
      | EmptyString => None
      end
  | Cat r1 r2 => rmatch r1 s cs (fun s1 cs1 => rmatch r2 s1 cs1 k)
  | Opt r' =>
      match rmatch r' s cs k with
      | Some a => Some a
      | None => k s cs
      end
  | Plus p => plus p s (fun s' => k s' cs)
  | Grp n r' => rmatch r' s cs (fun s' cs' => k s' ((n, Str.consumed s s') :: cs'))
  end.

End Matcher.

(** [re.exec(s)]: the captures of the leftmost match, or [None] for [null]. *)
Fixpoint exec (r : regex) (s : string) : option captures :=
  match rmatch r s [] (fun rest cs => Some ((0, Str.consumed s rest) :: cs)) with
  | Some m => Some m
  | None =>
      match s with
      | String _ s' => exec r s'
      | EmptyString => None
      end
  end.

(** A literal run of characters followed by [r]. *)
Fixpoint lit (s : string) (r : regex) : regex :=
  match s with
  | String c s' => Cat (Chr c) (lit s' r)
  | EmptyString => r
  end.

Definition not_rparen (c : ascii) : bool := negb (Ascii.eqb c ")").

(** [/\(([^)]+)\)/] *)
Definition paren_re : regex :=
  Cat (Chr "(") (Cat (Grp 1 (Plus not_rparen)) (Chr ")")).

(** [\d(?:\.\d)?] *)
Definition scale_num : regex :=
  Cat (Cls Str.is_digit) (Opt (Cat (Chr ".") (Cls Str.is_digit))).

(** [/scale is (\d(?:\.\d)?)\.\.(\d(?:\.\d)?)/] *)
Definition scale_re : regex :=
  lit "scale is " (Cat (Grp 1 scale_num) (Cat (Chr ".") (Cat (Chr ".") (Grp 2 scale_num)))).

End RegExp.

(** ** Numbers

    The value of the unary plus [+x] on a string, [StringToNumber] of
    ECMAScript: the mathematical value of the literal, then the Number
    that value rounds to.  A Number is a binary64 double; a finite one is
    kept as the rational it is, in lowest terms, and the two zeros are
    one ([JSON.stringify] writes both as [0]). *)

Module Num.

Inductive number : Type :=
| NaN
| Infinity (negative : bool)
| Fin (q : Q).

Definition of_Z (z : Z) : number := Fin (inject_Z z).

(** *** Rounding to binary64

    A double is [m * 2 ^ e] with [|m| < 2 ^ 53] and [e] from -1074 to
    971.  A rational is rounded to the nearest multiple of [2 ^ p], [p]
    being the exponent of the doubles of its binade, and to the even
    multiple when it lies half way between two; what rounds to
    [2 ^ 1024] or more is infinite. *)

Definition pow2 (z : Z) : Q := Qpower 2 z.

(** [floor (log2 a)], for [0 < a] *)
Definition exponent_of (a : Q) : Z :=
  let e := (Z.log2 (Qnum a) - Z.log2 (Zpos (Qden a)))%Z in
  if Qle_bool (pow2 e) a then e else (e - 1)%Z.

(** The integer nearest to [t], the even one of two. *)
Definition round_half_even (t : Q) : Z :=
  let f := Qfloor t in
  match Qcompare (t - inject_Z f) (1 # 2) with
  | Lt => f
  | Gt => (f + 1)%Z
  | Eq => if Z.even f then f else (f + 1)%Z
  end.

Definition round_pos (a : Q) : Q :=
  let p := Z.max (exponent_of a - 52) (-1074) in
  (inject_Z (round_half_even (a / pow2 p)) * pow2 p)%Q.

(** The Number value for [q] *)
Definition number_for (q : Q) : number :=
  let q := Qred q in
  let v := round_pos (Qabs q) in
  if Qeq_bool q 0 then Fin 0
  else if Qle_bool (pow2 1024) v then Infinity (Qnum q <? 0)%Z
  else Fin (Qred (if (Qnum q <? 0)%Z then (- v)%Q else v)).

(** *** The value of a numeral *)

(** [a <= b] on numbers: every comparison with [NaN] is false. *)
Definition le (a b : number) : Prop :=
  match a, b with
  | NaN, _ | _, NaN => False
  | Infinity true, _ => True
  | _, Infinity false => True
  | Fin x, Fin y => Qle x y
  | _, _ => False
  end.

Definition isNaN (a : number) : bool :=
  match a with NaN => true | _ => false end.

Definition digit_of (c : ascii) : option Z :=
  let n := Z.of_nat (nat_of_ascii c) in
  if (48 <=? n)%Z && (n <=? 57)%Z then Some (n - 48)%Z        (* 0-9 *)
  else if (97 <=? n)%Z && (n <=? 102)%Z then Some (n - 87)%Z  (* a-f *)
  else if (65 <=? n)%Z && (n <=? 70)%Z then Some (n - 55)%Z   (* A-F *)
  else None.

(** The value of a run of digits in [base]; [None] on a character that is
    no digit of that base. *)
Fixpoint digits (base : Z) (acc : Z) (s : string) : option Z :=
  match s with
  | String c s' =>
      match digit_of c with
      | Some d => if (d <? base)%Z then digits base (acc * base + d)%Z s' else None
      | None => None
      end
  | EmptyString => Some acc
  end.

Definition nonempty_digits (base : Z) (s : string) : option Z :=
  if Str.is_empty s then None else digits base 0%Z s.

Definition is_in (cs : string) (c : ascii) : bool := Str.contains c cs.

(** NonDecimalIntegerLiteral: [0x..], [0o..], [0b..] *)
Definition nondecimal (s : string) : option Z :=
  match s with
  | String "0" (String c ds) =>
      if is_in "xX" c then nonempty_digits 16 ds
      else if is_in "oO" c then nonempty_digits 8 ds
      else if is_in "bB" c then nonempty_digits 2 ds
      else None
  | _ => None
  end.

(** An optional sign in front of [s]: [true] for [-]. *)
Definition sign (s : string) : bool * string :=
  match s with
  | String "+" s' => (false, s')
  | String "-" s' => (true, s')
  | _ => (false, s)
  end.

(** ExponentPart, or nothing, up to the end of the string. *)
Definition exponent (s : string) : option Z :=
  match s with
  | EmptyString => Some 0%Z
  | String c s' =>
      if is_in "eE" c then
        let (neg, ds) := sign s' in
        match nonempty_digits 10 ds with
        | Some e => Some (if neg then (- e)%Z else e)
        | None => None
        end
      else None
  end.

(** StrUnsignedDecimalLiteral other than [Infinity]. *)
Definition unsigned_decimal (s : string) : option Q :=
  let (ip, r1) := Str.span Str.is_digit s in
  let (fp, r2) :=
    match r1 with
    | String "." r => Str.span Str.is_digit r
    | _ => (EmptyString, r1)
    end in
  if Str.is_empty ip && Str.is_empty fp then None
  else
    match digits 10 0%Z (ip ++ fp), exponent r2 with
    | Some m, Some e =>
        Some (Qred (inject_Z m * Qpower (inject_Z 10) (e - Z.of_nat (String.length fp))))
    | _, _ => None
    end.

(** StrDecimalLiteral *)
Definition decimal (s : string) : number :=
  let (neg, u) := sign s in
  if String.eqb u "Infinity" then Infinity neg
  else
    match unsigned_decimal u with
    | Some q => Fin (if neg then Qred (Qopp q) else q)
    | None => NaN
    end.

(** StringNumericValue: the mathematical value of the literal [s], not
    yet rounded; [NaN] where [s] is no numeral. *)
Definition value (s : string) : number :=
  let t := Str.trim s in
  if Str.is_empty t then of_Z 0
  else
    match nondecimal t with
    | Some z => of_Z z
    | None => decimal t
    end.

(** RoundMVResult *)
Definition round (n : number) : number :=
  match n with
  | Fin q => number_for q
  | _ => n
  end.

(** [StringToNumber(s)] *)
Definition ToNumber (s : string) : number := round (value s).

(** [+x] for a string [x] *)
Definition unary_plus (x : string) : number := ToNumber x.

End Num.

(** ** The DOM the script reads

    An element carries what the script asks of it: its tag, its attributes
    ([id], [name], [title], and [href] as the browser resolves it), the
    [innerText] the browser renders for it, and its child elements. *)

Module Dom.

Inductive element : Type :=
| Element (tag : string) (attrs : list (string * string)) (text : string)
          (kids : list element).

Definition tagName (e : element) : string := let (t, _, _, _) := e in t.
Definition attributes (e : element) : list (string * string) := let (_, a, _, _) := e in a.
Definition innerText (e : element) : string := let (_, _, x, _) := e in x.
Definition children (e : element) : list element := let (_, _, _, k) := e in k.

Fixpoint lookup (name : string) (a : list (string * string)) : option string :=
  match a with
  | [] => None
  | (k, v) :: a' => if String.eqb k name then Some v else lookup name a'
  end.

Definition getAttribute (name : string) (e : element) : option string :=
  lookup name (attributes e).

(** A reflected attribute such as [a.title] or [a.href]: the empty string
    when the attribute is not set. *)
Definition reflected (name : string) (e : element) : string :=
  match getAttribute name e with Some v => v | None => "" end.

(** An element in its place: the element with its preceding sibling
    elements (the nearest first). *)
Record frame : Type := { elem : element; before : list element }.

(** A node: an element in its place under its ancestors (the parent first). *)
Record node : Type := { self : frame; ancestors : list frame }.

Definition node_elem (n : node) : element := elem (self n).

Definition root (e : element) : node :=
  {| self := {| elem := e; before := [] |}; ancestors := [] |}.

Definition parentNode (n : node) : option node :=
  match ancestors n with
  | f :: fs => Some {| self := f; ancestors := fs |}
  | [] => None
  end.

Definition previousElementSibling (n : node) : option node :=
  match before (self n) with
  | e :: es => Some {| self := {| elem := e; before := es |}; ancestors := ancestors n |}
  | [] => None
  end.

(** Every ancestor of [n] as a node, the parent first. *)
Fixpoint chain (fs : list frame) : list node :=
  match fs with
  | [] => []
  | f :: fs' => {| self := f; ancestors := fs' |} :: chain fs'
  end.

Section Forest.
Variable sub : list element -> element -> list node.

(** The nodes of consecutive siblings [cs], of which [bef] came before. *)
Fixpoint forest (bef cs : list element) : list node :=
  match cs with
  | [] => []
  | c :: cs' => sub bef c ++ forest (c :: bef) cs'
  end.
End Forest.

(** The nodes of the tree of [e] in document order, [e] first. *)
Fixpoint subtree (anc : list frame) (bef : list element) (e : element) {struct e}
  : list node :=
  match e with
  | Element _ _ _ cs =>
      let me := {| elem := e; before := bef |} in
      {| self := me; ancestors := anc |} :: forest (subtree (me :: anc)) [] cs
  end.

(** The elements of the tree of [e] in document order, [e] first. *)
Fixpoint elements (e : element) : list element :=
  match e with
  | Element _ _ _ cs => e :: flat_map elements cs
  end.

(** The elements inside [e]. *)
Definition inside (e : element) : list element := flat_map elements (children e).

Definition descendants (n : node) : list node :=
  forest (subtree (self n :: ancestors n)) [] (children (node_elem n)).

(** *** Selectors *)

Inductive simple : Type :=
| Tag (t : string)               (* tr *)
| Id (i : string)                (* #wrap *)
| AttrEq (name value : string)   (* [name=userLoginID] *)
| NthChildFrom (k : nat)         (* :nth-child(n + k) *)
| NthOfType (k : nat).           (* :nth-of-type(k) *)

Inductive combinator : Type :=
| Descendant     (* a b *)
| Child          (* a > b *)
| Adjacent.      (* a + b *)

(** A selector, its rightmost compound last. *)
Inductive selector : Type :=
| Sel (c : list simple)
| Comb (s : selector) (by_ : combinator) (c : list simple).

Definition count_tag (t : string) (es : list element) : nat :=
  List.length (filter (fun e => String.eqb (tagName e) t) es).

Definition matches_simple (n : node) (s : simple) : bool :=
  let e := node_elem n in
  match s with
  | Tag t => String.eqb (tagName e) t
  | Id i => match getAttribute "id" e with Some v => String.eqb v i | None => false end
  | AttrEq a v => match getAttribute a e with Some v' => String.eqb v' v | None => false end
  | NthChildFrom k => (k <=? S (List.length (before (self n))))%nat
  | NthOfType k => (S (count_tag (tagName e) (before (self n))) =? k)%nat
  end.

Definition matches_compound (c : list simple) (n : node) : bool :=
  forallb (matches_simple n) c.

Fixpoint matches (s : selector) (n : node) : bool :=
  match s with
  | Sel c => matches_compound c n
  | Comb s' by_ c =>
      matches_compound c n &&
      match by_ with
      | Descendant => existsb (matches s') (chain (ancestors n))
      | Child =>
          match parentNode n with
          | Some p => matches s' p
          | None => false
          end
      | Adjacent =>
          match previousElementSibling n with
          | Some p => matches s' p
          | None => false
          end
      end
  end.

(** [n.querySelectorAll(s)] *)
Definition querySelectorAll (s : selector) (n : node) : list node :=
  filter (matches s) (descendants n).

(** [n.querySelector(s)], [None] for [null] *)
Definition querySelector (s : selector) (n : node) : option node :=
  hd_error (querySelectorAll s n).

(** A loaded document, by its root element. *)
Definition document : Type := element.

(** [document.querySelectorAll(s)] *)
Definition select (s : selector) (d : document) : list node :=
  filter (matches s) (subtree [] [] d).

(** The selectors of the script. *)

(* 'h1 + div table td a' *)
Definition category_links : selector :=
  Comb (Comb (Comb (Comb (Sel [Tag "h1"]) Adjacent [Tag "div"])
                   Descendant [Tag "table"]) Descendant [Tag "td"]) Descendant [Tag "a"].

(* 'h1 + blockquote table tr:nth-child(n + 4)' *)
Definition submission_rows : selector :=
  Comb (Comb (Comb (Sel [Tag "h1"]) Adjacent [Tag "blockquote"])
             Descendant [Tag "table"]) Descendant [Tag "tr"; NthChildFrom 4].

(* '#wrap > h1:nth-of-type(2) + blockquote table tr a' *)
Definition review_links : selector :=
  Comb (Comb (Comb (Comb (Comb (Sel [Id "wrap"]) Child [Tag "h1"; NthOfType 2])
                         Adjacent [Tag "blockquote"])
                   Descendant [Tag "table"]) Descendant [Tag "tr"]) Descendant [Tag "a"].

(* 'table:nth-of-type(2) tr' *)
Definition info_rows : selector :=
  Comb (Sel [Tag "table"; NthOfType 2]) Descendant [Tag "tr"].

(* 'table:nth-of-type(3) > tbody > tr' *)
Definition review_rows : selector :=
  Comb (Comb (Sel [Tag "table"; NthOfType 3]) Child [Tag "tbody"]) Child [Tag "tr"].

(* 'td:nth-of-type(2)' and 'td:nth-of-type(2) b' *)
Definition second_td : selector := Sel [Tag "td"; NthOfType 2].
Definition second_td_b : selector := Comb second_td Descendant [Tag "b"].

(* 'input[name=userLoginID]' and 'input[name=password]' *)
Definition input_named (name : string) : selector := Sel [Tag "input"; AttrEq "name" name].

Definition tag (t : string) : selector := Sel [Tag t].

End Dom.

(** ** Promises and exceptions *)

Module Js.

Inductive error : Type :=
| TypeError (message : string)   (* a property read on [undefined] or [null] *)
| Error (message : string).      (* any other failure: navigation, selector, file *)

(** How a promise ends.  The same type serves synchronous code that may
    throw: [Rejected] is then the thrown exception. *)
Inductive outcome (A : Type) : Type :=
| Fulfilled (a : A)
| Rejected (e : error)
| Pending.
Arguments Rejected {A} e.
Arguments Pending {A}.

(** [await p] followed by the rest of an async function *)
Definition bind {A B} (p : outcome A) (k : A -> outcome B) : outcome B :=
  match p with
  | Fulfilled a => k a
  | Rejected e => Rejected e
  | Pending => Pending
  end.

(** [xs.map(f)] where [f] may throw: the first exception ends the loop. *)
Fixpoint traverse {A B} (f : A -> outcome B) (xs : list A) : outcome (list B) :=
  match xs with
  | [] => Fulfilled []
  | x :: xs' =>
      bind (f x) (fun y => bind (traverse f xs') (fun ys => Fulfilled (y :: ys)))
  end.

(** [xs.map((x, i) => f i x)], the indices starting from [i]. *)
Fixpoint mapi_from {A B} (f : nat -> A -> B) (i : nat) (xs : list A) : list B :=
  match xs with
  | [] => []
  | x :: xs' => f i x :: mapi_from f (S i) xs'
  end.
Definition mapi {A B} (f : nat -> A -> B) (xs : list A) : list B := mapi_from f 0 xs.

(** [xs.filter((x, i) => p i)] *)
Fixpoint filteri_from {A} (p : nat -> bool) (i : nat) (xs : list A) : list A :=
  match xs with
  | [] => []
  | x :: xs' => if p i then x :: filteri_from p (S i) xs' else filteri_from p (S i) xs'
  end.
Definition filteri {A} (p : nat -> bool) (xs : list A) : list A := filteri_from p 0 xs.

(** [x.prop] where [x] may be [undefined] or [null] *)
Definition defined {A} (prop : string) (x : option A) : outcome A :=
  match x with
  | Some a => Fulfilled a
  | None => Rejected (TypeError ("Cannot read property '" ++ prop ++ "'"))
  end.

(** *** [Promise.all]

    The promises of [tasks] settle one at a time, in the order [order]
    lists their indices.  [Promise.all] keeps one slot per promise and a
    count of the slots still empty; a fulfilment fills the slot of its own
    index, the first rejection rejects the whole. *)

Section All.
Variable A : Type.

Record all_state : Type :=
  { values : list (option A); remaining : nat; settled : outcome (list A) }.

Fixpoint set_at (i : nat) (v : option A) (vs : list (option A)) : list (option A) :=
  match i, vs with
  | O, _ :: vs' => v :: vs'
  | S i', x :: vs' => x :: set_at i' v vs'
  | _, [] => []
  end.

Fixpoint filled (vs : list (option A)) : list A :=
  match vs with
  | [] => []
  | Some v :: vs' => v :: filled vs'
  | None :: vs' => filled vs'
  end.

Definition all_start (n : nat) : all_state :=
  {| values := repeat None n; remaining := n;
     settled := if (n =? 0)%nat then Fulfilled [] else Pending |}.

Definition settle_one (tasks : list (outcome A)) (st : all_state) (i : nat) : all_state :=
  match settled st with
  | Pending =>
      match nth_error tasks i with
      | Some (Fulfilled v) =>
          match nth_error (values st) i with
          | Some None =>
              let vs := set_at i (Some v) (values st) in
              let r := remaining st - 1 in
              {| values := vs; remaining := r;
                 settled := if (r =? 0)%nat then Fulfilled (filled vs) else Pending |}
          | _ => st
          end
      | Some (Rejected e) =>
          {| values := values st; remaining := remaining st; settled := Rejected e |}
      | _ => st
      end
  | _ => st
  end.

(** [Promise.all(tasks)] *)
Definition Promise_all (order : list nat) (tasks : list (outcome A)) : outcome (list A) :=
  settled (fold_left (settle_one tasks) order (all_start (List.length tasks))).

End All.

(** The completion orders of one run: the order at this fan-out, and the
    orders inside each of its children. *)
Inductive schedule : Type :=
| Schedule (order : list nat) (inner : list schedule).

Definition order_of (s : schedule) : list nat := let (o, _) := s in o.
Definition inner_of (s : schedule) (i : nat) : schedule :=
  let (_, ss) := s in nth i ss (Schedule [] []).

End Js.

(** ** JSON documents *)

Module Json.

Inductive json : Type :=
| JNull
| JBool (b : bool)
| JNum (q : Q)
| JStr (s : string)
| JArr (xs : list json)
| JObj (fields : list (string * json)).

(** [JSON.stringify] writes [null] for a number that is not finite. *)
Definition of_number (n : Num.number) : json :=
  match n with
  | Num.Fin q => JNum q
  | _ => JNull
  end.

Definition or_null {A} (f : A -> json) (x : option A) : json :=
  match x with Some a => f a | None => JNull end.

(** A property whose value is [undefined] is left out. *)
Definition optional {A} (key : string) (f : A -> json) (x : option A) : list (string * json) :=
  match x with Some a => [(key, f a)] | None => [] end.

Definition keys (j : json) : list string :=
  match j with
  | JObj fs => map fst fs
  | _ => []
  end.

Fixpoint assoc (key : string) (fs : list (string * json)) : option json :=
  match fs with
  | [] => None
  | (k, v) :: fs' => if String.eqb k key then Some v else assoc key fs'
  end.

Definition field (key : string) (j : json) : option json :=
  match j with
  | JObj fs => assoc key fs
  | _ => None
  end.

End Json.

(** ** The world outside the script, and puppeteer's page API *)

Module Env.
Import Js.

Record credentials : Type := { username : string; password : string }.

(** [package.json], of which the script reads the name and the version. *)
Record package : Type := { pkg_name : string; pkg_version : string }.

Record world : Type := {
  pkg : package;                          (* require('./package.json') *)
  launch : outcome unit;                  (* puppeteer.launch({ headless: true }) *)
  goto : string -> outcome Dom.document;  (* browser.newPage(), then page.goto(address, ...) *)
  readCredentials : outcome credentials;  (* JSON.parse(await readFile(CREDENTIAL_FILE)) *)
  clickOn : Dom.node -> outcome unit;     (* the click of page.click on the element found:
                                             scrolling it into view and clicking in it *)
  keyboardType : string -> outcome unit;  (* page.keyboard.type(text) *)
  keyboardPress : string -> outcome unit; (* page.keyboard.press(key) *)
  waitForNavigation : string -> string -> outcome Dom.document;
                                          (* the page the login form leads to, for the
                                             username and the password typed into it *)
  now : string;                           (* new Date(), as JSON.stringify writes it *)
  writeFile : string -> Json.json -> outcome unit;
  close : outcome unit                    (* browser.close() *)
}.

Definition CREDENTIAL_FILE : string := "creds.json".
Definition OUTPUT_FILE : string := "reviews.json".
Definition ENTRY : string := "https://precisionconference.com/~sigchi".

(** [page.$$eval(selector, f)] *)
Definition eval_all {B} (s : Dom.selector) (f : list Dom.node -> outcome B)
           (page : Dom.document) : outcome B :=
  f (Dom.select s page).

(** [page.$eval(selector, f)] *)
Definition eval_one {B} (s : Dom.selector) (f : Dom.node -> outcome B)
           (page : Dom.document) : outcome B :=
  match hd_error (Dom.select s page) with
  | Some n => f n
  | None => Rejected (Error "failed to find element matching selector")
  end.

(** [page.click(selector)]: the first element the selector matches is
    clicked; the promise is rejected when there is none. *)
Definition click (w : world) (s : Dom.selector) (page : Dom.document) : outcome unit :=
  match hd_error (Dom.select s page) with
  | Some n => clickOn w n
  | None => Rejected (Error "No node found for selector")
  end.

Definition text (n : Dom.node) : string := Dom.innerText (Dom.node_elem n).
Definition title (n : Dom.node) : string := Dom.reflected "title" (Dom.node_elem n).
Definition href (n : Dom.node) : string := Dom.reflected "href" (Dom.node_elem n).

(** [x.innerText], [x.title], [x.href] where [x] may be missing *)
Definition innerText_of (x : option Dom.node) : outcome string :=
  bind (defined "innerText" x) (fun n => Fulfilled (text n)).
Definition title_of (x : option Dom.node) : outcome string :=
  bind (defined "title" x) (fun n => Fulfilled (title n)).
Definition href_of (x : option Dom.node) : outcome string :=
  bind (defined "href" x) (fun n => Fulfilled (href n)).

(** [x.querySelector(s)] where [x] may be missing *)
Definition querySelector_of (s : Dom.selector) (x : option Dom.node)
  : outcome (option Dom.node) :=
  bind (defined "querySelector" x) (fun n => Fulfilled (Dom.querySelector s n)).

(** *** The log and the files, threaded through [main] *)

Inductive entry : Type :=
| Info (message : string)    (* log.info *)
| Failure (e : error).       (* log.error *)

Record effects : Type :=
  { console : list entry; files : list (string * Json.json) }.

Definition start : effects := {| console := []; files := [] |}.

Definition prog (A : Type) : Type := effects -> effects * outcome A.

Definition ret {A} (a : A) : prog A := fun fx => (fx, Fulfilled a).

Definition then_ {A B} (p : prog A) (k : A -> prog B) : prog B :=
  fun fx =>
    match p fx with
    | (fx', Fulfilled a) => k a fx'
    | (fx', Rejected e) => (fx', Rejected e)
    | (fx', Pending) => (fx', Pending)
    end.

Definition await {A} (p : outcome A) : prog A := fun fx => (fx, p).

Definition log_info (message : string) : prog unit :=
  fun fx => ({| console := console fx ++ [Info message]; files := files fx |}, Fulfilled tt).

Definition log_error (e : error) (fx : effects) : effects :=
  {| console := console fx ++ [Failure e]; files := files fx |}.

(** [await writeFile(file, JSON.stringify(doc, null, 2))]: the document is
    kept as a tree, its rendering as indented text is not modelled. *)
Definition write (w : world) (file : string) (doc : Json.json) : prog unit :=
  fun fx =>
    match writeFile w file doc with
    | Fulfilled _ =>
        ({| console := console fx; files := files fx ++ [(file, doc)] |}, Fulfilled tt)
    | Rejected e => (fx, Rejected e)
    | Pending => (fx, Pending)
    end.

(** How the process ends. *)
Inductive status : Type :=
| Exit (code : Z)
| Running.

Record ending : Type := { trace : effects; exit : status }.

(** [p.catch(e => { log.error(e); process.exit(0); })], [p] being the
    whole run: when [p] is fulfilled nothing is left to run and node ends
    with status 0. *)
Definition catch_exit (p : prog unit) : ending :=
  match p start with
  | (fx, Fulfilled _) => {| trace := fx; exit := Exit 0 |}
  | (fx, Rejected e) => {| trace := log_error e fx; exit := Exit 0 |}
  | (fx, Pending) => {| trace := fx; exit := Running |}
  end.

(** [pluralize(word, count)] of the pluralize package, for 'category' *)
Definition pluralize_category (count : nat) : string :=
  if (count =? 1)%nat then "category" else "categories".

Definition string_of_nat (n : nat) : string :=
  DecimalString.NilZero.string_of_uint (Nat.to_uint n).

Definition found_message (names : list string) : string :=
  "Found " ++ string_of_nat (List.length names) ++ " review "
  ++ pluralize_category (List.length names) ++ ": " ++ Str.join ", " names ++ ".".

(** [logIn(loginPage, username, password)]: six awaited steps; the page
    then shows the document the submitted form leads to. *)
Definition logIn (w : world) (loginPage : Dom.document) (user pass : string)
  : outcome Dom.document :=
  bind (click w (Dom.input_named "userLoginID") loginPage) (fun _ =>
  bind (keyboardType w user) (fun _ =>
  bind (click w (Dom.input_named "password") loginPage) (fun _ =>
  bind (keyboardType w pass) (fun _ =>
  bind (keyboardPress w "Enter") (fun _ =>
  waitForNavigation w user pass))))).

End Env.

(** ** Element handles

    The first revision (lines 1-131 of [src/index.js]) reads the page
    through handles: [page.$$(s)] and [h.$$(s)] give handles to the
    elements [s] matches, [h.$(s)] a handle to the first of them or
    [null], [h.getProperty(name)] a handle to the value of a property,
    which is read in the page, and [prop.jsonValue()] the value itself. *)

Module Handle.
Import Js Env.

(** A handle to a value of the page that is an element or [null]. *)
Definition t : Type := option Dom.node.

(** [h.getProperty('parentNode')]: reading a property of [null] throws in
    the page, and the evaluation is rejected. *)
Definition getParentNode (h : t) : outcome t :=
  match h with
  | Some n => Fulfilled (Dom.parentNode n)
  | None =>
      Rejected (Error "Evaluation failed: TypeError: Cannot read property 'parentNode' of null")
  end.

(** [h.$(s)] for a handle [h] that [getProperty] gave: only the handle of
    an element has the method [$]. *)
Definition query (s : Dom.selector) (h : t) : outcome (option Dom.node) :=
  match h with
  | Some n => Fulfilled (Dom.querySelector s n)
  | None => Rejected (TypeError "row.$ is not a function")
  end.

(** [x.$(s)] for an element of an array of handles, [undefined] past its
    end *)
Definition query_of (s : Dom.selector) (x : option Dom.node) : outcome (option Dom.node) :=
  bind (defined "$" x) (fun n => Fulfilled (Dom.querySelector s n)).

(** [x.getProperty(name).then(prop => prop.jsonValue())] for the string
    property [read] of an element; [x] is [undefined] or [null] where the
    element is missing. *)
Definition jsonValueOf (read : Dom.node -> string) (x : option Dom.node) : outcome string :=
  bind (defined "getProperty" x) (fun n => Fulfilled (read n)).

End Handle.

(** ** Code common to the revisions *)

Module Shared.
Import Js Env.

Module Category.
(** [{ name, address }] *)
Record link : Type := { name : string; address : string }.
End Category.

(** The callback of [scrapeSubmissionCategories] (and of
    [fetchSubmissionCategories]) for one link:
    [{ name: link.parentNode.parentNode.querySelector('td').innerText,
       address: link.href }] *)
Definition categoryOfLink (link : Dom.node) : outcome Category.link :=
  bind (defined "parentNode" (Dom.parentNode link)) (fun td =>
  bind (defined "querySelector" (Dom.parentNode td)) (fun row =>
  bind (innerText_of (Dom.querySelector (Dom.tag "td") row)) (fun name =>
  Fulfilled {| Category.name := name; Category.address := href link |}))).

(** [mainReviewsPage.$$eval('h1 + div table td a', links => ...)] *)
Definition scrapeSubmissionCategories (mainReviewsPage : Dom.document)
  : outcome (list Category.link) :=
  eval_all Dom.category_links (traverse categoryOfLink) mainReviewsPage.

(** [/\(([^)]+)\)/.exec(text)], then [match ? match[1] : otherwise] *)
Definition parenthesized (text : string) : option string :=
  match RegExp.exec RegExp.paren_re text with
  | Some m => RegExp.group 1 m
  | None => None
  end.

(** The start of [main], up to the categories:
    launch, load the entry page, read the credentials, log in, list the
    categories. *)
Definition discover (w : world) (scrap : string)
  : prog (credentials * list Category.link) :=
  then_ (await (launch w)) (fun _ =>
  then_ (log_info "Loading precisionconference.com/~sigchi...") (fun _ =>
  then_ (await (goto w ENTRY)) (fun page =>
  then_ (await (readCredentials w)) (fun creds =>
  then_ (log_info ("Logging as " ++ username creds ++ ".")) (fun _ =>
  then_ (await (logIn w page (username creds) (password creds))) (fun home =>
  then_ (log_info "Look for reviews...") (fun _ =>
  then_ (await (scrapeSubmissionCategories home)) (fun categories =>
  then_ (log_info (found_message (map Category.name categories))) (fun _ =>
  then_ (log_info scrap) (fun _ =>
  ret (creds, categories))))))))))).

(** The end of [main]: write the document, close the browser. *)
Definition finish (w : world) (doc : Json.json) : prog unit :=
  then_ (write w OUTPUT_FILE doc) (fun _ =>
  then_ (log_info ("Data written in " ++ OUTPUT_FILE ++ ".")) (fun _ =>
  await (close w))).

(** The envelope [main] writes, [key] naming the array of categories. *)
Definition envelope (w : world) (creds : credentials) (key : string)
           (categories : list Json.json) : Json.json :=
  Json.JObj [ ("scrapper", Json.JStr (pkg_name (pkg w)));
              ("version", Json.JStr (pkg_version (pkg w)));
              ("username", Json.JStr (username creds));
              ("date", Json.JStr (now w));
              (key, Json.JArr categories) ].

End Shared.

(** ** [src/unnamed/part_000]: categories and their submission lists *)

Module Listing.
Import Js Env Shared.

Module Submission.
(** [{ id, title, address }] *)
Record t : Type := { id : string; title : string; address : string }.

Definition to_json (s : t) : Json.json :=
  Json.JObj [ ("id", Json.JStr (id s)); ("title", Json.JStr (title s));
              ("address", Json.JStr (address s)) ].
End Submission.

Module CategoryData.
(** [Object.assign({}, cat, { submissions })] *)
Record t : Type := { cat : Category.link; submissions : list Submission.t }.

Definition to_json (c : t) : Json.json :=
  Json.JObj [ ("name", Json.JStr (Category.name (cat c)));
              ("address", Json.JStr (Category.address (cat c)));
              ("submissions", Json.JArr (map Submission.to_json (submissions c))) ].
End CategoryData.

Definition fetchSubmissionCategories := scrapeSubmissionCategories.

(** The callback of [fetchSubmissionList] for one row:
    [{ id: tds[6].innerText, title: tds[8].querySelector('a').title,
       address: tds[12].querySelector('a').href }] *)
Definition submissionOfRow (tr : Dom.node) : outcome Submission.t :=
  let tds := Dom.querySelectorAll (Dom.tag "td") tr in
  bind (innerText_of (nth_error tds 6)) (fun id =>
  bind (querySelector_of (Dom.tag "a") (nth_error tds 8)) (fun a8 =>
  bind (title_of a8) (fun title =>
  bind (querySelector_of (Dom.tag "a") (nth_error tds 12)) (fun a12 =>
  bind (href_of a12) (fun address =>
  Fulfilled {| Submission.id := id; Submission.title := title;
               Submission.address := address |}))))).

(** [submissionsPage.$$eval('h1 + blockquote table tr:nth-child(n + 4)', trs => ...)] *)
Definition fetchSubmissionList (submissionsPage : Dom.document)
  : outcome (list Submission.t) :=
  eval_all Dom.submission_rows (traverse submissionOfRow) submissionsPage.

(** The async callback of [categories.map] in the top-level function. *)
Definition categoryData (w : world) (cat : Category.link) : outcome CategoryData.t :=
  bind (goto w (Category.address cat)) (fun catPage =>
  bind (fetchSubmissionList catPage) (fun submissions =>
  Fulfilled {| CategoryData.cat := cat; CategoryData.submissions := submissions |})).

Definition document (w : world) (creds : credentials) (data : list CategoryData.t)
  : Json.json :=
  envelope w creds "categories" (map CategoryData.to_json data).

(** The top-level async function; [order] is the order in which the
    categories complete. *)
Definition main (w : world) (order : list nat) : prog unit :=
  then_ (discover w "Scrap reviews...") (fun '(creds, categories) =>
  then_ (await (Promise_all order (map (categoryData w) categories))) (fun data =>
  finish w (document w creds data))).

(** [(async () => { ... })().catch(e => { log.error(e); process.exit(0); })] *)
Definition run (w : world) (order : list nat) : ending := catch_exit (main w order).

End Listing.

(** ** [src/index.js], lines 132-380: reviews with scales and review parts *)

Module Main.
Import Js Env Shared.

Module Part.
(** [{ title, content }], [None] for [null] *)
Record t : Type := { title : option string; content : option string }.

Definition to_json (p : t) : Json.json :=
  Json.JObj [ ("title", Json.or_null Json.JStr (title p));
              ("content", Json.or_null Json.JStr (content p)) ].
End Part.

Module Review.
(** What the page function of [scrapeSubmissionReview] returns. *)
Record page : Type := {
  number : Num.number;
  rating : Num.number;
  ratingScale : option (Num.number * Num.number);
  reviewerExpertise : Num.number;
  expertiseScale : option (Num.number * Num.number);
  reviewerType : string;
  reviewParts : list Part.t
}.

(** [Object.assign({ isUser }, result)] *)
Record t : Type := { isUser : bool; result : page }.

Definition scale_json (s : Num.number * Num.number) : Json.json :=
  Json.JArr [Json.of_number (fst s); Json.of_number (snd s)].

Definition to_json (r : t) : Json.json :=
  Json.JObj [ ("isUser", Json.JBool (isUser r));
              ("number", Json.of_number (number (result r)));
              ("rating", Json.of_number (rating (result r)));
              ("ratingScale", Json.or_null scale_json (ratingScale (result r)));
              ("reviewerExpertise", Json.of_number (reviewerExpertise (result r)));
              ("expertiseScale", Json.or_null scale_json (expertiseScale (result r)));
              ("reviewerType", Json.JStr (reviewerType (result r)));
              ("reviewParts", Json.JArr (map Part.to_json (reviewParts (result r)))) ].
End Review.

Module Submission.
(** What the page function of [scrapeSubmissions] returns for a row;
    [coordinator] is [None] for [undefined]. *)
Record row : Type := {
  id : string;
  title : string;
  submissionAddress : string;
  reviewsAddress : string;
  reviewStatus : string;
  coordinator : option string
}.

(** [Object.assign({}, sub, { reviews })] *)
Record t : Type := { sub : row; reviews : list Review.t }.

Definition to_json (s : t) : Json.json :=
  Json.JObj ([ ("id", Json.JStr (id (sub s)));
               ("title", Json.JStr (title (sub s)));
               ("submissionAddress", Json.JStr (submissionAddress (sub s)));
               ("reviewsAddress", Json.JStr (reviewsAddress (sub s)));
               ("reviewStatus", Json.JStr (reviewStatus (sub s))) ]
             ++ Json.optional "coordinator" Json.JStr (coordinator (sub s))
             ++ [ ("reviews", Json.JArr (map Review.to_json (reviews s))) ]).
End Submission.

Module CategoryData.
(** [Object.assign({}, cat, { submissions })] *)
Record t : Type := { cat : Category.link; submissions : list Submission.t }.

Definition to_json (c : t) : Json.json :=
  Json.JObj [ ("name", Json.JStr (Category.name (cat c)));
              ("address", Json.JStr (Category.address (cat c)));
              ("submissions", Json.JArr (map Submission.to_json (submissions c))) ].
End CategoryData.

(** [match ? match.slice(1, 3).map(x => +x) : null] for
    [match = /scale is (\d(?:\.\d)?)\.\.(\d(?:\.\d)?)/.exec(text)];
    [+undefined] is [NaN]. *)
Definition plus_group (n : nat) (m : RegExp.captures) : Num.number :=
  match RegExp.group n m with
  | Some x => Num.unary_plus x
  | None => Num.NaN
  end.

Definition scaleOf (text : string) : option (Num.number * Num.number) :=
  match RegExp.exec RegExp.scale_re text with
  | Some m => Some (plus_group 1 m, plus_group 2 m)
  | None => None
  end.

(** [title.innerText ? title.innerText.trim() : null] *)
Definition titleOf (title : Dom.node) : option string :=
  if Str.is_empty (text title) then None else Some (Str.trim (text title)).

(** [reviewTrs[i * 2 + 1] ? reviewTrs[i * 2 + 1].innerText.trim() : null] *)
Definition contentOf (reviewTrs : list Dom.node) (i : nat) : option string :=
  match nth_error reviewTrs (i * 2 + 1) with
  | Some tr => Some (Str.trim (text tr))
  | None => None
  end.

(** [title !== ''] *)
Definition titled (p : Part.t) : bool :=
  match Part.title p with
  | Some t => negb (Str.is_empty t)
  | None => true
  end.

(** [Array.from(reviewTrs).filter((x, i) => i % 2 === 0)
      .map((title, i) => ({ title: ..., content: ... }))
      .filter(({ title }) => title !== '')] *)
Definition reviewPartsOf (reviewTrs : list Dom.node) : list Part.t :=
  filter titled
    (mapi (fun i title => {| Part.title := titleOf title;
                             Part.content := contentOf reviewTrs i |})
          (filteri (fun i => (i mod 2 =? 0)%nat) reviewTrs)).

(** [Array.from(body.querySelectorAll('table:nth-of-type(2) tr'))
      .map(tr => tr.querySelector('td:nth-of-type(2)'))]: a cell is
    [None] where the row has no second cell. *)
Definition infoCells (body : Dom.node) : list (option Dom.node) :=
  map (Dom.querySelector Dom.second_td) (Dom.querySelectorAll Dom.info_rows body).

(** An element of the destructured array: [undefined] and [null] both
    make the next property read throw. *)
Definition cell (cells : list (option Dom.node)) (i : nat) : option Dom.node :=
  match nth_error cells i with
  | Some c => c
  | None => None
  end.

(** [+td.querySelector('b').innerText] *)
Definition bold_number (td : Dom.node) : outcome Num.number :=
  bind (innerText_of (Dom.querySelector (Dom.tag "b") td)) (fun x =>
  Fulfilled (Num.unary_plus x)).

(** The page function of [scrapeSubmissionReview]. *)
Definition reviewOfBody (body : Dom.node) : outcome Review.page :=
  let cells := infoCells body in
  bind (defined "innerText" (cell cells 0)) (fun reviewerTd =>
  let reviewerMatch := parenthesized (text reviewerTd) in
  bind (defined "innerText" (cell cells 2)) (fun ratingTd =>
  let ratingScaleMatch := scaleOf (text ratingTd) in
  bind (defined "innerText" (cell cells 3)) (fun expertiseTd =>
  let expertiseScaleMatch := scaleOf (text expertiseTd) in
  let reviewTrs := Dom.querySelectorAll Dom.review_rows body in
  let reviewParts := reviewPartsOf reviewTrs in
  bind (bold_number reviewerTd) (fun number =>
  bind (bold_number ratingTd) (fun rating =>
  bind (bold_number expertiseTd) (fun reviewerExpertise =>
  Fulfilled {| Review.number := number;
               Review.rating := rating;
               Review.ratingScale := ratingScaleMatch;
               Review.reviewerExpertise := reviewerExpertise;
               Review.expertiseScale := expertiseScaleMatch;
               Review.reviewerType :=
                 match reviewerMatch with Some t => t | None => "external" end;
               Review.reviewParts := reviewParts |})))))).

(** [scrapeSubmissionReview(browser, reviewPageAddress, isUser)] *)
Definition scrapeSubmissionReview (w : world) (reviewPageAddress : string)
           (isUser : bool) : outcome Review.t :=
  bind (goto w reviewPageAddress) (fun reviewPage =>
  bind (eval_one (Dom.tag "body") reviewOfBody reviewPage) (fun result =>
  Fulfilled {| Review.isUser := isUser; Review.result := result |})).

(** [{ address: link.href, isUser: link.innerText.includes('(you)') }] *)
Record reviewLink : Type := { address : string; isUser : bool }.

Definition reviewAddressOf (link : Dom.node) : reviewLink :=
  {| address := href link; isUser := Str.includes "(you)" (text link) |}.

Definition reviewAddresses (submissionPage : Dom.document) : outcome (list reviewLink) :=
  eval_all Dom.review_links (fun links => Fulfilled (map reviewAddressOf links))
           submissionPage.

(** [scrapeSubmissionReviews(browser, submissionPageAddress)]; [order] is
    the order in which the reviews complete. *)
Definition scrapeSubmissionReviews (w : world) (order : list nat)
           (submissionPageAddress : string) : outcome (list Review.t) :=
  bind (goto w submissionPageAddress) (fun submissionPage =>
  bind (reviewAddresses submissionPage) (fun reviewAddresses =>
  Promise_all order
    (map (fun review => scrapeSubmissionReview w (address review) (isUser review))
         reviewAddresses))).

(** The callback of [scrapeSubmissions] for one row. *)
Definition submissionOfRow (tr : Dom.node) : outcome Submission.row :=
  let tds := Dom.querySelectorAll (Dom.tag "td") tr in
  bind (innerText_of (nth_error tds 14)) (fun text14 =>
  let coordinatorMatch := parenthesized text14 in
  bind (innerText_of (nth_error tds 6)) (fun id =>
  bind (querySelector_of (Dom.tag "a") (nth_error tds 8)) (fun a8 =>
  bind (title_of a8) (fun title =>
  bind (href_of a8) (fun submissionAddress =>
  bind (querySelector_of (Dom.tag "a") (nth_error tds 12)) (fun a12 =>
  bind (href_of a12) (fun reviewsAddress =>
  bind (innerText_of (nth_error tds 0)) (fun reviewStatus =>
  Fulfilled {| Submission.id := id;
               Submission.title := title;
               Submission.submissionAddress := submissionAddress;
               Submission.reviewsAddress := reviewsAddress;
               Submission.reviewStatus := reviewStatus;
               Submission.coordinator := coordinatorMatch |})))))))).

(** [catPage.$$eval('h1 + blockquote table tr:nth-child(n + 4)', trs => ...)] *)
Definition submissionRows (catPage : Dom.document) : outcome (list Submission.row) :=
  eval_all Dom.submission_rows (traverse submissionOfRow) catPage.

(** [async sub => Object.assign({}, sub, { reviews: await ... })] *)
Definition withReviews (w : world) (s : schedule) (i : nat) (sub : Submission.row)
  : outcome Submission.t :=
  bind (scrapeSubmissionReviews w (order_of (inner_of s i)) (Submission.reviewsAddress sub))
       (fun reviews => Fulfilled {| Submission.sub := sub; Submission.reviews := reviews |}).

(** [scrapeSubmissions(browser, submissionsPageAddress)]; [s] gives the
    order in which the submissions complete and, for each, the order of
    its reviews. *)
Definition scrapeSubmissions (w : world) (s : schedule) (submissionsPageAddress : string)
  : outcome (list Submission.t) :=
  bind (goto w submissionsPageAddress) (fun catPage =>
  bind (submissionRows catPage) (fun submissions =>
  Promise_all (order_of s) (mapi (withReviews w s) submissions))).

(** [async cat => Object.assign({}, cat, { submissions: await ... })] *)
Definition withSubmissions (w : world) (s : schedule) (i : nat) (cat : Category.link)
  : outcome CategoryData.t :=
  bind (scrapeSubmissions w (inner_of s i) (Category.address cat))
       (fun submissions =>
          Fulfilled {| CategoryData.cat := cat; CategoryData.submissions := submissions |}).

Definition document (w : world) (creds : credentials) (reviewCategories : list CategoryData.t)
  : Json.json :=
  envelope w creds "reviewCategories" (map CategoryData.to_json reviewCategories).

(** [main()]; [s] gives the completion orders of the whole run. *)
Definition main (w : world) (s : schedule) : prog unit :=
  then_ (discover w "Scrape reviews...") (fun '(creds, categories) =>
  then_ (await (Promise_all (order_of s) (mapi (withSubmissions w s) categories)))
        (fun reviewCategories =>
  finish w (document w creds reviewCategories))).

(** [main().catch(e => { log.error(e); process.exit(0); })] *)
Definition run (w : world) (s : schedule) : ending := catch_exit (main w s).

End Main.

(** ** [src/index.js], lines 381-593: the [award] column, reviews without scales *)

Module Award.
Import Js Env Shared.

Module Review.
Record page : Type := {
  number : Num.number;
  rating : Num.number;
  reviewerExpertise : Num.number;
  reviewerType : string
}.
Record t : Type := { isUser : bool; result : page }.
End Review.

Module Submission.
Record row : Type := {
  id : string;
  title : string;
  submissionAddress : string;
  reviewsAddress : string;
  reviewStatus : string;
  award : string;
  coordinator : option string
}.
End Submission.

(** [infoTableRows[i].querySelector('td:nth-of-type(2)').innerText] *)
Definition info_text (infoTableRows : list Dom.node) (i : nat) : outcome string :=
  bind (querySelector_of Dom.second_td (nth_error infoTableRows i)) innerText_of.

(** [+infoTableRows[i].querySelector('td:nth-of-type(2) b').innerText] *)
Definition info_number (infoTableRows : list Dom.node) (i : nat) : outcome Num.number :=
  bind (querySelector_of Dom.second_td_b (nth_error infoTableRows i)) (fun b =>
  bind (innerText_of b) (fun x => Fulfilled (Num.unary_plus x))).

(** The page function of [scrapeSubmissionReview]. *)
Definition reviewOfBody (body : Dom.node) : outcome Review.page :=
  let infoTableRows := Dom.querySelectorAll Dom.info_rows body in
  bind (info_text infoTableRows 0) (fun reviewerText =>
  let reviewerMatch := parenthesized reviewerText in
  bind (info_number infoTableRows 0) (fun number =>
  bind (info_number infoTableRows 2) (fun rating =>
  bind (info_number infoTableRows 3) (fun reviewerExpertise =>
  Fulfilled {| Review.number := number;
               Review.rating := rating;
               Review.reviewerExpertise := reviewerExpertise;
               Review.reviewerType :=
                 match reviewerMatch with Some t => t | None => "external" end |})))).

Definition scrapeSubmissionReview (w : world) (reviewPageAddress : string)
           (isUser : bool) : outcome Review.t :=
  bind (goto w reviewPageAddress) (fun reviewPage =>
  bind (eval_one (Dom.tag "body") reviewOfBody reviewPage) (fun result =>
  Fulfilled {| Review.isUser := isUser; Review.result := result |})).

(** The callback of [scrapeSubmissions] for one row. *)
Definition submissionOfRow (tr : Dom.node) : outcome Submission.row :=
  let tds := Dom.querySelectorAll (Dom.tag "td") tr in
  bind (innerText_of (nth_error tds 14)) (fun text14 =>
  let coordinatorMatch := parenthesized text14 in
  bind (innerText_of (nth_error tds 6)) (fun id =>
  bind (querySelector_of (Dom.tag "a") (nth_error tds 8)) (fun a8 =>
  bind (title_of a8) (fun title =>
  bind (href_of a8) (fun submissionAddress =>
  bind (querySelector_of (Dom.tag "a") (nth_error tds 12)) (fun a12 =>
  bind (href_of a12) (fun reviewsAddress =>
  bind (innerText_of (nth_error tds 0)) (fun reviewStatus =>
  bind (innerText_of (nth_error tds 4)) (fun award =>
  Fulfilled {| Submission.id := id;
               Submission.title := title;
               Submission.submissionAddress := submissionAddress;
               Submission.reviewsAddress := reviewsAddress;
               Submission.reviewStatus := reviewStatus;
               Submission.award := award;
               Submission.coordinator := coordinatorMatch |}))))))))).

End Award.

(** ** Pages of the site, as the selectors of the script expect them *)

Module Pages.
Import Dom.

Definition el (tag : string) (text : string) (kids : list element) : element :=
  Element tag [] text kids.
Definition td (text : string) : element := el "td" text [].
Definition a (text title href : string) : element :=
  Element "a" [("title", title); ("href", href)] text [].
Definition page (kids : list element) : document :=
  el "html" "" [el "head" "" []; el "body" "" kids].

Definition header_row : element := el "tr" "" [el "th" "" []].

(** A row of a listing: fifteen cells, of which the script reads
    0 (status), 4 (award), 6 (id), 8 (title and submission link),
    12 (reviews link) and 14 (coordinator). *)
Definition submission_row (status award id title sub reviews coordinator : string)
  : element :=
  el "tr" ""
     [td status; td ""; td ""; td ""; td award; td ""; td id; td "";
      el "td" title [a title title sub]; td ""; td ""; td "";
      el "td" "reviews" [a "reviews" "" reviews]; td ""; td coordinator].

(** The page of a listing with the table rows [rows]. *)
Definition listing_page (rows : list element) : document :=
  page [el "h1" "Submissions" [];
        el "blockquote" "" [el "table" "" [el "tbody" "" rows]]].

(** The review list of a submission, one link per review. *)
Definition review_list (links : list element) : document :=
  page [Element "div" [("id", "wrap")] ""
          [el "h1" "Submission" [];
           el "blockquote" "" [];
           el "h1" "Reviews" [];
           el "blockquote" ""
              [el "table" "" [el "tbody" "" (map (fun l => el "tr" "" [el "td" "" [l]]) links)]]]].

Definition info_row (label text bold : string) : element :=
  el "tr" "" [td label; el "td" text [el "b" bold []]].

(** The page of a review: the info table is the second table, the review
    parts are the rows of the third. *)
Definition review_page (reviewer number rating ratingBold expertise expertiseBold : string)
           (parts : list element) : document :=
  page [el "table" "" [];
        el "table" ""
           [el "tbody" ""
               [info_row "Reviewer" reviewer number;
                info_row "Submission" "" "";
                info_row "Overall rating" rating ratingBold;
                info_row "Expertise" expertise expertiseBold]];
        el "table" "" [el "tbody" "" parts]].

End Pages.

(** ** A small site

    The pages of the scenario of the specification: one category
    "CHI 2020", its listing of three header rows and one submission, the
    review list of that submission with one review of the user, and the
    page of the review. *)

Module Scenario.
Import Dom Pages.

Definition entry : document :=
  page [el "form" ""
          [Element "input" [("name", "userLoginID")] "" [];
           Element "input" [("name", "password")] "" []]].

Definition home : document :=
  page [el "h1" "My reviews" [];
        el "div" ""
          [el "table" ""
             [el "tbody" ""
                [el "tr" "CHI 2020"
                   [el "td" "CHI 2020" [a "CHI 2020" "" "/cat/1"]; td ""]]]]].

Definition listing : document :=
  listing_page
    [header_row; header_row; header_row;
     submission_row "Done" "" "123" "Paper X" "/sub/123" "/rev/123"
                    "Jane Doe (coordinator)"].

Definition reviews : document :=
  review_list [a "Review 1 (you)" "" "/rev/123/1"].

Definition review : document :=
  review_page "Reviewer 1 (AC)" "1" "3 (scale is 1..5)" "3" "4" "4" [].

Definition site (address : string) : Js.outcome document :=
  if String.eqb address Env.ENTRY then Js.Fulfilled entry
  else if String.eqb address "/cat/1" then Js.Fulfilled listing
  else if String.eqb address "/rev/123" then Js.Fulfilled reviews
  else if String.eqb address "/rev/123/1" then Js.Fulfilled review
  else Js.Rejected (Js.Error "net::ERR_ABORTED").

Definition world : Env.world :=
  {| Env.pkg := {| Env.pkg_name := "pcs-scrapper"; Env.pkg_version := "1.0.0" |};
     Env.launch := Js.Fulfilled tt;
     Env.goto := site;
     Env.readCredentials :=
       Js.Fulfilled {| Env.username := "jane"; Env.password := "secret" |};
     Env.clickOn := fun _ => Js.Fulfilled tt;
     Env.keyboardType := fun _ => Js.Fulfilled tt;
     Env.keyboardPress := fun _ => Js.Fulfilled tt;
     Env.waitForNavigation := fun _ _ => Js.Fulfilled home;
     Env.now := "2019-01-01T00:00:00.000Z";
     Env.writeFile := fun _ _ => Js.Fulfilled tt;
     Env.close := Js.Fulfilled tt |}.

(** A busier site: two categories, the first with two submissions, the
    first of these with two reviews. *)
Definition busy_home : document :=
  page [el "h1" "My reviews" [];
        el "div" ""
          [el "table" ""
             [el "tbody" ""
                [el "tr" "CHI 2020" [el "td" "CHI 2020" [a "CHI 2020" "" "/cat/1"]];
                 el "tr" "UIST 2020" [el "td" "UIST 2020" [a "UIST 2020" "" "/cat/2"]]]]]].

Definition busy_listing : document :=
  listing_page
    [header_row; header_row; header_row;
     submission_row "Done" "" "123" "Paper X" "/sub/123" "/rev/123" "Jane Doe (coordinator)";
     submission_row "Late" "" "124" "Paper Y" "/sub/124" "/rev/124" "nobody"].

Definition busy_reviews : document :=
  review_list [a "Review 1 (you)" "" "/rev/123/1"; a "Review 2" "" "/rev/123/2"].

Definition review2 : document :=
  review_page "Reviewer 2" "2" "2.5 (scale is 1..5)" "2.5" "1 (scale is 0.5..4.5)" "1"
              [el "tr" " Strengths " []; el "tr" " Clear. " []].

Definition busy_site (address : string) : Js.outcome document :=
  if String.eqb address Env.ENTRY then Js.Fulfilled entry
  else if String.eqb address "/cat/1" then Js.Fulfilled busy_listing
  else if String.eqb address "/cat/2" then Js.Fulfilled (listing_page [])
  else if String.eqb address "/rev/123" then Js.Fulfilled busy_reviews
  else if String.eqb address "/rev/124" then Js.Fulfilled (review_list [])
  else if String.eqb address "/rev/123/1" then Js.Fulfilled review
  else if String.eqb address "/rev/123/2" then Js.Fulfilled review2
  else Js.Rejected (Js.Error "net::ERR_ABORTED").

Definition busy : Env.world :=
  {| Env.pkg := {| Env.pkg_name := "pcs-scrapper"; Env.pkg_version := "1.0.0" |};
     Env.launch := Js.Fulfilled tt;
     Env.goto := busy_site;
     Env.readCredentials :=
       Js.Fulfilled {| Env.username := "jane"; Env.password := "secret" |};
     Env.clickOn := fun _ => Js.Fulfilled tt;
     Env.keyboardType := fun _ => Js.Fulfilled tt;
     Env.keyboardPress := fun _ => Js.Fulfilled tt;
     Env.waitForNavigation := fun _ _ => Js.Fulfilled busy_home;
     Env.now := "2019-01-01T00:00:00.000Z";
     Env.writeFile := fun _ _ => Js.Fulfilled tt;
     Env.close := Js.Fulfilled tt |}.

(** At every fan-out of the busy site the last child completes first. *)
Definition busy_orders : Js.schedule :=
  Js.Schedule [1; 0]
    [Js.Schedule [1; 0] [Js.Schedule [1; 0] []; Js.Schedule [] []];
     Js.Schedule [] []].

(** A review whose rating scale is written from the best mark down. *)
Definition descending : document :=
  review_page "Reviewer 1 (AC)" "1" "3 (scale is 5..1)" "3" "4" "4" [].

(** A review with four pairs of rows in its third table: one titled, one
    with a title of white space only, one with a title row without text,
    and a last title row without a content row. *)
Definition review3 : document :=
  review_page "Reviewer 3 (2AC)" "3" "4" "4" "2" "2"
              [el "tr" " Strengths " []; el "tr" " Clear. " [];
               el "tr" "   " []; el "tr" "dropped" [];
               el "tr" "" []; el "tr" "kept" [];
               el "tr" "Last" []].

(** A submission with two reviews that both carry the number 1: the
    review of the committee member and an external review. *)
Definition clash_reviews : document :=
  review_list [a "Review 1 (you)" "" "/rev/123/1"; a "Review 1" "" "/rev/123/x1"].

Definition external_review : document :=
  review_page "Reviewer 1" "1" "2 (scale is 1..5)" "2" "3" "3" [].

Definition clash : Env.world :=
  {| Env.pkg := {| Env.pkg_name := "pcs-scrapper"; Env.pkg_version := "1.0.0" |};
     Env.launch := Js.Fulfilled tt;
     Env.goto := fun address =>
       if String.eqb address "/rev/123" then Js.Fulfilled clash_reviews
       else if String.eqb address "/rev/123/1" then Js.Fulfilled review
       else if String.eqb address "/rev/123/x1" then Js.Fulfilled external_review
       else Js.Rejected (Js.Error "net::ERR_ABORTED");
     Env.readCredentials :=
       Js.Fulfilled {| Env.username := "jane"; Env.password := "secret" |};
     Env.clickOn := fun _ => Js.Fulfilled tt;
     Env.keyboardType := fun _ => Js.Fulfilled tt;
     Env.keyboardPress := fun _ => Js.Fulfilled tt;
     Env.waitForNavigation := fun _ _ => Js.Fulfilled home;
     Env.now := "2019-01-01T00:00:00.000Z";
     Env.writeFile := fun _ _ => Js.Fulfilled tt;
     Env.close := Js.Fulfilled tt |}.


(** [document.querySelector('body')] *)
Definition body_of (d : document) : option node := hd_error (select (tag "body") d).

(** Every fan-out of the scenario has one child. *)
Definition orders : Js.schedule :=
  Js.Schedule [0] [Js.Schedule [0] [Js.Schedule [0] []]].

(** The same world with the network down. *)
Definition offline : Env.world :=
  {| Env.pkg := Env.pkg world;
     Env.launch := Js.Fulfilled tt;
     Env.goto := fun _ => Js.Rejected (Js.Error "net::ERR_INTERNET_DISCONNECTED");
     Env.readCredentials := Env.readCredentials world;
     Env.clickOn := fun _ => Js.Fulfilled tt;
     Env.keyboardType := fun _ => Js.Fulfilled tt;
     Env.keyboardPress := fun _ => Js.Fulfilled tt;
     Env.waitForNavigation := Env.waitForNavigation world;
     Env.now := Env.now world;
     Env.writeFile := Env.writeFile world;
     Env.close := Js.Fulfilled tt |}.

End Scenario.

(** ** Notions of the specification *)

Module Spec.
Import Js Env.

(** The document of a run: written once, to the output file, with the
    five fields of the envelope in this order, the array of categories
    under [key]. *)
Definition envelope_written (w : world) (key : string) (fx : effects) : Prop :=
  exists creds categories,
    readCredentials w = Fulfilled creds /\
    files fx = [(OUTPUT_FILE,
                 Json.JObj [ ("scrapper", Json.JStr (pkg_name (pkg w)));
                             ("version", Json.JStr (pkg_version (pkg w)));
                             ("username", Json.JStr (username creds));
                             ("date", Json.JStr (now w));
                             (key, Json.JArr categories) ])].

(** [results] holds, at every index, what the operation launched for the
    input at that index was fulfilled with. *)
Definition in_input_order {A B} (op : nat -> A -> outcome B)
           (inputs : list A) (results : list B) : Prop :=
  (List.length results = List.length inputs /\
   forall i x, nth_error inputs i = Some x ->
               exists r, nth_error results i = Some r /\ op i x = Fulfilled r)%type.

(** A parenthesized token of [text]: [tok], not empty and free of [)],
    stands between [(] and [)] after [pre]. *)
Definition group_at (pre tok post text : string) : Prop :=
  (text = (pre ++ "(" ++ tok ++ ")" ++ post)%string /\
   tok <> "" /\ Str.contains ")" tok = false)%type.

(** [tok] is the token of the first parenthesized group of [text]. *)
Definition first_group (text tok : string) : Prop :=
  exists pre post,
    group_at pre tok post text /\
    forall pre' tok' post', group_at pre' tok' post' text ->
                            String.length pre <= String.length pre'.

(** [text] has no parenthesized token. *)
Definition no_group (text : string) : Prop :=
  forall pre tok post, ~ group_at pre tok post text.

(** The value [c] extracted from [text] by the parenthesis rule: the
    token of the first parenthesized group, absent when there is none. *)
Definition token_of (text : string) (c : option string) : Prop :=
  match c with
  | Some tok => first_group text tok
  | None => no_group text
  end.

(** The reviewer type [t] read from [text]: the token of the first
    parenthesized group, "external" when there is none. *)
Definition type_of (text t : string) : Prop :=
  ((forall tok, first_group text tok -> t = tok) /\
   (no_group text -> t = "external"))%type.

(** The rows of a table taken two by two: a title row with the content
    row that follows it, if any. *)
Fixpoint pairs {A} (rows : list A) : list (A * option A) :=
  match rows with
  | [] => []
  | [t] => [(t, None)]
  | t :: c :: rest => (t, Some c) :: pairs rest
  end.

(** The review part of a pair of rows: the trimmed texts; no title where
    the title row has no text, no content where the content row is
    missing. *)
Definition part_of_pair (pair : Dom.node * option Dom.node) : Main.Part.t :=
  {| Main.Part.title :=
       if String.eqb (text (fst pair)) "" then None
       else Some (Str.trim (text (fst pair)));
     Main.Part.content :=
       match snd pair with
       | Some c => Some (Str.trim (text c))
       | None => None
       end |}.

(** The title of [p] is the empty string. *)
Definition empty_title (p : Main.Part.t) : bool :=
  match Main.Part.title p with
  | Some t => String.eqb t ""
  | None => false
  end.

(** A bound of a scale as the pattern admits it: a digit, or a digit, a
    point and a digit. *)
Definition scale_numeral (x : string) : Prop :=
  ((exists d, x = String d "" /\ Str.is_digit d = true) \/
   (exists d d', x = String d (String "." (String d' "")) /\
                 Str.is_digit d = true /\ Str.is_digit d' = true))%type.

(** [n] lies between the numbers [lo] and [hi]. *)
Definition within (lo hi : Q) (n : Num.number) : Prop :=
  (Num.le (Num.number_for lo) n /\ Num.le n (Num.number_for hi))%type.

(** [scale] is read from an occurrence of "scale is x..y" in [text]: its
    bounds are the numbers [x] and [y] denote, each from 0 to 9.9, in the
    order the text has them. *)
Definition scale_read (text : string) (scale : Num.number * Num.number) : Prop :=
  exists pre x y post,
    text = (pre ++ "scale is " ++ x ++ ".." ++ y ++ post)%string /\
    scale_numeral x /\ scale_numeral y /\
    scale = (Num.unary_plus x, Num.unary_plus y) /\
    within 0 (99 # 10) (fst scale) /\ within 0 (99 # 10) (snd scale).

(** The lower bound of a scale does not exceed the upper bound. *)
Definition ascending (scale : Num.number * Num.number) : Prop :=
  Num.le (fst scale) (snd scale).

(** [n] is the number the page at [address] shows: the numeric value of
    the bold text of its reviewer cell. *)
Definition number_on_page (w : world) (address : string) (n : Num.number) : Prop :=
  exists page body reviewerTd b,
    goto w address = Fulfilled page /\
    hd_error (Dom.select (Dom.tag "body") page) = Some body /\
    Main.cell (Main.infoCells body) 0 = Some reviewerTd /\
    Dom.querySelector (Dom.tag "b") reviewerTd = Some b /\
    n = Num.unary_plus (text b).

(** The reviews [reviews] come from the links [links], one for one and in
    their order, each with the number its own page shows. *)
Definition numbers_from_pages (w : world) (links : list Main.reviewLink)
           (reviews : list Main.Review.t) : Prop :=
  (List.length reviews = List.length links /\
   forall i l, nth_error links i = Some l ->
               exists r, nth_error reviews i = Some r /\
                         Main.Review.isUser r = Main.isUser l /\
                         number_on_page w (Main.address l)
                                        (Main.Review.number (Main.Review.result r)))%type.

(** No two of the links lead to pages that show the same number. *)
Definition distinct_on_pages (w : world) (links : list Main.reviewLink) : Prop :=
  forall i j l l' n,
    i <> j -> nth_error links i = Some l -> nth_error links j = Some l' ->
    number_on_page w (Main.address l) n -> ~ number_on_page w (Main.address l') n.

Definition numbers (reviews : list Main.Review.t) : list Num.number :=
  map (fun r => Main.Review.number (Main.Review.result r)) reviews.

(** [n] is a [t] element. *)
Definition tagged (t : string) (n : Dom.node) : bool :=
  String.eqb (Dom.tagName (Dom.node_elem n)) t.

(** The element just before [n] among its siblings is an [h1]. *)
Definition follows_h1 (n : Dom.node) : bool :=
  match Dom.before (Dom.self n) with
  | e :: _ => String.eqb (Dom.tagName e) "h1"
  | [] => false
  end.

(** [n] lies in a table that lies in a block quote that follows an [h1]. *)
Definition in_listing_table (n : Dom.node) : bool :=
  existsb (fun t => tagged "table" t &&
                    existsb (fun b => tagged "blockquote" b && follows_h1 b)
                            (Dom.chain (Dom.ancestors t)))
          (Dom.chain (Dom.ancestors n)).

(** A row the listing takes: a [tr] in the table of a listing with three
    elements or more before it in its own parent. *)
Definition listing_row (n : Dom.node) : bool :=
  tagged "tr" n && (3 <=? List.length (Dom.before (Dom.self n)))%nat && in_listing_table n.


(** A table row that holds no table row of its own. *)
Definition plain_row (r : Dom.element) : bool :=
  String.eqb (Dom.tagName r) "tr" &&
  forallb (fun e => negb (String.eqb (Dom.tagName e) "tr")) (Dom.inside r).

(** *** StringNumericLiteral, the numerals [StringToNumber] accepts *)

Definition between (lo hi c : ascii) : bool :=
  (nat_of_ascii lo <=? nat_of_ascii c)%nat && (nat_of_ascii c <=? nat_of_ascii hi)%nat.

Definition is_hex (c : ascii) : bool :=
  between "0" "9" c || between "a" "f" c || between "A" "F" c.
Definition is_octal (c : ascii) : bool := between "0" "7" c.
Definition is_binary (c : ascii) : bool := between "0" "1" c.

Definition is_sign (sg : string) : Prop :=
  (sg = "" \/ sg = "+" \/ sg = "-")%type.

Definition optional (P : string -> Prop) (s : string) : Prop :=
  (s = "" \/ P s)%type.

(** DecimalDigits *)
Definition decimal_digits (s : string) : Prop :=
  (s <> "" /\ Str.all Str.is_digit s = true)%type.

(** ExponentPart *)
Definition exponent_part (e : string) : Prop :=
  exists c sg ds,
    e = String c (sg ++ ds)%string /\ (c = "e" \/ c = "E")%char /\
    is_sign sg /\ decimal_digits ds.

(** StrUnsignedDecimalLiteral, [Infinity] apart *)
Definition unsigned_decimal (u : string) : Prop :=
  ((exists i f e, u = (i ++ "." ++ f ++ e)%string /\ decimal_digits i /\
                  optional decimal_digits f /\ optional exponent_part e) \/
   (exists f e, u = ("." ++ f ++ e)%string /\ decimal_digits f /\
                optional exponent_part e) \/
   (exists i e, u = (i ++ e)%string /\ decimal_digits i /\
                optional exponent_part e))%type.

(** StrDecimalLiteral *)
Definition str_decimal (s : string) : Prop :=
  exists sg u, s = (sg ++ u)%string /\ is_sign sg /\
               (u = "Infinity" \/ unsigned_decimal u).

(** NonDecimalIntegerLiteral *)
Definition non_decimal (s : string) : Prop :=
  exists c ds,
    s = String "0" (String c ds) /\ ds <> "" /\
    (((c = "x" \/ c = "X")%char /\ Str.all is_hex ds = true) \/
     ((c = "o" \/ c = "O")%char /\ Str.all is_octal ds = true) \/
     ((c = "b" \/ c = "B")%char /\ Str.all is_binary ds = true)).

(** [x] is a valid numeral: white space around nothing, or around a
    non-decimal integer or a decimal literal. *)
Definition numeral (x : string) : Prop :=
  (Str.trim x = "" \/ non_decimal (Str.trim x) \/ str_decimal (Str.trim x))%type.

(** *** The value of a numeral

    The mathematical value of a StringNumericLiteral: a run of digits
    denotes the sum of its digits weighted by the powers of the base; a
    decimal literal [i.f] with the exponent [x] denotes
    [(i + f / 10 ^ |f|) * 10 ^ x]. *)

Definition digit_value (c : ascii) : Z :=
  let n := Z.of_nat (nat_of_ascii c) in
  if between "0" "9" c then (n - 48)%Z
  else if between "a" "f" c then (n - 87)%Z
  else (n - 55)%Z.

Fixpoint digits_value (base : Z) (s : string) : Z :=
  match s with
  | String c s' =>
      (digit_value c * base ^ Z.of_nat (String.length s') + digits_value base s')%Z
  | EmptyString => 0%Z
  end.

(** The exponent part [e], or its absence, denotes [x]. *)
Definition exponent_value (e : string) (x : Z) : Prop :=
  ((e = "" /\ x = 0%Z) \/
   exists c sg ds,
     e = String c (sg ++ ds)%string /\ (c = "e" \/ c = "E")%char /\ decimal_digits ds /\
     (((sg = "" \/ sg = "+") /\ x = digits_value 10 ds) \/
      (sg = "-" /\ x = (- digits_value 10 ds)%Z)))%type.

(** StrUnsignedDecimalLiteral, [Infinity] apart, denotes [q]. *)
Definition unsigned_value (u : string) (q : Q) : Prop :=
  ((exists i f e x,
       u = (i ++ "." ++ f ++ e)%string /\ decimal_digits i /\
       optional decimal_digits f /\ exponent_value e x /\
       (q == (inject_Z (digits_value 10 i)
              + inject_Z (digits_value 10 f) * Qpower 10 (- Z.of_nat (String.length f)))
             * Qpower 10 x)%Q) \/
   (exists f e x,
       u = ("." ++ f ++ e)%string /\ decimal_digits f /\ exponent_value e x /\
       (q == inject_Z (digits_value 10 f) * Qpower 10 (- Z.of_nat (String.length f))
             * Qpower 10 x)%Q) \/
   (exists i e x,
       u = (i ++ e)%string /\ decimal_digits i /\ exponent_value e x /\
       (q == inject_Z (digits_value 10 i) * Qpower 10 x)%Q))%type.

(** The numeral [t], white space stripped and not infinite, denotes [q]. *)
Definition denotes (t : string) (q : Q) : Prop :=
  ((t = "" /\ (q == 0)%Q) \/
   (exists c ds,
       t = String "0" (String c ds) /\ ds <> "" /\
       (((c = "x" \/ c = "X")%char /\ Str.all is_hex ds = true /\
         (q == inject_Z (digits_value 16 ds))%Q) \/
        ((c = "o" \/ c = "O")%char /\ Str.all is_octal ds = true /\
         (q == inject_Z (digits_value 8 ds))%Q) \/
        ((c = "b" \/ c = "B")%char /\ Str.all is_binary ds = true /\
         (q == inject_Z (digits_value 2 ds))%Q))) \/
   (exists sg u v,
       t = (sg ++ u)%string /\ unsigned_value u v /\
       (((sg = "" \/ sg = "+") /\ (q == v)%Q) \/ (sg = "-" /\ (q == - v)%Q))))%type.

(** *** The number a value rounds to

    A Number is a binary64 double, [m * 2 ^ e] with [|m| < 2 ^ 53] and
    [e] from -1074 to 971.  The Number for [q] is the double nearest to
    [q]; of two doubles as near, the one whose significand is even; and
    an infinity when [q] is as far from zero as the point half way
    between the largest double and [2 ^ 1024]. *)

Definition representable (v : Q) : Prop :=
  exists m e : Z,
    (Z.abs m < 2 ^ 53)%Z /\ (-1074 <= e <= 971)%Z /\ (v == inject_Z m * Qpower 2 e)%Q.

(** The significand of [v] is even: [v] is [m * 2 ^ e] with [m] even
    and of 53 bits, or of fewer with the least exponent. *)
Definition even_significand (v : Q) : Prop :=
  exists m e : Z,
    Z.even m = true /\ (v == inject_Z m * Qpower 2 e)%Q /\
    (((2 ^ 52 <= Z.abs m < 2 ^ 53)%Z /\ (-1074 <= e)%Z) \/
     ((Z.abs m < 2 ^ 52)%Z /\ e = (-1074)%Z)).

Definition halfway : Q := (Qpower 2 1024 - Qpower 2 970)%Q.

Definition nearest (q v : Q) : Prop :=
  representable v /\
  (forall v', representable v' -> (Qabs (v - q) <= Qabs (v' - q))%Q) /\
  (forall v', representable v' -> ~ (v' == v)%Q -> (Qabs (v' - q) == Qabs (v - q))%Q ->
              even_significand v).

Definition number_of (q : Q) (n : Num.number) : Prop :=
  match n with
  | Num.NaN => False
  | Num.Infinity negative => (halfway <= Qabs q)%Q /\ (negative = true <-> (q < 0)%Q)
  | Num.Fin v => (Qabs q < halfway)%Q /\ nearest q v
  end.

(** [n] is the number [+x]: [NaN] when [x] is no numeral, an infinity
    when [x] reads [Infinity], else the number for the value of [x]. *)
Definition plus (x : string) (n : Num.number) : Prop :=
  ((~ numeral x /\ n = Num.NaN) \/
   (exists sg, Str.trim x = (sg ++ "Infinity")%string /\ is_sign sg /\
               n = Num.Infinity (String.eqb sg "-")) \/
   (exists q, denotes (Str.trim x) q /\ number_of q n))%type.

(** Each of [n] launched operations settles at some point of [order]. *)
Definition all_settle (n : nat) (order : list nat) : Prop :=
  incl (seq 0 n) order.

End Spec.

(** ** Invariants and auxiliary functions of the proofs *)

Module Aux.
Import Js.

(** The token of a parenthesized group that starts [s]. *)
Definition token_here (s : string) : option string :=
  match s with
  | String "(" s1 =>
      let (tok, rest) := Str.span RegExp.not_rparen s1 in
      if Str.is_empty tok then None
      else match rest with
           | String ")" _ => Some tok
           | _ => None
           end
  | _ => None
  end.

(** The nodes of the sibling rows [rows] under [anc], after [bef]. *)
Fixpoint row_nodes (anc : list Dom.frame) (bef rows : list Dom.element) : list Dom.node :=
  match rows with
  | [] => []
  | r :: rows' =>
      {| Dom.self := {| Dom.elem := r; Dom.before := bef |}; Dom.ancestors := anc |}
      :: row_nodes anc (r :: bef) rows'
  end.

(** The table of a listing: 'h1 + blockquote table', the selector of the
    rows without its last step. *)
Definition listing_table : Dom.selector :=
  Dom.Comb (Dom.Comb (Dom.Sel [Dom.Tag "h1"]) Dom.Adjacent [Dom.Tag "blockquote"])
           Dom.Descendant [Dom.Tag "table"].

(** Two optional nodes with the same element. *)
Definition same_elem (x y : option Dom.node) : Prop :=
  option_map Dom.node_elem x = option_map Dom.node_elem y.

(** [c] is a digit of [base]. *)
Definition in_base (base : Z) (c : ascii) : bool :=
  match Num.digit_of c with
  | Some d => (d <? base)%Z
  | None => false
  end.

Section All.
Variable A : Type.
Variable tasks : list (outcome A).

(** What holds of the state of [Promise.all] after the promises of [seen]
    have settled. *)
Record all_inv (seen : list nat) (st : all_state A) : Prop := {
  inv_length : List.length (values st) = List.length tasks;
  inv_value : forall i v, nth_error (values st) i = Some (Some v) ->
                          nth_error tasks i = Some (Fulfilled v) /\ In i seen;
  inv_count : remaining st + List.length (filled (values st)) = List.length tasks;
  inv_done : forall rs, settled st = Fulfilled rs -> values st = map Some rs;
  inv_pending : settled st = Pending -> 0 < remaining st
}.

(** While [Promise.all] is pending, the slot of every promise that has
    settled is filled. *)
Definition all_filled (seen : list nat) (st : all_state A) : Prop :=
  (forall e, settled st <> Rejected e) /\
  (settled st = Pending ->
   forall i, In i seen -> i < List.length tasks ->
             exists v, nth_error (values st) i = Some (Some v)).

End All.

End Aux.

(** ** [src/index.js], lines 462-593: the rest of the revision with awards *)

Module AwardRun.
Import Js Env Shared.

Definition review_json (r : Award.Review.t) : Json.json :=
  Json.JObj
    [ ("isUser", Json.JBool (Award.Review.isUser r));
      ("number", Json.of_number (Award.Review.number (Award.Review.result r)));
      ("rating", Json.of_number (Award.Review.rating (Award.Review.result r)));
      ("reviewerExpertise",
       Json.of_number (Award.Review.reviewerExpertise (Award.Review.result r)));
      ("reviewerType", Json.JStr (Award.Review.reviewerType (Award.Review.result r))) ].

Module Submission.
(** [Object.assign({}, sub, { reviews })] *)
Record t : Type := { sub : Award.Submission.row; reviews : list Award.Review.t }.

Definition to_json (s : t) : Json.json :=
  Json.JObj ([ ("id", Json.JStr (Award.Submission.id (sub s)));
               ("title", Json.JStr (Award.Submission.title (sub s)));
               ("submissionAddress", Json.JStr (Award.Submission.submissionAddress (sub s)));
               ("reviewsAddress", Json.JStr (Award.Submission.reviewsAddress (sub s)));
               ("reviewStatus", Json.JStr (Award.Submission.reviewStatus (sub s)));
               ("award", Json.JStr (Award.Submission.award (sub s))) ]
             ++ Json.optional "coordinator" Json.JStr (Award.Submission.coordinator (sub s))
             ++ [ ("reviews", Json.JArr (map review_json (reviews s))) ]).
End Submission.

Module CategoryData.
(** [Object.assign({}, cat, { submissions })] *)
Record t : Type := { cat : Category.link; submissions : list Submission.t }.

Definition to_json (c : t) : Json.json :=
  Json.JObj [ ("name", Json.JStr (Category.name (cat c)));
              ("address", Json.JStr (Category.address (cat c)));
              ("submissions", Json.JArr (map Submission.to_json (submissions c))) ].
End CategoryData.

(** [scrapeSubmissionReviews(browser, submissionPageAddress)], lines 469-490 *)
Definition scrapeSubmissionReviews (w : world) (order : list nat)
           (submissionPageAddress : string) : outcome (list Award.Review.t) :=
  bind (goto w submissionPageAddress) (fun submissionPage =>
  bind (Main.reviewAddresses submissionPage) (fun reviewAddresses =>
  Promise_all order
    (map (fun review =>
            Award.scrapeSubmissionReview w (Main.address review) (Main.isUser review))
         reviewAddresses))).

(** [catPage.$$eval('h1 + blockquote table tr:nth-child(n + 4)', trs => ...)] *)
Definition submissionRows (catPage : Dom.document) : outcome (list Award.Submission.row) :=
  eval_all Dom.submission_rows (traverse Award.submissionOfRow) catPage.

(** [async sub => Object.assign({}, sub, { reviews: await ... })] *)
Definition withReviews (w : world) (s : schedule) (i : nat) (sub : Award.Submission.row)
  : outcome Submission.t :=
  bind (scrapeSubmissionReviews w (order_of (inner_of s i))
                                (Award.Submission.reviewsAddress sub))
       (fun reviews => Fulfilled {| Submission.sub := sub; Submission.reviews := reviews |}).

(** [scrapeSubmissions(browser, submissionsPageAddress)], lines 500-535 *)
Definition scrapeSubmissions (w : world) (s : schedule) (submissionsPageAddress : string)
  : outcome (list Submission.t) :=
  bind (goto w submissionsPageAddress) (fun catPage =>
  bind (submissionRows catPage) (fun submissions =>
  Promise_all (order_of s) (mapi (withReviews w s) submissions))).

(** [async cat => Object.assign({}, cat, { submissions: await ... })] *)
Definition withSubmissions (w : world) (s : schedule) (i : nat) (cat : Category.link)
  : outcome CategoryData.t :=
  bind (scrapeSubmissions w (inner_of s i) (Category.address cat))
       (fun submissions =>
          Fulfilled {| CategoryData.cat := cat; CategoryData.submissions := submissions |}).

Definition document (w : world) (creds : credentials) (categoriesData : list CategoryData.t)
  : Json.json :=
  envelope w creds "categories" (map CategoryData.to_json categoriesData).

(** The top-level async function, lines 537-590 *)
Definition main (w : world) (s : schedule) : prog unit :=
  then_ (discover w "Scrape reviews...") (fun '(creds, categories) =>
  then_ (await (Promise_all (order_of s) (mapi (withSubmissions w s) categories)))
        (fun categoriesData =>
  finish w (document w creds categoriesData))).

(** [(async () => { ... })().catch(e => { log.error(e); process.exit(0); })] *)
Definition run (w : world) (s : schedule) : ending := catch_exit (main w s).

End AwardRun.

(** ** [src/index.js], lines 1-131: the first revision, through element handles

    Every element is read through its own round trips to the browser, so
    the categories of the landing page and the rows of a listing are
    fanned out with [Promise.all] too; the run writes the bare array of
    categories. *)

Module First.
Import Js Env Shared.

(** The async callback of [links.map], lines 43-54:
    [row = await link.getProperty('parentNode')
             .then(linkTd => linkTd.getProperty('parentNode'))], then
    [name: await row.$('td').then(el => el.getProperty('innerText'))
             .then(prop => prop.jsonValue())] and
    [address: await link.getProperty('href').then(prop => prop.jsonValue())]. *)
Definition categoryOfLink (link : Dom.node) : outcome Category.link :=
  bind (bind (Handle.getParentNode (Some link)) Handle.getParentNode) (fun row =>
  bind (bind (Handle.query (Dom.tag "td") row) (Handle.jsonValueOf text)) (fun name =>
  bind (Handle.jsonValueOf href (Some link)) (fun address =>
  Fulfilled {| Category.name := name; Category.address := address |}))).

(** [fetchSubmissionCategories(mainReviewsPage)], lines 37-56:
    [links = await mainReviewsPage.$$('h1 + div table td a')], then
    [Promise.all(links.map(...))]; [order] is the order in which the
    links complete. *)
Definition fetchSubmissionCategories (order : list nat) (mainReviewsPage : Dom.document)
  : outcome (list Category.link) :=
  let links := Dom.select Dom.category_links mainReviewsPage in
  Promise_all order (map categoryOfLink links).

(** The async callback of [submissionTrList.map], lines 68-81:
    [tds = await tr.$$('td')], then
    [id: await tds[6].getProperty('innerText').then(prop => prop.jsonValue())],
    [title: await tds[8].$('a').then(a => a.getProperty('title'))
              .then(prop => prop.jsonValue())] and
    [address: await tds[12].$('a').then(a => a.getProperty('href'))
                .then(prop => prop.jsonValue())]. *)
Definition submissionOfRow (tr : Dom.node) : outcome Listing.Submission.t :=
  let tds := Dom.querySelectorAll (Dom.tag "td") tr in
  bind (Handle.jsonValueOf text (nth_error tds 6)) (fun id =>
  bind (bind (Handle.query_of (Dom.tag "a") (nth_error tds 8)) (Handle.jsonValueOf title))
       (fun title =>
  bind (bind (Handle.query_of (Dom.tag "a") (nth_error tds 12)) (Handle.jsonValueOf href))
       (fun address =>
  Fulfilled {| Listing.Submission.id := id; Listing.Submission.title := title;
               Listing.Submission.address := address |}))).

(** [fetchSubmissionList(submissionsPage)], lines 64-83; [order] is the
    order in which the rows complete. *)
Definition fetchSubmissionList (order : list nat) (submissionsPage : Dom.document)
  : outcome (list Listing.Submission.t) :=
  let submissionTrList := Dom.select Dom.submission_rows submissionsPage in
  Promise_all order (map submissionOfRow submissionTrList).

(** The async callback of [categories.map], lines 112-119. *)
Definition categoryData (w : world) (s : schedule) (i : nat) (cat : Category.link)
  : outcome Listing.CategoryData.t :=
  bind (goto w (Category.address cat)) (fun catPage =>
  bind (fetchSubmissionList (order_of (inner_of s i)) catPage) (fun submissions =>
  Fulfilled {| Listing.CategoryData.cat := cat;
               Listing.CategoryData.submissions := submissions |})).

(** [JSON.stringify(data, null, 2)]: the array itself, without envelope. *)
Definition document (data : list Listing.CategoryData.t) : Json.json :=
  Json.JArr (map Listing.CategoryData.to_json data).

(** The top-level async function, lines 85-128; [links] is the order in
    which the category links complete, [s] gives the order of the
    categories and, for each, the order of its rows. *)
Definition main (w : world) (links : list nat) (s : schedule) : prog unit :=
  then_ (await (launch w)) (fun _ =>
  then_ (log_info "Loading precisionconference.com/~sigchi...") (fun _ =>
  then_ (await (goto w ENTRY)) (fun page =>
  then_ (await (readCredentials w)) (fun creds =>
  then_ (log_info ("Logging as " ++ username creds ++ ".")) (fun _ =>
  then_ (await (logIn w page (username creds) (password creds))) (fun home =>
  then_ (log_info "Look for reviews...") (fun _ =>
  then_ (await (fetchSubmissionCategories links home)) (fun categories =>
  then_ (log_info (found_message (map Category.name categories))) (fun _ =>
  then_ (log_info "Scrap reviews...") (fun _ =>
  then_ (await (Promise_all (order_of s) (mapi (categoryData w s) categories)))
        (fun data =>
  finish w (document data)))))))))))).

(** [(async () => { ... })().catch(e => { log.error(e); process.exit(0); })] *)
Definition run (w : world) (links : list nat) (s : schedule) : ending :=
  catch_exit (main w links s).

End First.

(** ** Notions of the further properties *)

Module Behaviour.
Import Js Env.

(** The error of the first promise of [tasks], in the order [order] in
    which they settle, that is rejected. *)
Fixpoint first_rejected {A} (tasks : list (outcome A)) (order : list nat) : option error :=
  match order with
  | [] => None
  | i :: order' =>
      match nth_error tasks i with
      | Some (Rejected e) => Some e
      | _ => first_rejected tasks order'
      end
  end.

(** [sub] occurs in [s]. *)
Definition occurs (sub s : string) : Prop :=
  exists pre post, s = (pre ++ sub ++ post)%string.

(** "scale is x..y" occurs in [text], [x] and [y] each a digit with at
    most one decimal digit. *)
Definition scale_occurs (text : string) : Prop :=
  exists pre x y post,
    text = (pre ++ "scale is " ++ x ++ ".." ++ y ++ post)%string /\
    Spec.scale_numeral x /\ Spec.scale_numeral y.

(** [rest] does not go on with a decimal digit: a point and a digit. *)
Definition no_fraction (rest : string) : bool :=
  match rest with
  | String "." (String d _) => negb (Str.is_digit d)
  | _ => true
  end.



(** The last character of [s]. *)
Fixpoint last_char (s : string) : option ascii :=
  match s with
  | EmptyString => None
  | String c EmptyString => Some c
  | String _ s' => last_char s'
  end.

(** [s] neither begins nor ends with white space. *)
Definition tidy (s : string) : Prop :=
  (match s with String c _ => Str.is_ws c = false | EmptyString => True end /\
   match last_char s with Some c => Str.is_ws c = false | None => True end)%type.

Definition tidy_opt (s : option string) : Prop :=
  match s with Some x => tidy x | None => True end.

(** The lines a complete run logs, for the user [user] and the categories
    named [names]; [scrape] is the line before the fan-out. *)
Definition lines (user : string) (names : list string) (scrape : string) : list string :=
  [ "Loading precisionconference.com/~sigchi...";
    ("Logging as " ++ user ++ ".")%string;
    "Look for reviews...";
    found_message names;
    scrape;
    "Data written in reviews.json." ].

(** What a run, ended as [r], has written: nothing unless it is through
    with everything but closing the browser, and then the one output
    file; its outcome is then that of closing the browser. *)
Definition written_last (w : world) (r : effects * outcome unit) : Prop :=
  ((files (fst r) = [] /\ snd r <> Fulfilled tt) \/
   (exists doc, files (fst r) = [(OUTPUT_FILE, doc)] /\
                writeFile w OUTPUT_FILE doc = Fulfilled tt /\
                snd r = close w))%type.

(** Row [i] of the information table of a review page has a second
    cell, and the cell a [b]. *)
Definition has_bold (body : Dom.node) (i : nat) : Prop :=
  exists td b,
    Main.cell (Main.infoCells body) i = Some td /\
    Dom.querySelector (Dom.tag "b") td = Some b.

End Behaviour.

(** ** More pages, for the further properties *)

Module Sites.
Import Dom Pages.

(** A landing page without any category. *)
Definition empty_home : document :=
  page [el "h1" "My reviews" []; el "div" "" [el "table" "" [el "tbody" "" []]]].

Definition idle : Env.world :=
  {| Env.pkg := {| Env.pkg_name := "pcs-scrapper"; Env.pkg_version := "1.0.0" |};
     Env.launch := Js.Fulfilled tt;
     Env.goto := Scenario.site;
     Env.readCredentials :=
       Js.Fulfilled {| Env.username := "jane"; Env.password := "secret" |};
     Env.clickOn := fun _ => Js.Fulfilled tt;
     Env.keyboardType := fun _ => Js.Fulfilled tt;
     Env.keyboardPress := fun _ => Js.Fulfilled tt;
     Env.waitForNavigation := fun _ _ => Js.Fulfilled empty_home;
     Env.now := "2019-01-01T00:00:00.000Z";
     Env.writeFile := fun _ _ => Js.Fulfilled tt;
     Env.close := Js.Fulfilled tt |}.

(** A listing whose second submission row lacks its last cells. *)
Definition short_row : element :=
  el "tr" "" [td "Done"; td ""; td ""; td ""; td ""; td ""; td "125"].

Definition torn_rows : list element :=
  [header_row; header_row; header_row;
   submission_row "Done" "" "123" "Paper X" "/sub/123" "/rev/123" "Jane Doe (coordinator)";
   short_row].

(** The busy site with the page of the second review missing. *)
Definition broken : Env.world :=
  {| Env.pkg := Env.pkg Scenario.busy;
     Env.launch := Js.Fulfilled tt;
     Env.goto := fun address =>
       if String.eqb address "/rev/123/2" then Js.Rejected (Js.Error "net::ERR_ABORTED")
       else Scenario.busy_site address;
     Env.readCredentials := Env.readCredentials Scenario.busy;
     Env.clickOn := fun _ => Js.Fulfilled tt;
     Env.keyboardType := fun _ => Js.Fulfilled tt;
     Env.keyboardPress := fun _ => Js.Fulfilled tt;
     Env.waitForNavigation := Env.waitForNavigation Scenario.busy;
     Env.now := Env.now Scenario.busy;
     Env.writeFile := Env.writeFile Scenario.busy;
     Env.close := Js.Fulfilled tt |}.

(** A submission row with the id and the title [id]. *)
Definition data_row (id : string) : element :=
  submission_row "Done" "" id id "/sub" "/rev" "".



(** A listing of three rows that hold no more than three rows each. *)
Definition three_rows : document :=
  listing_page
    [header_row; data_row "1";
     el "tr" "" [el "td" "" [el "table" "" [el "tbody" "" [data_row "2"; data_row "3"]]]]].

(** A landing page whose link is wrapped in a [b] inside its cell. *)
Definition wrapped_home : document :=
  page [el "h1" "My reviews" [];
        el "div" ""
          [el "table" ""
             [el "tbody" ""
                [el "tr" "" [el "td" "CHI 2020" [el "b" "" [a "CHI 2020" "" "/cat/1"]]]]]]].

(** A review page whose rating is blank. *)
Definition blank_review : document :=
  review_page "Reviewer 1 (AC)" "1" "(scale is 1..5)" " " "4" "4" [].

End Sites.

(** ** Pages in the layout the selectors expect

    The landing page, a listing and a review list built from the data
    they show, to state that scraping gives the data back. *)

Module Layout.
Import Dom Pages.

(** The row of a category on the landing page: the name in the first
    cell, which holds the link. *)
Definition category_row (c : Shared.Category.link) : element :=
  el "tr" ""
     [el "td" (Shared.Category.name c)
         [a (Shared.Category.name c) "" (Shared.Category.address c)];
      td ""].

Definition home (categories : list Shared.Category.link) : document :=
  page [el "h1" "My reviews" [];
        el "div" "" [el "table" "" [el "tbody" "" (map category_row categories)]]].

(** What a row of a listing shows. *)
Record cells : Type := {
  status : string;
  award : string;
  id : string;
  title : string;
  submission : string;
  reviews : string;
  coordinator : string
}.

Definition row_of (c : cells) : element :=
  submission_row (status c) (award c) (id c) (title c) (submission c) (reviews c)
                 (coordinator c).

Definition listing (headers : list element) (rows : list cells) : document :=
  listing_page (headers ++ map row_of rows).

Definition listing_row (c : cells) : Listing.Submission.t :=
  {| Listing.Submission.id := id c;
     Listing.Submission.title := title c;
     Listing.Submission.address := reviews c |}.

Definition main_row (c : cells) : Main.Submission.row :=
  {| Main.Submission.id := id c;
     Main.Submission.title := title c;
     Main.Submission.submissionAddress := submission c;
     Main.Submission.reviewsAddress := reviews c;
     Main.Submission.reviewStatus := status c;
     Main.Submission.coordinator := Shared.parenthesized (coordinator c) |}.

Definition award_row (c : cells) : Award.Submission.row :=
  {| Award.Submission.id := id c;
     Award.Submission.title := title c;
     Award.Submission.submissionAddress := submission c;
     Award.Submission.reviewsAddress := reviews c;
     Award.Submission.reviewStatus := status c;
     Award.Submission.award := award c;
     Award.Submission.coordinator := Shared.parenthesized (coordinator c) |}.

(** A link of a review list: its text and its address. *)
Definition review_anchor (l : string * string) : element := a (fst l) "" (snd l).

Definition review_links (links : list (string * string)) : document :=
  review_list (map review_anchor links).

Definition review_link (l : string * string) : Main.reviewLink :=
  {| Main.address := snd l; Main.isUser := Str.includes "(you)" (fst l) |}.

(** The rows of the review parts: a title row, then its content row. *)
Definition part_rows (parts : list (string * string)) : list element :=
  flat_map (fun p => [el "tr" (fst p) [td (fst p)]; el "tr" (snd p) [td (snd p)]]) parts.

Definition review (reviewer number rating ratingBold expertise expertiseBold : string)
           (parts : list (string * string)) : document :=
  review_page reviewer number rating ratingBold expertise expertiseBold (part_rows parts).

Definition part_of (p : string * string) : Main.Part.t :=
  {| Main.Part.title := if Str.is_empty (fst p) then None else Some (Str.trim (fst p));
     Main.Part.content := Some (Str.trim (snd p)) |}.

(** 'h1 + div table',
    '#wrap > h1:nth-of-type(2) + blockquote table' and
    'table:nth-of-type(3) > tbody' *)
Definition home_table : selector :=
  Comb (Comb (Sel [Tag "h1"]) Adjacent [Tag "div"]) Descendant [Tag "table"].
Definition review_table : selector :=
  Comb (Comb (Comb (Sel [Id "wrap"]) Child [Tag "h1"; NthOfType 2])
             Adjacent [Tag "blockquote"])
       Descendant [Tag "table"].
Definition parts_body : selector :=
  Comb (Sel [Tag "table"; NthOfType 3]) Child [Tag "tbody"].

End Layout.

(** * Properties *)

Unset Implicit Arguments.

Example ToNumber_rounds :
  Num.ToNumber "0.1" = Num.Fin (3602879701896397 # 36028797018963968) /\
  Num.ToNumber "9007199254740993" = Num.of_Z 9007199254740992 /\
  Num.ToNumber "9007199254740995" = Num.of_Z 9007199254740996 /\
  Num.ToNumber "1e400" = Num.Infinity false /\
  Num.ToNumber "-1e400" = Num.Infinity true /\
  Num.ToNumber "1.7976931348623159e308" = Num.Infinity false /\
  Num.ToNumber "1e-400" = Num.of_Z 0 /\
  Num.ToNumber "0x20000000000001" = Num.of_Z 9007199254740992.
Proof. repeat split; vm_compute; reflexivity. Qed.

Example ToNumber_examples :
  Num.ToNumber "3" = Num.of_Z 3 /\ Num.ToNumber " 4.5 " = Num.Fin (9 # 2) /\
  Num.ToNumber "" = Num.of_Z 0 /\ Num.ToNumber "0x1F" = Num.of_Z 31 /\
  Num.ToNumber "1e3" = Num.of_Z 1000 /\ Num.ToNumber "-.5" = Num.Fin (-1 # 2) /\
  Num.ToNumber "N/A" = Num.NaN /\ Num.ToNumber "1e" = Num.NaN /\
  Num.ToNumber "." = Num.NaN /\ Num.ToNumber "3 stars" = Num.NaN /\
  Num.ToNumber "-Infinity" = Num.Infinity true /\ Num.ToNumber "5." = Num.of_Z 5 /\
  Num.ToNumber "-0x10" = Num.NaN /\ Num.ToNumber "2.50" = Num.Fin (5 # 2).
Proof. repeat split; reflexivity. Qed.

(** The review of the scenario of the specification. *)
Example scenario_review :
  Main.scrapeSubmissionReview Scenario.world "/rev/123/1" true
  = Js.Fulfilled
      {| Main.Review.isUser := true;
         Main.Review.result :=
           {| Main.Review.number := Num.of_Z 1;
              Main.Review.rating := Num.of_Z 3;
              Main.Review.ratingScale := Some (Num.of_Z 1, Num.of_Z 5);
              Main.Review.reviewerExpertise := Num.of_Z 4;
              Main.Review.expertiseScale := None;
              Main.Review.reviewerType := "AC";
              Main.Review.reviewParts := [] |} |}.
Proof. reflexivity. Qed.

Example paren_jane :
  option_map (RegExp.group 1) (RegExp.exec RegExp.paren_re "Jane Doe (coordinator)")
  = Some (Some "coordinator").
Proof. reflexivity. Qed.

Example scale_ex :
  RegExp.exec RegExp.scale_re "3 (scale is 1..5.5)" = Some [(0, "scale is 1..5.5"); (2, "5.5"); (1, "1")].
Proof. reflexivity. Qed.

(** ** The envelope and the exit status *)

Section Runs.
Import Js Env Shared.

Lemma discover_files w scrap fx0 fx o :
  discover w scrap fx0 = (fx, o) ->
  files fx = files fx0 /\
  forall creds cats, o = Fulfilled (creds, cats) -> readCredentials w = Fulfilled creds.
Proof.
  unfold discover, then_, await, log_info, ret.
  destruct (launch w); [ | intros [= <- <-]; split; [reflexivity | discriminate] .. ].
  simpl.
  destruct (goto w ENTRY); [ | intros [= <- <-]; split; [reflexivity | discriminate] .. ].
  destruct (readCredentials w) as [c | |];
    [ | intros [= <- <-]; split; [reflexivity | discriminate] .. ].
  simpl.
  destruct (logIn w a0 (username c) (password c));
    [ | intros [= <- <-]; split; [reflexivity | discriminate] .. ].
  simpl.
  destruct (scrapeSubmissionCategories a1);
    [ | intros [= <- <-]; split; [reflexivity | discriminate] .. ].
  simpl. intros [= <- <-]. split; [reflexivity | ].
  now intros creds cats [= <- _].
Qed.

Lemma finish_files w doc fx0 fx :
  finish w doc fx0 = (fx, Fulfilled tt) ->
  files fx = files fx0 ++ [(OUTPUT_FILE, doc)].
Proof.
  unfold finish, then_, write, log_info, await.
  destruct (writeFile w OUTPUT_FILE doc); try discriminate.
  simpl. now intros [= <- _].
Qed.

End Runs.

(** C3, as the specification words it, fails: the document the scenario
    run writes has no field [scrapperName]; the tool name is under
    [scrapper]. *)
Lemma envelope_has_no_scrapperName :
  exists fx doc,
    Main.main Scenario.world Scenario.orders Env.start = (fx, Js.Fulfilled tt) /\
    Env.files fx = [(Env.OUTPUT_FILE, doc)] /\
    Json.field "scrapperName" doc = None /\
    Json.field "scrapper" doc = Some (Json.JStr "pcs-scrapper").
Proof.
  eexists. eexists. split; [vm_compute; reflexivity | ].
  split; [reflexivity | split; reflexivity].
Qed.

(** C3, amended: every successful run writes one document, whose envelope
    holds the tool name under [scrapper], then [version], [username],
    [date] and the array of categories, which [main] of [index.js] names
    [reviewCategories] and [part_000] names [categories]. *)
Theorem envelope_of_successful_run (w : Env.world) :
  (forall s fx, Main.main w s Env.start = (fx, Js.Fulfilled tt) ->
                Spec.envelope_written w "reviewCategories" fx) /\
  (forall order fx, Listing.main w order Env.start = (fx, Js.Fulfilled tt) ->
                    Spec.envelope_written w "categories" fx).
Proof.
  split.
  - intros s fx. unfold Main.main, Env.then_ at 1.
    destruct (Shared.discover w _ Env.start) as [fx1 [[creds cats] | e | ]] eqn:D;
      try discriminate.
    apply discover_files in D. destruct D as [F C].
    unfold Env.then_, Env.await.
    destruct (Js.Promise_all _ _) as [data | e | ]; try discriminate.
    intros H. apply finish_files in H.
    exists creds, (map Main.CategoryData.to_json data).
    split; [exact (C creds cats eq_refl) | ]. rewrite H, F. reflexivity.
  - intros order fx. unfold Listing.main, Env.then_ at 1.
    destruct (Shared.discover w _ Env.start) as [fx1 [[creds cats] | e | ]] eqn:D;
      try discriminate.
    apply discover_files in D. destruct D as [F C].
    unfold Env.then_, Env.await.
    destruct (Js.Promise_all _ _) as [data | e | ]; try discriminate.
    intros H. apply finish_files in H.
    exists creds, (map Listing.CategoryData.to_json data).
    split; [exact (C creds cats eq_refl) | ]. rewrite H, F. reflexivity.
Qed.

Lemma envelope_of_successful_run_witness :
  Spec.envelope_written Scenario.world "reviewCategories"
    (Env.trace (Main.run Scenario.world Scenario.orders)) /\
  Spec.envelope_written Scenario.world "categories"
    (Env.trace (Listing.run Scenario.world [0])).
Proof.
  split.
  - apply (proj1 (envelope_of_successful_run Scenario.world) Scenario.orders).
    vm_compute. reflexivity.
  - apply (proj2 (envelope_of_successful_run Scenario.world) [0]).
    vm_compute. reflexivity.
Defined.

(** C4: when an error reaches the top level of a run, the error is logged
    and the process ends with exit status 0. *)
Theorem failed_run_exits_with_zero (w : Env.world) :
  (forall s fx e, Main.main w s Env.start = (fx, Js.Rejected e) ->
                  Main.run w s = {| Env.trace := Env.log_error e fx; Env.exit := Env.Exit 0 |}) /\
  (forall order fx e, Listing.main w order Env.start = (fx, Js.Rejected e) ->
                      Listing.run w order
                      = {| Env.trace := Env.log_error e fx; Env.exit := Env.Exit 0 |}).
Proof.
  split; intros s fx e H.
  - unfold Main.run, Env.catch_exit. now rewrite H.
  - unfold Listing.run, Env.catch_exit. now rewrite H.
Qed.

Lemma failed_run_exits_with_zero_witness :
  Env.exit (Main.run Scenario.offline Scenario.orders) = Env.Exit 0 /\
  Env.exit (Listing.run Scenario.offline [0]) = Env.Exit 0.
Proof.
  split.
  - rewrite (proj1 (failed_run_exits_with_zero Scenario.offline) Scenario.orders
               {| Env.console := [Env.Info "Loading precisionconference.com/~sigchi..."];
                  Env.files := [] |}
               (Js.Error "net::ERR_INTERNET_DISCONNECTED")); reflexivity.
  - rewrite (proj2 (failed_run_exits_with_zero Scenario.offline) [0]
               {| Env.console := [Env.Info "Loading precisionconference.com/~sigchi..."];
                  Env.files := [] |}
               (Js.Error "net::ERR_INTERNET_DISCONNECTED")); reflexivity.
Defined.

(** ** [Promise.all] *)

Section AllFacts.
Import Js.
Variable A : Type.
Variable tasks : list (outcome A).

Implicit Types (vs : list (option A)) (st : all_state A).

Local Abbreviation all_inv := (Aux.all_inv tasks).
Local Abbreviation all_filled := (Aux.all_filled tasks).

Lemma set_at_length i v vs : List.length (set_at i v vs) = List.length vs.
Proof.
  revert vs. induction i as [ | i IH]; intros [ | x vs]; simpl; auto.
Qed.

Lemma set_at_same i v vs :
  i < List.length vs -> nth_error (set_at i v vs) i = Some v.
Proof.
  revert vs. induction i as [ | i IH]; intros [ | x vs]; simpl; try lia; auto.
  intros H. apply IH. lia.
Qed.

Lemma set_at_other i j v vs :
  i <> j -> nth_error (set_at i v vs) j = nth_error vs j.
Proof.
  revert j vs. induction i as [ | i IH]; intros [ | j] [ | x vs] H; simpl; auto;
    try lia.
Qed.

Lemma filled_le vs : List.length (filled vs) <= List.length vs.
Proof.
  induction vs as [ | [v | ] vs IH]; simpl; lia.
Qed.

Lemma filled_set_at i v vs :
  nth_error vs i = Some None ->
  List.length (filled (set_at i (Some v) vs)) = S (List.length (filled vs)).
Proof.
  revert vs. induction i as [ | i IH]; intros [ | x vs]; simpl; try discriminate.
  - now intros [= ->].
  - intros H. destruct x; simpl; rewrite (IH _ H); reflexivity.
Qed.

Lemma filled_all vs :
  List.length (filled vs) = List.length vs -> vs = map Some (filled vs).
Proof.
  induction vs as [ | [v | ] vs IH]; simpl; intros H.
  - reflexivity.
  - f_equal. apply IH. lia.
  - pose proof (filled_le vs). lia.
Qed.

Lemma filled_full vs :
  (forall i, i < List.length vs -> exists v, nth_error vs i = Some (Some v)) ->
  List.length (filled vs) = List.length vs.
Proof.
  induction vs as [ | x vs IH]; simpl; intros H; [reflexivity | ].
  destruct (H 0) as [v E]; [lia | ]. simpl in E. injection E as ->. simpl.
  f_equal. apply IH. intros i Hi. apply (H (S i)). lia.
Qed.

Lemma filled_map_Some (rs : list A) : filled (map Some rs) = rs.
Proof.
  induction rs as [ | r rs IH]; simpl; congruence.
Qed.

Lemma all_inv_start : all_inv [] (all_start A (List.length tasks)).
Proof.
  unfold all_start. split; simpl.
  - apply repeat_length.
  - intros i v H. apply nth_error_In, repeat_spec in H. discriminate.
  - induction (List.length tasks) as [ | n IH]; simpl in *; lia.
  - destruct (List.length tasks); simpl; [ | discriminate].
    now intros rs [= <-].
  - destruct (List.length tasks); simpl; [discriminate | lia].
Qed.

Lemma all_inv_more seen st j : all_inv seen st -> all_inv (j :: seen) st.
Proof.
  intros [L V C D P]. split; auto.
  intros i v H. destruct (V i v H). split; simpl; auto.
Qed.

Lemma all_inv_step seen st j :
  all_inv seen st -> all_inv (j :: seen) (settle_one tasks st j).
Proof.
  intros I. pose proof (all_inv_more _ _ j I) as I'. destruct I as [L V C D P].
  unfold settle_one.
  destruct (settled st) eqn:S; auto.
  destruct (nth_error tasks j) as [[v | e | ] | ] eqn:T; auto.
  - destruct (nth_error (values st) j) as [[v' | ] | ] eqn:N; auto.
    pose proof (filled_set_at _ v _ N) as F.
    pose proof (filled_le (values st)) as Le.
    assert (j < List.length (values st)) as Lt
      by (apply nth_error_Some; congruence).
    assert (List.length (filled (values st)) < List.length (values st)) as Lt'.
    { destruct (Nat.eq_dec (List.length (filled (values st))) (List.length (values st)))
        as [E | E]; [ | lia].
      apply filled_all in E. rewrite E, nth_error_map in N.
      destruct (nth_error (filled (values st)) j); discriminate. }
    split; simpl.
    + now rewrite set_at_length.
    + intros i w H. destruct (Nat.eq_dec j i) as [<- | Ne].
      * rewrite set_at_same in H by assumption. injection H as <-. auto.
      * rewrite set_at_other in H by assumption. destruct (V i w H). auto.
    + rewrite F. lia.
    + destruct (Nat.eqb_spec (remaining st - 1) 0) as [Z | Z]; [ | discriminate].
      intros rs [= <-]. apply filled_all. rewrite set_at_length, F. lia.
    + destruct (Nat.eqb_spec (remaining st - 1) 0) as [Z | Z]; [discriminate | lia].
  - destruct I' as [L' V' C' D' P']. split; simpl; auto; discriminate.
Qed.

Lemma all_inv_fold order seen st :
  all_inv seen st -> all_inv (rev order ++ seen) (fold_left (settle_one tasks) order st).
Proof.
  revert seen st. induction order as [ | j order IH]; intros seen st I; simpl; auto.
  rewrite <- app_assoc. simpl. apply IH. now apply all_inv_step.
Qed.

(** Whenever [Promise.all] is fulfilled, every promise was fulfilled, its
    value stands at its own index, and every promise occurs in the order. *)
Lemma Promise_all_sound order rs :
  Promise_all order tasks = Fulfilled rs ->
  tasks = map (@Fulfilled A) rs /\ incl (seq 0 (List.length tasks)) order.
Proof.
  unfold Promise_all. intros H.
  pose proof (all_inv_fold order _ _ all_inv_start) as [L V C D P].
  rewrite app_nil_r in V. apply D in H. rewrite H in *. clear D P C.
  rewrite length_map in L. split.
  - apply nth_error_ext. intros i. rewrite nth_error_map.
    destruct (nth_error rs i) as [r | ] eqn:E; simpl.
    + apply V. now rewrite nth_error_map, E.
    + apply nth_error_None. apply nth_error_None in E. lia.
  - intros i Hi. apply in_seq in Hi. apply in_rev.
    destruct (nth_error rs i) as [r | ] eqn:E.
    + apply (V i r). now rewrite nth_error_map, E.
    + apply nth_error_None in E. lia.
Qed.

Section Complete.
Variable rs : list A.
Hypothesis fulfilled : tasks = map (@Fulfilled A) rs.

Lemma task_fulfilled j t : nth_error tasks j = Some t -> exists v, t = Fulfilled v.
Proof.
  rewrite fulfilled, nth_error_map.
  destruct (nth_error rs j) as [v | ]; simpl; [ | discriminate].
  intros [= <-]. now exists v.
Qed.

Lemma all_filled_step seen st j :
  all_inv seen st -> all_filled seen st ->
  all_filled (j :: seen) (settle_one tasks st j).
Proof.
  intros [L V C D P] [NR F].
  unfold settle_one.
  destruct (settled st) eqn:S; try (split; [ | simpl; rewrite S; discriminate ]);
    try (intros e; rewrite S; discriminate); try (now specialize (NR e)).
  assert (nth_error (values st) j <> Some None -> all_filled (j :: seen) st) as Keep.
  { intros N. split; [intros e; rewrite S; discriminate | ].
    intros _ i [<- | Hi] Lt; [ | now apply F].
    rewrite <- L in Lt. apply nth_error_Some in Lt.
    destruct (nth_error (values st) j) as [[v | ] | ]; try contradiction.
    now exists v. }
  destruct (nth_error tasks j) as [t | ] eqn:T.
  - destruct (task_fulfilled _ _ T) as [v ->].
    destruct (nth_error (values st) j) as [[v' | ] | ] eqn:N;
      try (apply Keep; discriminate).
    assert (j < List.length (values st)) as Lt
      by (apply nth_error_Some; congruence).
    split; simpl.
    + intros e. destruct (Nat.eqb _ _); discriminate.
    + intros _ i [<- | Hi] Hlt.
      * exists v. now apply set_at_same.
      * destruct (Nat.eq_dec j i) as [<- | Ne].
        -- exists v. now apply set_at_same.
        -- rewrite set_at_other by assumption. now apply F.
  - apply Keep. apply nth_error_None in T. intros N.
    assert (j < List.length (values st)) by (apply nth_error_Some; congruence). lia.
Qed.

Lemma all_filled_fold order seen st :
  all_inv seen st -> all_filled seen st ->
  all_filled (rev order ++ seen) (fold_left (settle_one tasks) order st).
Proof.
  revert seen st. induction order as [ | j order IH]; intros seen st I F; simpl; auto.
  rewrite <- app_assoc. simpl. apply IH.
  - now apply all_inv_step.
  - now apply all_filled_step.
Qed.

(** When every promise is fulfilled and every one settles, [Promise.all]
    is fulfilled with the values in the order of the promises. *)
Lemma Promise_all_complete order :
  incl (seq 0 (List.length tasks)) order ->
  Promise_all order tasks = Fulfilled rs.
Proof.
  intros Cover.
  assert (all_filled [] (all_start A (List.length tasks))) as F0.
  { split; [ | intros _ i []]. unfold all_start. simpl.
    intros e. destruct (Nat.eqb _ _); discriminate. }
  pose proof (all_inv_fold order _ _ all_inv_start) as I.
  pose proof (all_filled_fold order _ _ all_inv_start F0) as [NR F].
  rewrite app_nil_r in *.
  destruct (Promise_all order tasks) as [rs' | e | ] eqn:E.
  - apply Promise_all_sound in E. destruct E as [E _].
    rewrite fulfilled in E. f_equal.
    clear - E. revert rs' E. induction rs as [ | r l IH]; intros [ | r' l']; simpl;
      try discriminate; auto.
    intros [= -> E]. f_equal. now apply IH.
  - now specialize (NR e).
  - unfold Promise_all in E. destruct I as [L V C D P].
    specialize (P E). specialize (F E).
    assert (List.length (filled (values (fold_left (settle_one tasks) order
                                           (all_start A (List.length tasks)))))
            = List.length tasks) as Full.
    { rewrite <- L at 2. apply filled_full. intros i Hi. rewrite L in Hi.
      apply F; [ | assumption]. apply in_rev. rewrite rev_involutive.
      apply Cover. apply in_seq. lia. }
    lia.
Qed.

End Complete.

(** [Promise.all] is fulfilled exactly when every promise is fulfilled and
    settles, and then with the values in the order of the promises,
    whatever the order in which they settle. *)
Lemma Promise_all_fulfilled order rs :
  Promise_all order tasks = Fulfilled rs <->
  tasks = map (@Fulfilled A) rs /\ incl (seq 0 (List.length tasks)) order.
Proof.
  split.
  - apply Promise_all_sound.
  - intros [E C]. now apply Promise_all_complete.
Qed.

End AllFacts.

(** ** The fan-outs *)

Section FanOut.
Import Js Env Shared.

Lemma mapi_from_length {A B} (f : nat -> A -> B) k xs :
  List.length (mapi_from f k xs) = List.length xs.
Proof.
  revert k. induction xs as [ | x xs IH]; intros k; simpl; auto.
Qed.

Lemma mapi_from_fulfilled {A B} (op : nat -> A -> outcome B) k inputs results :
  mapi_from op k inputs = map (@Fulfilled B) results <->
  Spec.in_input_order (fun i => op (k + i)) inputs results.
Proof.
  unfold Spec.in_input_order.
  revert k results. induction inputs as [ | x xs IH]; intros k [ | r rs]; simpl.
  - split; [ | reflexivity]. intros _. split; [reflexivity | ].
    intros [ | i] y; discriminate.
  - split; [discriminate | ]. intros [L _]. discriminate.
  - split; [discriminate | ]. intros [L _]. discriminate.
  - split.
    + intros [= E1 E2]. apply IH in E2. destruct E2 as [L P]. split; [lia | ].
      intros [ | i] y; simpl.
      * intros [= <-]. exists r. now rewrite Nat.add_0_r.
      * intros H. destruct (P i y H) as [r' [N O]]. exists r'.
        now rewrite Nat.add_succ_r.
    + intros [L P]. f_equal.
      * destruct (P 0 x eq_refl) as [r' [N O]]. simpl in N. injection N as <-.
        now rewrite Nat.add_0_r in O.
      * apply IH. split; [lia | ]. intros i y H.
        destruct (P (S i) y H) as [r' [N O]]. exists r'.
        now rewrite Nat.add_succ_r in O.
Qed.

Lemma mapi_fulfilled {A B} (op : nat -> A -> outcome B) inputs results :
  mapi op inputs = map (@Fulfilled B) results <-> Spec.in_input_order op inputs results.
Proof.
  unfold mapi. now rewrite mapi_from_fulfilled.
Qed.

Lemma map_fulfilled {A B} (op : A -> outcome B) inputs results :
  map op inputs = map (@Fulfilled B) results <->
  Spec.in_input_order (fun _ => op) inputs results.
Proof.
  rewrite <- (mapi_fulfilled (fun _ => op)). unfold mapi.
  generalize 0. induction inputs as [ | x xs IH]; intros k; simpl; [reflexivity | ].
  split; intros H.
  - rewrite <- H. f_equal. clear. revert k. induction xs; intros k; simpl; congruence.
  - rewrite <- H. f_equal. clear. revert k. induction xs; intros k; simpl; congruence.
Qed.

Lemma reviews_fulfilled w order address page links reviews :
  goto w address = Fulfilled page ->
  Main.reviewAddresses page = Fulfilled links ->
  Main.scrapeSubmissionReviews w order address = Fulfilled reviews <->
  Spec.in_input_order
    (fun _ l => Main.scrapeSubmissionReview w (Main.address l) (Main.isUser l))
    links reviews /\
  Spec.all_settle (List.length links) order.
Proof.
  intros G L.
  unfold Main.scrapeSubmissionReviews. rewrite G. cbn [bind]. rewrite L. cbn [bind].
  rewrite Promise_all_fulfilled, length_map, map_fulfilled. reflexivity.
Qed.

(** C2: at each fan-out the array [Promise.all] gives holds, at every
    index, the result of the operation launched for the input at that
    index, whatever the order in which the operations complete: the
    reviews of a submission, the submissions of a category, and the
    categories of the run in the document it writes. *)
Theorem fan_out_keeps_input_order (w : world) :
  (forall order address page links,
      goto w address = Fulfilled page ->
      Main.reviewAddresses page = Fulfilled links ->
      forall reviews,
        Main.scrapeSubmissionReviews w order address = Fulfilled reviews <->
        Spec.in_input_order
          (fun _ l => Main.scrapeSubmissionReview w (Main.address l) (Main.isUser l))
          links reviews /\
        Spec.all_settle (List.length links) order) /\
  (forall s address page rows,
      goto w address = Fulfilled page ->
      Main.submissionRows page = Fulfilled rows ->
      forall submissions,
        Main.scrapeSubmissions w s address = Fulfilled submissions <->
        Spec.in_input_order (Main.withReviews w s) rows submissions /\
        Spec.all_settle (List.length rows) (order_of s)) /\
  (forall s fx,
      Main.main w s start = (fx, Fulfilled tt) ->
      exists fx0 creds categories data,
        discover w "Scrape reviews..." start = (fx0, Fulfilled (creds, categories)) /\
        Spec.in_input_order (Main.withSubmissions w s) categories data /\
        files fx = [(OUTPUT_FILE, Main.document w creds data)]).
Proof.
  split; [ | split].
  - intros order address page links G L reviews.
    exact (reviews_fulfilled w order address page links reviews G L).
  - intros s address page rows G R submissions.
    unfold Main.scrapeSubmissions. rewrite G. cbn [bind]. rewrite R. cbn [bind].
    rewrite Promise_all_fulfilled. unfold mapi at 2.
    rewrite mapi_from_length, mapi_fulfilled. reflexivity.
  - intros s fx. unfold Main.main, then_ at 1.
    destruct (discover w _ start) as [fx0 [[creds cats] | e | ]] eqn:D;
      try discriminate.
    unfold then_, await.
    destruct (Promise_all _ _) as [data | e | ] eqn:P; try discriminate.
    intros H. apply finish_files in H.
    apply Promise_all_fulfilled in P. destruct P as [P _].
    apply mapi_fulfilled in P.
    exists fx0, creds, cats, data. split; [reflexivity | split; [assumption | ]].
    apply discover_files in D. destruct D as [F _]. now rewrite H, F.
Qed.

Lemma fan_out_keeps_input_order_witness :
  (exists links reviews,
      Main.reviewAddresses Scenario.busy_reviews = Fulfilled links /\
      Spec.in_input_order
        (fun _ l => Main.scrapeSubmissionReview Scenario.busy (Main.address l) (Main.isUser l))
        links reviews /\
      Spec.all_settle (List.length links) [1; 0]) /\
  (exists rows submissions,
      Main.submissionRows Scenario.busy_listing = Fulfilled rows /\
      Spec.in_input_order (Main.withReviews Scenario.busy (inner_of Scenario.busy_orders 0))
                          rows submissions /\
      Spec.all_settle (List.length rows) [1; 0]) /\
  (exists creds categories data,
      Spec.in_input_order (Main.withSubmissions Scenario.busy Scenario.busy_orders)
                          categories data /\
      files (trace (Main.run Scenario.busy Scenario.busy_orders))
      = [(OUTPUT_FILE, Main.document Scenario.busy creds data)]).
Proof.
  destruct (fan_out_keeps_input_order Scenario.busy) as [R [S M]].
  split; [ | split].
  - destruct (Main.reviewAddresses Scenario.busy_reviews) as [links | | ] eqn:L;
      [ | vm_compute in L; discriminate .. ].
    destruct (Main.scrapeSubmissionReviews Scenario.busy [1; 0] "/rev/123")
      as [reviews | | ] eqn:E; [ | vm_compute in E; discriminate .. ].
    exists links, reviews. split; [reflexivity | ].
    apply (R [1; 0] "/rev/123" Scenario.busy_reviews links eq_refl L reviews).
    exact E.
  - destruct (Main.submissionRows Scenario.busy_listing) as [rows | | ] eqn:L;
      [ | vm_compute in L; discriminate .. ].
    destruct (Main.scrapeSubmissions Scenario.busy (inner_of Scenario.busy_orders 0) "/cat/1")
      as [submissions | | ] eqn:E; [ | vm_compute in E; discriminate .. ].
    exists rows, submissions. split; [reflexivity | ].
    apply (S (inner_of Scenario.busy_orders 0) "/cat/1" Scenario.busy_listing rows
             eq_refl L submissions).
    exact E.
  - destruct (M Scenario.busy_orders
                (fst (Main.main Scenario.busy Scenario.busy_orders start)))
      as [fx0 [creds [cats [data [D [O F]]]]]]; [vm_compute; reflexivity | ].
    exists creds, cats, data. split; [exact O | exact F].
Defined.

End FanOut.

(** ** Strings and the regular expressions *)

Section StringFacts.
Import Aux.
Local Open Scope string_scope.


Lemma append_assoc (a b c : string) : (a ++ b) ++ c = a ++ b ++ c.
Proof. induction a; simpl; congruence. Qed.

Lemma length_append a b : String.length (a ++ b) = String.length a + String.length b.
Proof. induction a; simpl; auto. Qed.

Lemma take_append a b : Str.take (String.length a) (a ++ b) = a.
Proof. induction a; simpl; [now destruct b | congruence]. Qed.

Lemma consumed_append a b : Str.consumed (a ++ b) b = a.
Proof.
  unfold Str.consumed. rewrite length_append.
  replace (String.length a + String.length b - String.length b) with (String.length a)
    by lia.
  apply take_append.
Qed.

Lemma is_empty_true s : Str.is_empty s = true <-> s = "".
Proof. destruct s; simpl; split; congruence. Qed.

Lemma span_append p s a b : Str.span p s = (a, b) -> s = a ++ b.
Proof.
  revert a b. induction s as [ | c s IH]; simpl; intros a b.
  - now intros [= <- <-].
  - destruct (p c).
    + destruct (Str.span p s) as [a' b']. intros [= <- <-]. simpl. f_equal. now apply IH.
    + now intros [= <- <-].
Qed.

Lemma span_head p s c a b : Str.span p s = (String c a, b) -> p c = true.
Proof.
  destruct s as [ | c' s]; simpl; [discriminate | ].
  destruct (p c') eqn:E.
  - destruct (Str.span p s). now intros [= <- _ _].
  - discriminate.
Qed.

Lemma span_rest p s a c b : Str.span p s = (a, String c b) -> p c = false.
Proof.
  revert a. induction s as [ | c' s IH]; simpl; intros a; [discriminate | ].
  destruct (p c') eqn:E.
  - destruct (Str.span p s) as [a' b'] eqn:S. intros [= <- ->]. now apply (IH a').
  - now intros [= _ <- _].
Qed.

(** The run of [tok], none of whose characters is [)], stops at a [)]. *)
Lemma not_rparen_contains c s :
  Str.contains ")" (String c s) = false ->
  RegExp.not_rparen c = true /\ Str.contains ")" s = false.
Proof.
  cbn [Str.contains]. intros H. apply orb_false_elim in H. destruct H as [C H].
  split; [ | assumption]. unfold RegExp.not_rparen. now rewrite Ascii.eqb_sym, C.
Qed.

Lemma span_token tok post :
  Str.contains ")" tok = false ->
  Str.span RegExp.not_rparen (tok ++ String ")" post) = (tok, String ")" post).
Proof.
  induction tok as [ | c tok IH]; [reflexivity | ].
  intros H. apply not_rparen_contains in H. destruct H as [C H].
  cbn [append Str.span]. now rewrite C, IH.
Qed.

Lemma span_no_rparen s a b :
  Str.span RegExp.not_rparen s = (a, b) -> Str.contains ")" a = false.
Proof.
  revert a b. induction s as [ | c s IH]; cbn [Str.span]; intros a b.
  - now intros [= <- _].
  - destruct (RegExp.not_rparen c) eqn:E.
    + destruct (Str.span RegExp.not_rparen s) as [a' b'] eqn:S. intros [= <- _].
      cbn [Str.contains]. rewrite (IH a' b' eq_refl). unfold RegExp.not_rparen in E.
      rewrite Ascii.eqb_sym. destruct (Ascii.eqb c ")"); [discriminate | reflexivity].
    + now intros [= <- _].
Qed.

Lemma plus_span A p s (k : string -> option A) :
  (forall c s', p c = true -> k (String c s') = None) ->
  RegExp.plus p s k
  = let (a, b) := Str.span p s in if Str.is_empty a then None else k b.
Proof.
  intros K. induction s as [ | c s IH]; simpl; [reflexivity | ].
  destruct (p c) eqn:E; [ | reflexivity].
  rewrite IH. destruct (Str.span p s) as [a b] eqn:S. simpl.
  destruct a as [ | c' a]; simpl.
  - apply span_append in S. simpl in S. now subst b.
  - pose proof (span_head _ _ _ _ _ S) as H. apply span_append in S. subst s.
    simpl. rewrite (K c' _ H). now destruct (k b).
Qed.

Lemma paren_here s :
  RegExp.rmatch RegExp.paren_re s []
                (fun rest cs => Some ((0, Str.consumed s rest) :: cs))
  = match token_here s with
    | Some tok =>
        Some [(0, String "(" (tok ++ ")")); (1, tok)]
    | None => None
    end.
Proof.
  unfold RegExp.paren_re, token_here. cbn [RegExp.rmatch].
  destruct s as [ | c s1]; [reflexivity | ].
  destruct (Ascii.eqb_spec "(" c) as [<- | Ne].
  - rewrite plus_span.
    + destruct (Str.span RegExp.not_rparen s1) as [tok rest] eqn:S.
      destruct (Str.is_empty tok); [reflexivity | ].
      apply span_append in S. subst s1.
      destruct rest as [ | c' post]; [reflexivity | ].
      destruct (Ascii.eqb_spec ")" c') as [<- | Ne'].
      * rewrite consumed_append.
        replace (String "(" (tok ++ String ")" post))
          with ((String "(" (tok ++ ")")) ++ post)
          by (simpl; now rewrite append_assoc).
        now rewrite consumed_append.
      * destruct c' as [[] [] [] [] [] [] [] []]; try reflexivity. now elim Ne'.
    + intros c' s' H. unfold RegExp.not_rparen in H. rewrite Ascii.eqb_sym.
      now destruct (Ascii.eqb c' ")").
  - destruct c as [[] [] [] [] [] [] [] []]; try reflexivity. now elim Ne.
Qed.

Lemma parenthesized_step s :
  Shared.parenthesized s
  = match token_here s with
    | Some tok => Some tok
    | None =>
        match s with
        | String _ s' => Shared.parenthesized s'
        | EmptyString => None
        end
    end.
Proof.
  unfold Shared.parenthesized. destruct s as [ | c s'].
  - reflexivity.
  - cbn [RegExp.exec]. rewrite paren_here.
    destruct (token_here (String c s')) as [tok | ]; [ | reflexivity].
    simpl. reflexivity.
Qed.

Lemma token_here_spec s tok :
  token_here s = Some tok <-> exists post, Spec.group_at "" tok post s.
Proof.
  unfold token_here, Spec.group_at. split.
  - destruct s as [ | c s1]; [discriminate | ].
    destruct c as [[] [] [] [] [] [] [] []]; try discriminate.
    destruct (Str.span RegExp.not_rparen s1) as [t rest] eqn:S.
    destruct (Str.is_empty t) eqn:E; [discriminate | ].
    destruct rest as [ | c' post]; [discriminate | ].
    destruct c' as [[] [] [] [] [] [] [] []]; try discriminate.
    intros [= <-]. exists post. split; [ | split].
    + simpl. f_equal. now apply span_append in S.
    + intros ->. discriminate.
    + now apply span_no_rparen in S.
  - intros [post [-> [N C]]]. simpl. rewrite (span_token tok post C).
    destruct tok; [contradiction | reflexivity].
Qed.

Lemma group_at_cons c pre tok post s :
  Spec.group_at (String c pre) tok post (String c s) <-> Spec.group_at pre tok post s.
Proof.
  unfold Spec.group_at. simpl. split; intros [E H]; split; auto; congruence.
Qed.

Lemma group_at_head c' pre tok post c s :
  Spec.group_at (String c' pre) tok post (String c s) -> c' = c.
Proof.
  unfold Spec.group_at. simpl. intros [E _]. congruence.
Qed.

(** [parenthesized] gives the token of the first parenthesized group. *)
Lemma parenthesized_first text tok :
  Shared.parenthesized text = Some tok <-> Spec.first_group text tok.
Proof.
  split.
  - revert tok. induction text as [ | c s IH]; intros tok; rewrite parenthesized_step.
    + simpl. discriminate.
    + destruct (token_here (String c s)) as [t | ] eqn:T.
      * intros [= ->]. apply token_here_spec in T. destruct T as [post G].
        exists "", post. split; [assumption | ]. intros; simpl; lia.
      * intros H. destruct (IH _ H) as [pre [post [G M]]].
        exists (String c pre), post. split; [now apply (proj2 (group_at_cons _ _ _ _ _)) | ].
        intros [ | c' pre'] tok' post' G'.
        -- assert (token_here (String c s) = Some tok') as T'
             by (apply token_here_spec; now exists post').
           congruence.
        -- pose proof (group_at_head _ _ _ _ _ _ G') as ->.
           apply (proj1 (group_at_cons _ _ _ _ _)), M in G'. simpl. lia.
  - intros [pre [post [G M]]]. revert text G M.
    induction pre as [ | c pre IH]; intros text G M; rewrite parenthesized_step.
    + assert (token_here text = Some tok) as T
        by (apply token_here_spec; now exists post).
      now rewrite T.
    + destruct (token_here text) as [t | ] eqn:T.
      * apply token_here_spec in T. destruct T as [post' G'].
        apply M in G'. simpl in G'. lia.
      * destruct text as [ | c' s]; [destruct G; discriminate | ].
        pose proof (group_at_head _ _ _ _ _ _ G) as ->.
        apply (proj1 (group_at_cons _ _ _ _ _)) in G. apply IH; [assumption | ].
        intros pre' tok' post' G'.
        assert (Spec.group_at (String c' pre') tok' post' (String c' s)) as G''
          by now apply (proj2 (group_at_cons _ _ _ _ _)).
        apply M in G''. simpl in G''. lia.
Qed.

(** [parenthesized] gives nothing exactly when there is no parenthesized
    token. *)
Lemma parenthesized_none text :
  Shared.parenthesized text = None <-> Spec.no_group text.
Proof.
  split.
  - intros H pre. revert text H.
    induction pre as [ | c pre IH]; intros text H tok post G;
      rewrite parenthesized_step in H.
    + assert (token_here text = Some tok) as T
        by (apply token_here_spec; now exists post).
      now rewrite T in H.
    + destruct (token_here text); [discriminate | ].
      destruct text as [ | c' s]; [destruct G; discriminate | ].
      pose proof (group_at_head _ _ _ _ _ _ G) as ->.
      apply (proj1 (group_at_cons _ _ _ _ _)) in G. exact (IH s H tok post G).
  - intros N. destruct (Shared.parenthesized text) as [tok | ] eqn:E; [ | reflexivity].
    apply parenthesized_first in E. destruct E as [pre [post [G _]]].
    now elim (N pre tok post).
Qed.

Lemma parenthesized_not_empty text : Shared.parenthesized text <> Some "".
Proof.
  intros H. apply parenthesized_first in H.
  destruct H as [pre [post [[_ [N _]] _]]]. now apply N.
Qed.

End StringFacts.

(** ** Parenthesized tokens: coordinator and reviewer type *)

Section Tokens.
Import Js Env Shared.

(** Inversion of a chain of [bind]s that ends fulfilled. *)
Ltac bind_inv H :=
  repeat match type of H with
         | bind ?x _ = Fulfilled _ =>
             let E := fresh "E" in
             destruct x eqn:E; cbn [bind] in H; try discriminate H
         | match ?x with _ => _ end = Fulfilled _ =>
             let E := fresh "E" in
             destruct x eqn:E; cbn [bind] in H; try discriminate H
         end.

Lemma parenthesized_token_of text : Spec.token_of text (parenthesized text).
Proof.
  unfold Spec.token_of. destruct (parenthesized text) as [tok | ] eqn:E.
  - now apply parenthesized_first.
  - now apply parenthesized_none.
Qed.

Lemma first_group_unique text tok tok' :
  Spec.first_group text tok -> Spec.first_group text tok' -> tok = tok'.
Proof.
  intros H H'. apply parenthesized_first in H, H'. congruence.
Qed.

Lemma parenthesized_type_of text :
  Spec.type_of text (match parenthesized text with Some t => t | None => "external" end).
Proof.
  pose proof (parenthesized_token_of text) as T. unfold Spec.type_of, Spec.token_of in *.
  destruct (parenthesized text) as [t | ]; split.
  - intros tok G. now apply (first_group_unique text).
  - intros N. destruct T as [pre [post [G _]]]. now elim (N pre t post).
  - intros tok [pre [post [G _]]]. now elim (T pre tok post).
  - reflexivity.
Qed.

(** C5: the coordinator of a submission row is the token of the first
    parenthesized group of the text of the fifteenth cell, as in
    "Jane Doe (coordinator)"; it is absent, and never the empty string,
    when that text has no parenthesized token.  Both revisions of
    [scrapeSubmissions] agree. *)
Theorem coordinator_is_parenthesized_token :
  (forall tr sub,
      Main.submissionOfRow tr = Fulfilled sub ->
      exists td,
        nth_error (Dom.querySelectorAll (Dom.tag "td") tr) 14 = Some td /\
        Spec.token_of (text td) (Main.Submission.coordinator sub) /\
        Main.Submission.coordinator sub <> Some "") /\
  (forall tr sub,
      Award.submissionOfRow tr = Fulfilled sub ->
      exists td,
        nth_error (Dom.querySelectorAll (Dom.tag "td") tr) 14 = Some td /\
        Spec.token_of (text td) (Award.Submission.coordinator sub) /\
        Award.Submission.coordinator sub <> Some "") /\
  parenthesized "Jane Doe (coordinator)" = Some "coordinator".
Proof.
  split; [ | split; [ | reflexivity]].
  - intros tr sub H. unfold Main.submissionOfRow in H.
    unfold innerText_of at 1 in H. unfold defined at 1 in H.
    destruct (nth_error (Dom.querySelectorAll (Dom.tag "td") tr) 14) as [td | ];
      [ | discriminate]. cbn [bind] in H.
    exists td. split; [reflexivity | ]. bind_inv H. injection H as <-. simpl.
    split; [apply parenthesized_token_of | apply parenthesized_not_empty].
  - intros tr sub H. unfold Award.submissionOfRow in H.
    unfold innerText_of at 1 in H. unfold defined at 1 in H.
    destruct (nth_error (Dom.querySelectorAll (Dom.tag "td") tr) 14) as [td | ];
      [ | discriminate]. cbn [bind] in H.
    exists td. split; [reflexivity | ]. bind_inv H. injection H as <-. simpl.
    split; [apply parenthesized_token_of | apply parenthesized_not_empty].
Qed.

Lemma coordinator_is_parenthesized_token_witness :
  (exists sub td,
      Main.submissionOfRow
        (Dom.root (Pages.submission_row "Done" "" "123" "Paper X" "/sub/123" "/rev/123"
                                           "Jane Doe (coordinator)")) = Fulfilled sub /\
      text td = "Jane Doe (coordinator)" /\
      Spec.token_of (text td) (Main.Submission.coordinator sub)) /\
  (exists sub td,
      Award.submissionOfRow
        (Dom.root (Pages.submission_row "Late" "" "124" "Paper Y" "/sub/124" "/rev/124"
                                           "nobody")) = Fulfilled sub /\
      text td = "nobody" /\
      Spec.token_of (text td) (Award.Submission.coordinator sub)).
Proof.
  destruct coordinator_is_parenthesized_token as [M [A _]].
  split.
  - destruct (Main.submissionOfRow
                (Dom.root (Pages.submission_row "Done" "" "123" "Paper X" "/sub/123"
                                                   "/rev/123" "Jane Doe (coordinator)")))
      as [sub | | ] eqn:E; [ | vm_compute in E; discriminate .. ].
    destruct (M _ sub E) as [td [N [T _]]].
    exists sub, td. split; [reflexivity | split; [ | exact T]].
    vm_compute in N. now injection N as <-.
  - destruct (Award.submissionOfRow
                (Dom.root (Pages.submission_row "Late" "" "124" "Paper Y" "/sub/124"
                                                   "/rev/124" "nobody")))
      as [sub | | ] eqn:E; [ | vm_compute in E; discriminate .. ].
    destruct (A _ sub E) as [td [N [T _]]].
    exists sub, td. split; [reflexivity | split; [ | exact T]].
    vm_compute in N. now injection N as <-.
Defined.

(** C9: the reviewer type of a review is the token of the first
    parenthesized group of the text of the reviewer cell, and "external"
    when that text has no parenthesized token.  Both revisions of
    [scrapeSubmissionReview] agree. *)
Theorem reviewerType_defaults_to_external :
  (forall body r,
      Main.reviewOfBody body = Fulfilled r ->
      exists td,
        Main.cell (Main.infoCells body) 0 = Some td /\
        Spec.type_of (text td) (Main.Review.reviewerType r)) /\
  (forall body r,
      Award.reviewOfBody body = Fulfilled r ->
      exists tr td,
        nth_error (Dom.querySelectorAll Dom.info_rows body) 0 = Some tr /\
        Dom.querySelector Dom.second_td tr = Some td /\
        Spec.type_of (text td) (Award.Review.reviewerType r)).
Proof.
  split.
  - intros body r H. unfold Main.reviewOfBody in H.
    unfold defined at 1 in H.
    destruct (Main.cell (Main.infoCells body) 0) as [td | ]; [ | discriminate].
    cbn [bind] in H. exists td. split; [reflexivity | ].
    bind_inv H. injection H as <-. simpl. apply parenthesized_type_of.
  - intros body r H. unfold Award.reviewOfBody in H.
    unfold Award.info_text at 1 in H. unfold querySelector_of at 1 in H.
    unfold defined at 1 in H.
    destruct (nth_error (Dom.querySelectorAll Dom.info_rows body) 0) as [tr | ];
      [ | discriminate]. cbn [bind] in H.
    unfold innerText_of at 1 in H. unfold defined at 1 in H.
    destruct (Dom.querySelector Dom.second_td tr) as [td | ] eqn:Q; [ | discriminate].
    cbn [bind] in H. exists tr, td. split; [reflexivity | split; [exact Q | ]].
    bind_inv H. injection H as <-. simpl. apply parenthesized_type_of.
Qed.

Lemma reviewerType_defaults_to_external_witness :
  (exists body r td,
      Scenario.body_of Scenario.review2 = Some body /\
      Main.reviewOfBody body = Fulfilled r /\
      text td = "Reviewer 2" /\
      Spec.type_of (text td) (Main.Review.reviewerType r)) /\
  (exists body r td,
      Scenario.body_of Scenario.review = Some body /\
      Award.reviewOfBody body = Fulfilled r /\
      text td = "Reviewer 1 (AC)" /\
      Spec.type_of (text td) (Award.Review.reviewerType r)).
Proof.
  destruct reviewerType_defaults_to_external as [M A].
  split.
  - destruct (Scenario.body_of Scenario.review2) as [body | ] eqn:B;
      [ | vm_compute in B; discriminate].
    vm_compute in B. injection B as B.
    destruct (Main.reviewOfBody body) as [r | | ] eqn:E;
      [ | subst body; vm_compute in E; discriminate .. ].
    destruct (M body r E) as [td [C T]].
    exists body, r, td. split; [reflexivity | split; [exact E | split; [ | exact T]]].
    subst body. vm_compute in C. now injection C as <-.
  - destruct (Scenario.body_of Scenario.review) as [body | ] eqn:B;
      [ | vm_compute in B; discriminate].
    vm_compute in B. injection B as B.
    destruct (Award.reviewOfBody body) as [r | | ] eqn:E;
      [ | subst body; vm_compute in E; discriminate .. ].
    destruct (A body r E) as [tr [td [N [Q T]]]].
    exists body, r, td. split; [reflexivity | split; [exact E | split; [ | exact T]]].
    subst body. vm_compute in N. injection N as <-.
    vm_compute in Q. now injection Q as <-.
Defined.

End Tokens.

(** ** Review parts *)

Section Parts.
Import Js Env Shared.

Lemma pairs_ind {A} (P : list A -> Prop) :
  P [] -> (forall t, P [t]) -> (forall t c rest, P rest -> P (t :: c :: rest)) ->
  forall rows, P rows.
Proof.
  intros H0 H1 H2.
  fix IH 1. intros [ | t [ | c rest]]; [exact H0 | apply H1 | apply H2, IH].
Qed.

Lemma even_index k : ((k * 2) mod 2 =? 0)%nat = true.
Proof. now rewrite Nat.Div0.mod_mul. Qed.

Lemma odd_index k : (S (k * 2) mod 2 =? 0)%nat = false.
Proof.
  replace (S (k * 2)) with (1 + k * 2) by lia. now rewrite Nat.Div0.mod_add.
Qed.

Lemma is_empty_eqb s : Str.is_empty s = String.eqb s "".
Proof. now destruct s. Qed.

Lemma parts_by_pairs pre rest k :
  List.length pre = k * 2 ->
  mapi_from (fun i title => {| Main.Part.title := Main.titleOf title;
                               Main.Part.content := Main.contentOf (pre ++ rest) i |})
            k (filteri_from (fun i => (i mod 2 =? 0)%nat) (k * 2) rest)
  = map Spec.part_of_pair (Spec.pairs rest).
Proof.
  revert pre k. induction rest as [ | t | t c rest IH] using pairs_ind; intros pre k L.
  - reflexivity.
  - cbn [filteri_from]. rewrite even_index. cbn [mapi_from filteri_from Spec.pairs map].
    f_equal. unfold Spec.part_of_pair, Main.titleOf, Main.contentOf. cbn [fst snd].
    rewrite is_empty_eqb. f_equal.
    replace (nth_error (pre ++ [t]) (k * 2 + 1)) with (@None Dom.node); [reflexivity | ].
    symmetry. apply nth_error_None. rewrite length_app. simpl. lia.
  - cbn [filteri_from]. rewrite even_index, odd_index.
    cbn [mapi_from Spec.pairs map]. f_equal.
    + unfold Spec.part_of_pair, Main.titleOf, Main.contentOf. cbn [fst snd].
      rewrite is_empty_eqb. f_equal.
      rewrite nth_error_app2 by lia.
      replace (k * 2 + 1 - List.length pre) with 1 by lia. reflexivity.
    + specialize (IH (pre ++ [t; c]) (S k)).
      rewrite <- app_assoc in IH. simpl in IH. simpl. apply IH.
      rewrite length_app. simpl. lia.
Qed.

Lemma titled_not_empty p : Main.titled p = negb (Spec.empty_title p).
Proof.
  unfold Main.titled, Spec.empty_title. destruct (Main.Part.title p) as [t | ].
  - now rewrite is_empty_eqb.
  - reflexivity.
Qed.

(** The review parts are the pairs of consecutive rows, less those whose
    title is the empty string. *)
Lemma reviewPartsOf_pairs rows :
  Main.reviewPartsOf rows
  = filter (fun p => negb (Spec.empty_title p)) (map Spec.part_of_pair (Spec.pairs rows)).
Proof.
  unfold Main.reviewPartsOf, mapi, filteri.
  pose proof (parts_by_pairs [] rows 0 eq_refl) as P. cbn [app Nat.mul] in P. rewrite P.
  apply filter_ext. intros p. apply titled_not_empty.
Qed.

(** C6: the review parts of a review page are the rows of the third table
    paired as consecutive (title row, content row), titles and contents
    trimmed; a pair with a title of white space only, trimmed to the
    empty string, is discarded; a pair whose title row has no text has no
    title ([null]) and is kept; no review part has the empty string as
    its title. *)
Theorem reviewParts_pair_rows body r :
  Main.reviewOfBody body = Fulfilled r ->
  let rows := Dom.querySelectorAll Dom.review_rows body in
  Main.Review.reviewParts r
  = filter (fun p => negb (Spec.empty_title p)) (map Spec.part_of_pair (Spec.pairs rows)) /\
  (forall t c, In (t, c) (Spec.pairs rows) -> text t <> "" -> Str.trim (text t) = "" ->
               ~ In (Spec.part_of_pair (t, c)) (Main.Review.reviewParts r)) /\
  (forall t c, In (t, c) (Spec.pairs rows) -> text t = "" ->
               Main.Part.title (Spec.part_of_pair (t, c)) = None /\
               In (Spec.part_of_pair (t, c)) (Main.Review.reviewParts r)) /\
  Forall (fun p => Main.Part.title p <> Some "") (Main.Review.reviewParts r).
Proof.
  intros H rows.
  assert (Main.Review.reviewParts r = Main.reviewPartsOf rows) as ->.
  { unfold Main.reviewOfBody in H.
    repeat match type of H with
           | bind ?x _ = Fulfilled _ =>
               destruct x; cbn [bind] in H; try discriminate H
           end.
    now injection H as <-. }
  rewrite reviewPartsOf_pairs. split; [reflexivity | split; [ | split]].
  - intros t c I N T F. apply filter_In in F. destruct F as [_ F].
    unfold Spec.empty_title, Spec.part_of_pair in F. cbn [Main.Part.title fst] in F.
    apply String.eqb_neq in N. rewrite N, T in F. discriminate.
  - intros t c I E. unfold Spec.part_of_pair at 1. cbn [Main.Part.title fst].
    rewrite E. split; [reflexivity | ].
    apply filter_In. split; [now apply in_map | ].
    unfold Spec.empty_title, Spec.part_of_pair. cbn [Main.Part.title fst].
    now rewrite E.
  - apply Forall_forall. intros p F. apply filter_In in F. destruct F as [_ F].
    unfold Spec.empty_title in F. destruct (Main.Part.title p) as [t | ]; [ | discriminate].
    intros [= ->]. discriminate.
Qed.

Lemma reviewParts_pair_rows_witness :
  exists body r,
    Scenario.body_of Scenario.review3 = Some body /\
    Main.reviewOfBody body = Fulfilled r /\
    Main.Review.reviewParts r
    = [ {| Main.Part.title := Some "Strengths"; Main.Part.content := Some "Clear." |};
        {| Main.Part.title := None; Main.Part.content := Some "kept" |};
        {| Main.Part.title := Some "Last"; Main.Part.content := None |} ].
Proof.
  destruct (Scenario.body_of Scenario.review3) as [body | ] eqn:B;
    [ | vm_compute in B; discriminate].
  vm_compute in B. injection B as B.
  destruct (Main.reviewOfBody body) as [r | | ] eqn:E;
    [ | subst body; vm_compute in E; discriminate .. ].
  destruct (reviewParts_pair_rows body r E) as [P _].
  exists body, r. split; [reflexivity | split; [exact E | ]].
  rewrite P. subst body. vm_compute. reflexivity.
Defined.

End Parts.

(** ** Scales *)

Section Scales.
Import Js Env Shared.
Local Open Scope string_scope.

Lemma exec_inv r s m :
  RegExp.exec r s = Some m ->
  exists pre s',
    s = pre ++ s' /\
    RegExp.rmatch r s' [] (fun rest cs => Some ((0, Str.consumed s' rest) :: cs)) = Some m.
Proof.
  induction s as [ | c s IH]; cbn [RegExp.exec].
  - destruct (RegExp.rmatch r "" [] _) eqn:E; [ | discriminate].
    intros [= <-]. now exists "", "".
  - destruct (RegExp.rmatch r (String c s) [] _) eqn:E.
    + intros [= <-]. now exists "", (String c s).
    + intros H. destruct (IH H) as [pre [s' [-> M]]]. now exists (String c pre), s'.
Qed.

Lemma rmatch_lit A l r s cs k (a : A) :
  RegExp.rmatch (RegExp.lit l r) s cs k = Some a ->
  exists s1, s = l ++ s1 /\ RegExp.rmatch r s1 cs k = Some a.
Proof.
  revert s. induction l as [ | c l IH]; intros s; cbn [RegExp.lit RegExp.rmatch].
  - intros H. now exists s.
  - destruct s as [ | c' s]; [discriminate | ].
    destruct (Ascii.eqb_spec c c') as [<- | Ne]; [ | discriminate].
    intros H. destruct (IH _ H) as [s1 [-> M]]. now exists s1.
Qed.

Lemma rmatch_cat A r1 r2 s cs (k : string -> RegExp.captures -> option A) :
  RegExp.rmatch (RegExp.Cat r1 r2) s cs k
  = RegExp.rmatch r1 s cs (fun s1 cs1 => RegExp.rmatch r2 s1 cs1 k).
Proof. reflexivity. Qed.

Lemma rmatch_scale_num A n s cs k (a : A) :
  RegExp.rmatch (RegExp.Grp n RegExp.scale_num) s cs k = Some a ->
  exists x s', s = x ++ s' /\ Spec.scale_numeral x /\ k s' ((n, x) :: cs) = Some a.
Proof.
  unfold RegExp.scale_num. cbn [RegExp.rmatch].
  destruct s as [ | d s1]; [discriminate | ].
  destruct (Str.is_digit d) eqn:D; [ | discriminate].
  assert (forall x s', String d s1 = x ++ s' -> Str.consumed (String d s1) s' = x) as C
    by (intros x s' ->; apply consumed_append).
  destruct s1 as [ | p [ | d' s2]].
  - intros H. exists (String d ""), "". rewrite (C (String d "") "" eq_refl) in H.
    split; [reflexivity | split; [ | exact H]]. left. now exists d.
  - destruct (Ascii.eqb "." p); intros H;
      exists (String d ""), (String p ""); rewrite (C (String d "") _ eq_refl) in H;
      (split; [reflexivity | split; [ | exact H]]); left; now exists d.
  - destruct (Ascii.eqb_spec "." p) as [<- | Ne].
    + destruct (Str.is_digit d') eqn:D'.
      * destruct (k s2 _) eqn:K.
        -- intros [= <-]. exists (String d (String "." (String d' ""))), s2.
           rewrite (C (String d (String "." (String d' ""))) s2 eq_refl) in K.
           split; [reflexivity | split; [ | exact K]]. right. now exists d, d'.
        -- intros H. exists (String d ""), (String "." (String d' s2)).
           rewrite (C (String d "") _ eq_refl) in H.
           split; [reflexivity | split; [ | exact H]]. left. now exists d.
      * intros H. exists (String d ""), (String "." (String d' s2)).
        rewrite (C (String d "") _ eq_refl) in H.
        split; [reflexivity | split; [ | exact H]]. left. now exists d.
    + intros H. exists (String d ""), (String p (String d' s2)).
      rewrite (C (String d "") _ eq_refl) in H.
      split; [reflexivity | split; [ | exact H]]. left. now exists d.
Qed.

Lemma digit_cases d :
  Str.is_digit d = true ->
  In d ["0"; "1"; "2"; "3"; "4"; "5"; "6"; "7"; "8"; "9"]%char.
Proof.
  destruct d as [[] [] [] [] [] [] [] []]; vm_compute; intros H;
    try discriminate H; tauto.
Qed.

Lemma scale_numeral_range x :
  Spec.scale_numeral x -> Spec.within 0 (99 # 10) (Num.unary_plus x).
Proof.
  intros [[d [-> D]] | [d [d' [-> [D D']]]]].
  - apply digit_cases in D. simpl in D.
    repeat (destruct D as [<- | D]; [split; vm_compute; discriminate | ]).
    contradiction.
  - apply digit_cases in D, D'. simpl in D, D'.
    repeat (destruct D as [<- | D];
            [repeat (destruct D' as [<- | D']; [split; vm_compute; discriminate | ]);
             contradiction | ]).
    contradiction.
Qed.

(** A scale, when the pattern matches, is read as the text has it. *)
Lemma scaleOf_read text scale :
  Main.scaleOf text = Some scale -> Spec.scale_read text scale.
Proof.
  unfold Main.scaleOf. destruct (RegExp.exec RegExp.scale_re text) as [m | ] eqn:E;
    [ | discriminate].
  intros [= <-]. apply exec_inv in E. destruct E as [pre [s [-> M]]].
  unfold RegExp.scale_re in M. apply rmatch_lit in M. destruct M as [s1 [-> M]].
  rewrite rmatch_cat in M.
  apply (rmatch_scale_num _ 1) in M. destruct M as [x [s2 [-> [X M]]]].
  change (RegExp.Cat (RegExp.Chr ".") (RegExp.Cat (RegExp.Chr ".")
                                                  (RegExp.Grp 2 RegExp.scale_num)))
    with (RegExp.lit ".." (RegExp.Grp 2 RegExp.scale_num)) in M.
  apply rmatch_lit in M. destruct M as [s3 [-> M]].
  apply rmatch_scale_num in M. destruct M as [y [post [-> [Y M]]]].
  injection M as <-.
  exists pre, x, y, post. unfold Main.plus_group. cbn [RegExp.group Nat.eqb fst snd].
  split; [ | split; [exact X | split; [exact Y | split; [reflexivity | ]]]].
  - reflexivity.
  - split; now apply scale_numeral_range.
Qed.

(** C7, as the specification words it, fails: a rating cell that reads
    "scale is 5..1" gives the rating scale (5, 1). *)
Lemma scale_can_descend :
  exists body r,
    Scenario.body_of Scenario.descending = Some body /\
    Main.reviewOfBody body = Fulfilled r /\
    Main.Review.ratingScale r = Some (Num.of_Z 5, Num.of_Z 1) /\
    ~ Spec.ascending (Num.of_Z 5, Num.of_Z 1).
Proof.
  eexists. eexists. split; [vm_compute; reflexivity | ].
  split; [vm_compute; reflexivity | ].
  split; [reflexivity | ]. vm_compute. intros H. now apply H.
Qed.

(** C7, amended: a rating scale or an expertise scale, when present, is
    read from an occurrence of "scale is x..y" in the text of its cell,
    [x] and [y] each a digit with at most one decimal digit: its bounds
    are the numbers [x] and [y], each from 0 to 9.9, in the order the
    text has them. *)
Theorem scales_as_written body r :
  Main.reviewOfBody body = Fulfilled r ->
  exists ratingTd expertiseTd,
    Main.cell (Main.infoCells body) 2 = Some ratingTd /\
    Main.cell (Main.infoCells body) 3 = Some expertiseTd /\
    (forall scale, Main.Review.ratingScale r = Some scale ->
                   Spec.scale_read (text ratingTd) scale) /\
    (forall scale, Main.Review.expertiseScale r = Some scale ->
                   Spec.scale_read (text expertiseTd) scale).
Proof.
  intros H. unfold Main.reviewOfBody in H.
  destruct (Main.cell (Main.infoCells body) 0) as [reviewerTd | ]; [ | discriminate].
  destruct (Main.cell (Main.infoCells body) 2) as [ratingTd | ]; [ | discriminate].
  destruct (Main.cell (Main.infoCells body) 3) as [expertiseTd | ]; [ | discriminate].
  cbn [bind defined] in H.
  repeat match type of H with
         | bind ?x _ = Fulfilled _ => destruct x; cbn [bind] in H; try discriminate H
         end.
  injection H as <-. cbn [Main.Review.ratingScale Main.Review.expertiseScale].
  exists ratingTd, expertiseTd.
  split; [reflexivity | split; [reflexivity | split]]; intros scale; apply scaleOf_read.
Qed.

Lemma scales_as_written_witness :
  exists body r,
    Scenario.body_of Scenario.review2 = Some body /\
    Main.reviewOfBody body = Fulfilled r /\
    Spec.scale_read "2.5 (scale is 1..5)" (Num.of_Z 1, Num.of_Z 5) /\
    Spec.scale_read "1 (scale is 0.5..4.5)" (Num.Fin (1 # 2), Num.Fin (9 # 2)).
Proof.
  destruct (Scenario.body_of Scenario.review2) as [body | ] eqn:B;
    [ | vm_compute in B; discriminate].
  vm_compute in B. injection B as B.
  destruct (Main.reviewOfBody body) as [r | | ] eqn:E;
    [ | subst body; vm_compute in E; discriminate .. ].
  destruct (scales_as_written body r E) as [ratingTd [expertiseTd [R [X [SR SX]]]]].
  exists body, r. split; [reflexivity | split; [exact E | ]].
  subst body. vm_compute in R. injection R as <-. vm_compute in X. injection X as <-.
  vm_compute in E. injection E as <-.
  split; [exact (SR _ eq_refl) | exact (SX _ eq_refl)].
Defined.

End Scales.

(** ** Review numbers *)

Section Numbers.
Import Js Env Shared.

Lemma review_number_on_page w address isUser r :
  Main.scrapeSubmissionReview w address isUser = Fulfilled r ->
  Main.Review.isUser r = isUser /\
  Spec.number_on_page w address (Main.Review.number (Main.Review.result r)).
Proof.
  unfold Main.scrapeSubmissionReview, eval_one.
  destruct (goto w address) as [page | | ] eqn:G; try discriminate. cbn [bind].
  destruct (hd_error (Dom.select (Dom.tag "body") page)) as [body | ] eqn:B;
    [ | discriminate].
  destruct (Main.reviewOfBody body) as [res | | ] eqn:E; try discriminate. cbn [bind].
  intros [= <-]. split; [reflexivity | ]. cbn [Main.Review.result].
  unfold Main.reviewOfBody in E.
  destruct (Main.cell (Main.infoCells body) 0) as [reviewerTd | ] eqn:C0;
    [ | discriminate].
  destruct (Main.cell (Main.infoCells body) 2) as [ratingTd | ]; [ | discriminate].
  destruct (Main.cell (Main.infoCells body) 3) as [expertiseTd | ]; [ | discriminate].
  cbn [bind defined] in E. unfold Main.bold_number at 1 in E.
  unfold innerText_of at 1 in E.
  destruct (Dom.querySelector (Dom.tag "b") reviewerTd) as [b | ] eqn:Q;
    [ | discriminate].
  cbn [bind defined] in E.
  repeat match type of E with
         | bind ?x _ = Fulfilled _ => destruct x; cbn [bind] in E; try discriminate E
         end.
  injection E as <-. exists page, body, reviewerTd, b. repeat split; assumption.
Qed.

(** C8, as the specification words it, fails: two reviews of one
    submission whose pages both show the number 1 give two reviews
    numbered 1. *)
Lemma review_numbers_can_repeat :
  exists reviews,
    Main.scrapeSubmissionReviews Scenario.clash [0; 1] "/rev/123" = Fulfilled reviews /\
    Spec.numbers reviews = [Num.of_Z 1; Num.of_Z 1] /\
    ~ NoDup (Spec.numbers reviews).
Proof.
  eexists. split; [vm_compute; reflexivity | ].
  split; [reflexivity | ].
  intros H. inversion H as [ | n l N _]. apply N. now left.
Qed.

(** C8, amended: the reviews of a submission come from its review links,
    one for one and in their order, each with the number its own page
    shows; their numbers are pairwise distinct whenever no two of the
    linked pages show the same number. *)
Theorem review_numbers_from_pages w order address page links reviews :
  goto w address = Fulfilled page ->
  Main.reviewAddresses page = Fulfilled links ->
  Main.scrapeSubmissionReviews w order address = Fulfilled reviews ->
  Spec.numbers_from_pages w links reviews /\
  (Spec.distinct_on_pages w links -> NoDup (Spec.numbers reviews)).
Proof.
  intros G L H.
  apply (reviews_fulfilled w order address page links reviews G L) in H.
  destruct H as [[Len P] _].
  assert (Spec.numbers_from_pages w links reviews) as N.
  { split; [exact Len | ]. intros i l Hi. destruct (P i l Hi) as [r [Hr S]].
    exists r. split; [exact Hr | ]. now apply review_number_on_page in S. }
  split; [exact N | ].
  intros D. apply NoDup_nth_error. intros i j Hi E.
  unfold Spec.numbers in *. rewrite length_map, Len in Hi.
  destruct (nth_error links i) as [l | ] eqn:Li; [ | apply nth_error_None in Li; lia].
  destruct N as [_ N]. destruct (N i l Li) as [r [Ri [_ Ni]]].
  rewrite !nth_error_map, Ri in E. simpl in E.
  destruct (nth_error reviews j) as [r' | ] eqn:Rj; [ | discriminate].
  injection E as E.
  destruct (nth_error links j) as [l' | ] eqn:Lj.
  - destruct (N j l' Lj) as [r'' [Rj' [_ Nj]]]. rewrite Rj in Rj'. injection Rj' as <-.
    destruct (Nat.eq_dec i j) as [ | Ne]; [assumption | ].
    rewrite <- E in Nj. now elim (D i j l l' _ Ne Li Lj Ni).
  - apply nth_error_None in Lj. assert (nth_error reviews j <> None) as S by congruence.
    apply nth_error_Some in S. lia.
Qed.

Lemma review_numbers_from_pages_witness :
  exists links reviews,
    Main.reviewAddresses Scenario.busy_reviews = Fulfilled links /\
    Spec.numbers_from_pages Scenario.busy links reviews /\
    Spec.numbers reviews = [Num.of_Z 1; Num.of_Z 2].
Proof.
  destruct (Main.reviewAddresses Scenario.busy_reviews) as [links | | ] eqn:L;
    [ | vm_compute in L; discriminate .. ].
  destruct (Main.scrapeSubmissionReviews Scenario.busy [1; 0] "/rev/123")
    as [reviews | | ] eqn:E; [ | vm_compute in E; discriminate .. ].
  exists links, reviews. split; [reflexivity | ].
  split.
  - exact (proj1 (review_numbers_from_pages Scenario.busy [1; 0] "/rev/123"
                    Scenario.busy_reviews links reviews eq_refl L E)).
  - vm_compute in E. now injection E as <-.
Defined.

End Numbers.

(** ** The rows of a listing *)

Section Rows.
Import Js Env Shared Aux.

Lemma element_rect' (P : Dom.element -> Prop) :
  (forall t a x cs, Forall P cs -> P (Dom.Element t a x cs)) -> forall e, P e.
Proof.
  intros H. fix IH 1. intros [t a x cs]. apply H.
  induction cs as [ | c cs IHcs]; constructor; [apply IH | exact IHcs].
Qed.

Lemma subtree_elements e : forall anc bef,
  map Dom.node_elem (Dom.subtree anc bef e) = Dom.elements e.
Proof.
  induction e as [t a x cs IH] using element_rect'. intros anc bef.
  cbn [Dom.subtree Dom.elements map]. f_equal.
  generalize ({| Dom.elem := Dom.Element t a x cs; Dom.before := bef |} :: anc) as up.
  generalize (@nil Dom.element) as b.
  induction IH as [ | c cs Hc _ IHcs]; intros b up; cbn [Dom.forest flat_map];
    [reflexivity | ].
  now rewrite map_app, Hc, IHcs.
Qed.

Lemma descendants_inside n :
  map Dom.node_elem (Dom.descendants n) = Dom.inside (Dom.node_elem n).
Proof.
  unfold Dom.descendants, Dom.inside. generalize (@nil Dom.element) as b.
  induction (Dom.children (Dom.node_elem n)) as [ | c cs IH]; intros b;
    cbn [Dom.forest flat_map]; [reflexivity | ].
  now rewrite map_app, subtree_elements, IH.
Qed.

Lemma map_filter {A B} (f : A -> B) (p : B -> bool) l :
  map f (filter (fun x => p (f x)) l) = filter p (map f l).
Proof.
  induction l as [ | x l IH]; simpl; [reflexivity | ].
  destruct (p (f x)); simpl; congruence.
Qed.

(** What a tag selector finds depends on the element alone, not on its
    place in the document. *)
Lemma querySelectorAll_tag t n :
  map Dom.node_elem (Dom.querySelectorAll (Dom.tag t) n)
  = filter (fun e => String.eqb (Dom.tagName e) t) (Dom.inside (Dom.node_elem n)).
Proof.
  unfold Dom.querySelectorAll. rewrite <- descendants_inside, <- map_filter.
  f_equal. apply filter_ext. intros m. unfold Dom.tag. cbn.
  now rewrite andb_true_r.
Qed.

Lemma same_nth tds tds' i :
  map Dom.node_elem tds = map Dom.node_elem tds' ->
  same_elem (nth_error tds i) (nth_error tds' i).
Proof.
  intros E. unfold same_elem. now rewrite <- !nth_error_map, E.
Qed.

Lemma same_tds n :
  map Dom.node_elem (Dom.querySelectorAll (Dom.tag "td") n)
  = map Dom.node_elem (Dom.querySelectorAll (Dom.tag "td") (Dom.root (Dom.node_elem n))).
Proof. now rewrite !querySelectorAll_tag. Qed.

Lemma same_innerText x y : same_elem x y -> innerText_of x = innerText_of y.
Proof.
  unfold same_elem, innerText_of, text. destruct x, y; simpl; congruence.
Qed.

Lemma same_title x y : same_elem x y -> title_of x = title_of y.
Proof.
  unfold same_elem, title_of, title. destruct x, y; simpl; congruence.
Qed.

Lemma same_href x y : same_elem x y -> href_of x = href_of y.
Proof.
  unfold same_elem, href_of, href. destruct x, y; simpl; congruence.
Qed.

Lemma same_querySelector t x y :
  same_elem x y ->
  forall n m, x = Some n -> y = Some m ->
  same_elem (Dom.querySelector (Dom.tag t) n) (Dom.querySelector (Dom.tag t) m).
Proof.
  intros S n m -> ->. injection S as S. unfold same_elem, Dom.querySelector.
  assert (forall l, option_map Dom.node_elem (hd_error l)
                    = hd_error (map Dom.node_elem l)) as H by now intros [ | ? ?].
  now rewrite !H, !querySelectorAll_tag, S.
Qed.

Lemma bind_ext {A B} (x y : outcome A) (k k' : A -> outcome B) :
  x = y -> (forall a, k a = k' a) -> bind x k = bind y k'.
Proof. intros -> K. destruct y; simpl; auto. Qed.

Lemma same_anchor {B} x y (k k' : option Dom.node -> outcome B) :
  same_elem x y ->
  (forall a b, same_elem a b -> k a = k' b) ->
  bind (querySelector_of (Dom.tag "a") x) k = bind (querySelector_of (Dom.tag "a") y) k'.
Proof.
  unfold querySelector_of. intros S K.
  destruct x as [n | ], y as [m | ]; try discriminate S; [ | reflexivity].
  cbn [defined bind]. apply K. now apply (same_querySelector "a" (Some n) (Some m)).
Qed.

(** Two chains of property reads on the same elements are equal. *)
Ltac same_chain T :=
  repeat (cbv zeta;
          first [ reflexivity
                | apply bind_ext;
                  [ first [apply same_innerText | apply same_title | apply same_href];
                    first [assumption | apply same_nth; exact T]
                  | intros ? ]
                | apply same_anchor; [apply same_nth; exact T | intros ? ? ?] ]).

Lemma Listing_row_element n :
  Listing.submissionOfRow n = Listing.submissionOfRow (Dom.root (Dom.node_elem n)).
Proof.
  pose proof (same_tds n) as T. unfold Listing.submissionOfRow. same_chain T.
Qed.

Lemma Main_row_element n :
  Main.submissionOfRow n = Main.submissionOfRow (Dom.root (Dom.node_elem n)).
Proof.
  pose proof (same_tds n) as T. unfold Main.submissionOfRow. same_chain T.
Qed.

Lemma traverse_fulfilled {A B} (f : A -> outcome B) xs ys :
  traverse f xs = Fulfilled ys <-> Forall2 (fun x y => f x = Fulfilled y) xs ys.
Proof.
  revert ys. induction xs as [ | x xs IH]; intros ys; cbn [traverse].
  - split; [intros [= <-]; constructor | intros H; now inversion H].
  - destruct (f x) as [y | e | ] eqn:F; cbn [bind].
    + destruct (traverse f xs) as [l | e | ] eqn:T; cbn [bind].
      * split.
        -- intros [= <-]. constructor; [exact F | now apply IH].
        -- intros H. inversion H as [ | x' y' xs' l' Fx Fl]; subst.
           apply IH in Fl. congruence.
      * split; [discriminate | ]. intros H. inversion H as [ | x' y' xs' l' Fx Fl]; subst.
        apply IH in Fl. discriminate.
      * split; [discriminate | ]. intros H. inversion H as [ | x' y' xs' l' Fx Fl]; subst.
        apply IH in Fl. discriminate.
    + split; [discriminate | ]. intros H. inversion H; congruence.
    + split; [discriminate | ]. intros H. inversion H; congruence.
Qed.

Lemma traverse_rows {B} (f : Dom.node -> outcome B) nodes :
  (forall n, f n = f (Dom.root (Dom.node_elem n))) ->
  traverse f nodes = traverse (fun r => f (Dom.root r)) (map Dom.node_elem nodes).
Proof.
  intros E. induction nodes as [ | n nodes IH]; cbn [traverse map]; [reflexivity | ].
  now rewrite IH, <- E.
Qed.

Lemma row_nodes_elements anc bef rows :
  map Dom.node_elem (row_nodes anc bef rows) = rows.
Proof.
  revert bef. induction rows as [ | r rows IH]; intros bef; cbn [row_nodes map];
    [reflexivity | ].
  now rewrite IH.
Qed.

Lemma forest_elements up b cs :
  map Dom.node_elem (Dom.forest (Dom.subtree up) b cs) = flat_map Dom.elements cs.
Proof.
  revert b. induction cs as [ | c cs IH]; intros b; cbn [Dom.forest flat_map];
    [reflexivity | ].
  now rewrite map_app, subtree_elements, IH.
Qed.

Lemma filter_none {A} (p : A -> bool) l :
  (forall x, In x l -> p x = false) -> filter p l = [].
Proof.
  induction l as [ | x l IH]; intros H; simpl; [reflexivity | ].
  rewrite (H x (or_introl eq_refl)). apply IH. intros y Hy. apply H. now right.
Qed.

Lemma filter_cons_false {A} (p : A -> bool) x l :
  p x = false -> filter p (x :: l) = filter p l.
Proof. intros H. simpl. now rewrite H. Qed.

Lemma matches_rows n :
  Dom.matches Dom.submission_rows n
  = String.eqb (Dom.tagName (Dom.node_elem n)) "tr"
    && (3 <=? List.length (Dom.before (Dom.self n)))%nat
    && existsb (Dom.matches listing_table) (Dom.chain (Dom.ancestors n)).
Proof.
  unfold Dom.submission_rows. cbn [Dom.matches Dom.matches_compound forallb Dom.matches_simple].
  fold listing_table. now rewrite !andb_true_r.
Qed.

(** Of a plain row inside the table of the listing, the selector takes the
    row itself when three rows or more come before it, and nothing else. *)
Lemma plain_row_select anc bef r :
  Spec.plain_row r = true ->
  existsb (Dom.matches listing_table) (Dom.chain anc) = true ->
  filter (Dom.matches Dom.submission_rows) (Dom.subtree anc bef r)
  = if (3 <=? List.length bef)%nat
    then [{| Dom.self := {| Dom.elem := r; Dom.before := bef |}; Dom.ancestors := anc |}]
    else [].
Proof.
  intros P T. unfold Spec.plain_row in P. apply andb_prop in P. destruct P as [Tr In].
  destruct r as [t a x cs]. cbn [Dom.subtree filter].
  rewrite matches_rows. cbn [Dom.node_elem Dom.self Dom.elem Dom.before Dom.ancestors].
  rewrite Tr, T, andb_true_r. cbn [andb].
  rewrite filter_none; [reflexivity | ].
  intros m Hm. rewrite matches_rows.
  apply (in_map Dom.node_elem) in Hm. rewrite forest_elements in Hm.
  rewrite forallb_forall in In. apply In in Hm.
  apply negb_true_iff in Hm. now rewrite Hm.
Qed.

Lemma rows_select anc bef rows :
  forallb Spec.plain_row rows = true ->
  existsb (Dom.matches listing_table) (Dom.chain anc) = true ->
  filter (Dom.matches Dom.submission_rows) (Dom.forest (Dom.subtree anc) bef rows)
  = skipn (3 - List.length bef) (row_nodes anc bef rows).
Proof.
  intros P T. revert bef. induction rows as [ | r rows IH]; intros bef.
  - now rewrite skipn_nil.
  - cbn [forallb] in P. apply andb_prop in P. destruct P as [Pr P].
    cbn [Dom.forest row_nodes]. rewrite filter_app, (plain_row_select _ _ _ Pr T), (IH P).
    cbn [List.length]. destruct (Nat.leb_spec 3 (List.length bef)) as [L | L].
    + replace (3 - List.length bef) with 0 by lia.
      replace (3 - S (List.length bef)) with 0 by lia. reflexivity.
    + replace (3 - List.length bef) with (S (3 - S (List.length bef))) by lia.
      reflexivity.
Qed.

(** The selector of the rows, on the page of a listing, takes the rows
    after the first three. *)
Lemma select_listing rows :
  forallb Spec.plain_row rows = true ->
  map Dom.node_elem (Dom.select Dom.submission_rows (Pages.listing_page rows))
  = skipn 3 rows.
Proof.
  intros P. unfold Dom.select, Pages.listing_page, Pages.page, Pages.el.
  cbn [Dom.subtree Dom.forest app]. rewrite !app_nil_r.
  repeat (rewrite filter_cons_false by (rewrite matches_rows; reflexivity)).
  rewrite rows_select by (assumption || reflexivity). cbn [List.length Nat.sub].
  now rewrite <- skipn_map, row_nodes_elements.
Qed.









End Rows.

(** ** Rounding to binary64 *)

Section Rounding.
Local Open Scope Q_scope.

















Section Rhe.
Variable t : Q.
Let k := Num.round_half_even t.







End Rhe.

Section Pos.
Variable a : Q.
Hypothesis A : 0 < a.
Let e := Num.exponent_of a.
Let p := Z.max (e - 52) (-1074).
Let P := Num.pow2 p.
Let t := a / P.
Let k := Num.round_half_even t.
Let v := inject_Z k * P.

Lemma round_pos_eq : Num.round_pos a = v.
Proof. reflexivity. Qed.
























End Pos.











Lemma number_for_wd q q' : q == q' -> Num.number_for q = Num.number_for q'.
Proof. intros E. unfold Num.number_for. now rewrite (Qred_complete q q' E). Qed.

End Rounding.

(** ** Numeric coercion *)

Section Numerals.
Import Js Env Shared Aux.
Local Open Scope string_scope.

Lemma in_base_10 c : in_base 10 c = Str.is_digit c.
Proof. destruct c as [[] [] [] [] [] [] [] []]; reflexivity. Qed.

Lemma in_base_16 c : in_base 16 c = Spec.is_hex c.
Proof. destruct c as [[] [] [] [] [] [] [] []]; reflexivity. Qed.

Lemma in_base_8 c : in_base 8 c = Spec.is_octal c.
Proof. destruct c as [[] [] [] [] [] [] [] []]; reflexivity. Qed.

Lemma in_base_2 c : in_base 2 c = Spec.is_binary c.
Proof. destruct c as [[] [] [] [] [] [] [] []]; reflexivity. Qed.

Lemma all_ext p q s : (forall c, p c = q c) -> Str.all p s = Str.all q s.
Proof. intros E. induction s as [ | c s IH]; simpl; [reflexivity | now rewrite E, IH]. Qed.


Lemma digits_all base s : forall acc,
  (exists z, Num.digits base acc s = Some z) <-> Str.all (in_base base) s = true.
Proof.
  induction s as [ | c s IH]; intros acc; cbn [Num.digits Str.all].
  - split; [reflexivity | now exists acc].
  - unfold in_base at 1. destruct (Num.digit_of c) as [d | ].
    + destruct (d <? base)%Z; cbn [andb]; [apply IH | ].
      split; [intros [z H] | intros H]; discriminate.
    + split; [intros [z H] | intros H]; discriminate.
Qed.

Lemma nonempty_digits_all base s :
  (exists z, Num.nonempty_digits base s = Some z) <->
  s <> "" /\ Str.all (in_base base) s = true.
Proof.
  unfold Num.nonempty_digits. destruct s as [ | c s].
  - simpl. split; [intros [z H]; discriminate | intros [H _]; now elim H].
  - cbn [Str.is_empty]. rewrite digits_all. split; [ | tauto].
    intros H. split; [discriminate | exact H].
Qed.

Lemma decimal_digits_iff s :
  (exists z, Num.nonempty_digits 10 s = Some z) <-> Spec.decimal_digits s.
Proof.
  rewrite nonempty_digits_all. unfold Spec.decimal_digits.
  now rewrite (all_ext _ _ s in_base_10).
Qed.

Lemma span_all p s a b : Str.span p s = (a, b) -> Str.all p a = true.
Proof.
  revert a b. induction s as [ | c s IH]; cbn [Str.span]; intros a b.
  - now intros [= <- _].
  - destruct (p c) eqn:E.
    + destruct (Str.span p s) as [a' b'] eqn:S. intros [= <- _]. cbn [Str.all].
      now rewrite E, (IH a' b' eq_refl).
    + now intros [= <- _].
Qed.


Lemma sign_cases s neg u :
  Num.sign s = (neg, u) -> exists sg, s = sg ++ u /\ Spec.is_sign sg.
Proof.
  unfold Num.sign, Spec.is_sign. destruct s as [ | c s].
  - intros [= _ <-]. exists "". tauto.
  - destruct c as [[] [] [] [] [] [] [] []];
      intros [= _ <-];
      first [ now (exists "+"; tauto) | now (exists "-"; tauto) | now (exists ""; tauto) ].
Qed.

Lemma exponent_sound r e : Num.exponent r = Some e -> Spec.optional Spec.exponent_part r.
Proof.
  unfold Num.exponent, Spec.optional. destruct r as [ | c s]; [now left | right].
  destruct (Num.is_in "eE" c) eqn:C; [ | discriminate].
  destruct (Num.sign s) as [neg ds] eqn:S.
  destruct (Num.nonempty_digits 10 ds) as [z | ] eqn:D; [ | discriminate].
  apply sign_cases in S. destruct S as [sg [-> Sg]].
  exists c, sg, ds. split; [reflexivity | split; [ | split; [exact Sg | ]]].
  - unfold Num.is_in in C. cbn [Str.contains] in C.
    destruct (Ascii.eqb_spec c "e") as [-> | ]; [now left | ].
    destruct (Ascii.eqb_spec c "E") as [-> | ]; [now right | discriminate].
  - apply decimal_digits_iff. now exists z.
Qed.

Lemma unsigned_decimal_sound u q :
  Num.unsigned_decimal u = Some q -> Spec.unsigned_decimal u.
Proof.
  unfold Num.unsigned_decimal.
  destruct (Str.span Str.is_digit u) as [ip r1] eqn:S1.
  pose proof (span_all _ _ _ _ S1) as A1. apply span_append in S1. subst u.
  assert (forall fp (rest : option Q),
             (if Str.is_empty ip && Str.is_empty fp then None else rest) = Some q ->
             Str.is_empty ip = false \/ Str.is_empty fp = false) as NE.
  { intros fp rest. destruct (Str.is_empty ip), (Str.is_empty fp); simpl; auto.
    discriminate. }
  assert (forall s, Str.is_empty s = false -> s <> "") as N
    by (intros [ | ] H; [discriminate | discriminate]).
  destruct r1 as [ | c r].
  - intros H. pose proof (NE "" _ H) as [I | F]; [ | discriminate].
    right. right. exists ip, "". split; [reflexivity | ].
    split; [split; [now apply N | exact A1] | now left].
  - destruct (Ascii.eqb_spec c ".") as [-> | Ne].
    + destruct (Str.span Str.is_digit r) as [fp r2] eqn:S2.
      pose proof (span_all _ _ _ _ S2) as A2. apply span_append in S2. subst r.
      intros H. pose proof (NE fp _ H) as E.
      destruct (Str.is_empty ip && Str.is_empty fp); [discriminate | ].
      destruct (Num.digits 10 0 (ip ++ fp)); [ | discriminate].
      destruct (Num.exponent r2) as [e | ] eqn:X; [ | discriminate].
      apply exponent_sound in X.
      destruct (Str.is_empty ip) eqn:I.
      * destruct E as [E | E]; [discriminate | ].
        apply is_empty_true in I. subst ip. right. left. exists fp, r2.
        split; [reflexivity | split; [split; [now apply N | exact A2] | exact X]].
      * left. exists ip, fp, r2.
        split; [reflexivity | split; [split; [now apply N | exact A1] | split; [ | exact X]]].
        destruct fp as [ | c fp]; [now left | right]. split; [discriminate | exact A2].
    + intros H.
      assert ((if Str.is_empty ip && Str.is_empty ""
               then None
               else match Num.digits 10 0 (ip ++ ""), Num.exponent (String c r) with
                    | Some m, Some e =>
                        Some (Qred (inject_Z m
                                    * Qpower (inject_Z 10) (e - Z.of_nat (String.length ""))))
                    | _, _ => None
                    end) = Some q) as H'.
      { destruct c as [[] [] [] [] [] [] [] []]; try exact H. now elim Ne. }
      clear H. pose proof (NE "" _ H') as [I | F]; [ | discriminate].
      rewrite I in H'. cbn [andb] in H'.
      destruct (Num.digits 10 0 (ip ++ "")); [ | discriminate].
      destruct (Num.exponent (String c r)) as [e | ] eqn:X; [ | discriminate].
      apply exponent_sound in X. right. right. exists ip, (String c r).
      split; [reflexivity | split; [split; [now apply N | exact A1] | exact X]].
Qed.

Lemma decimal_sound t : Num.decimal t <> Num.NaN -> Spec.str_decimal t.
Proof.
  unfold Num.decimal. destruct (Num.sign t) as [neg u] eqn:S.
  apply sign_cases in S. destruct S as [sg [-> Sg]].
  destruct (String.eqb_spec u "Infinity") as [-> | Ne].
  - intros _. exists sg, "Infinity". split; [reflexivity | split; [exact Sg | now left]].
  - destruct (Num.unsigned_decimal u) as [q | ] eqn:U; [ | intros H; now elim H].
    intros _. apply unsigned_decimal_sound in U.
    exists sg, u. split; [reflexivity | split; [exact Sg | now right]].
Qed.

Lemma is_in_pair a b c : Num.is_in (String a (String b "")) c = true -> c = a \/ c = b.
Proof.
  unfold Num.is_in. cbn [Str.contains].
  destruct (Ascii.eqb_spec c a) as [-> | ]; [now left | ].
  destruct (Ascii.eqb_spec c b) as [-> | ]; [now right | discriminate].
Qed.

Lemma nondecimal_sound t z : Num.nondecimal t = Some z -> Spec.non_decimal t.
Proof.
  unfold Num.nondecimal. destruct t as [ | c0 [ | c ds]]; try discriminate.
  - destruct c0 as [[] [] [] [] [] [] [] []]; discriminate.
  - intros H.
    assert (c0 = "0"%char /\
            (if Num.is_in "xX" c then Num.nonempty_digits 16 ds
             else if Num.is_in "oO" c then Num.nonempty_digits 8 ds
                  else if Num.is_in "bB" c then Num.nonempty_digits 2 ds else None)
            = Some z) as [-> H'].
    { destruct c0 as [[] [] [] [] [] [] [] []]; try discriminate H. now split. }
    clear H. exists c, ds. split; [reflexivity | ].
    destruct (Num.is_in "xX" c) eqn:X.
    { assert (exists z, Num.nonempty_digits 16 ds = Some z) as D by now exists z.
      apply nonempty_digits_all in D. destruct D as [N D].
      rewrite (all_ext _ _ ds in_base_16) in D.
      split; [exact N | left]. split; [now apply is_in_pair | exact D]. }
    destruct (Num.is_in "oO" c) eqn:O.
    { assert (exists z, Num.nonempty_digits 8 ds = Some z) as D by now exists z.
      apply nonempty_digits_all in D. destruct D as [N D].
      rewrite (all_ext _ _ ds in_base_8) in D.
      split; [exact N | right; left]. split; [now apply is_in_pair | exact D]. }
    destruct (Num.is_in "bB" c) eqn:B; [ | discriminate].
    assert (exists z, Num.nonempty_digits 2 ds = Some z) as D by now exists z.
    apply nonempty_digits_all in D. destruct D as [N D].
    rewrite (all_ext _ _ ds in_base_2) in D.
    split; [exact N | right; right]. split; [now apply is_in_pair | exact D].
Qed.

(** A literal has a value only if it is a valid numeral. *)
Lemma value_sound x : Num.value x <> Num.NaN -> Spec.numeral x.
Proof.
  unfold Num.value, Spec.numeral.
  destruct (Str.is_empty (Str.trim x)) eqn:E.
  - intros _. left. now apply is_empty_true.
  - destruct (Num.nondecimal (Str.trim x)) as [z | ] eqn:N.
    + intros _. right. left. now apply nondecimal_sound in N.
    + intros H. right. right. now apply decimal_sound.
Qed.















Lemma round_NaN n : Num.round n = Num.NaN <-> n = Num.NaN.
Proof.
  destruct n as [ | neg | q]; cbn [Num.round]; [tauto | split; discriminate | ].
  unfold Num.number_for. split; [ | discriminate].
  destruct (Qeq_bool (Qred q) 0); [discriminate | ].
  destruct (Qle_bool _ _); discriminate.
Qed.

(** [+x] is a number only if [x] is a valid numeral. *)
Lemma ToNumber_sound x : Num.ToNumber x <> Num.NaN -> Spec.numeral x.
Proof. unfold Num.ToNumber. rewrite round_NaN. apply value_sound. Qed.


(** [+x] is [NaN] for every [x] that is no valid numeral. *)
Lemma not_numeral_NaN x : ~ Spec.numeral x -> Num.unary_plus x = Num.NaN.
Proof.
  intros N. unfold Num.unary_plus.
  destruct (Num.ToNumber x) eqn:E; [reflexivity | | ];
    elim N; apply ToNumber_sound; rewrite E; discriminate.
Qed.

(** *** The value of a numeral *)

Lemma digit_of_value c d : Num.digit_of c = Some d -> d = Spec.digit_value c.
Proof.
  destruct c as [[] [] [] [] [] [] [] []]; vm_compute; intros [= <-]; reflexivity.
Qed.

Lemma digits_value base s : forall acc z,
  Num.digits base acc s = Some z ->
  z = (acc * base ^ Z.of_nat (String.length s) + Spec.digits_value base s)%Z.
Proof.
  induction s as [ | c s IH]; intros acc z; cbn [Num.digits String.length Spec.digits_value].
  - intros [= <-]. cbn. lia.
  - destruct (Num.digit_of c) as [d | ] eqn:D; [ | discriminate].
    destruct (d <? base)%Z; [ | discriminate]. intros H. apply IH in H.
    apply digit_of_value in D. subst d. rewrite H, Nat2Z.inj_succ, Z.pow_succ_r by lia.
    ring.
Qed.






Section Values.
Local Open Scope Q_scope.










End Values.





End Numerals.

(** * Further properties *)

(** ** Rejections at a fan-out *)

Section Rejections.
Import Js Env Shared.
Variable A : Type.
Variable tasks : list (outcome A).

Lemma settled_stays order (st : all_state A) :
  settled st <> Pending -> fold_left (settle_one tasks) order st = st.
Proof.
  intros H. induction order as [ | i order IH]; simpl; [reflexivity | ].
  replace (settle_one tasks st i) with st; [exact IH | ].
  unfold settle_one. destruct (settled st); [reflexivity | reflexivity | now elim H].
Qed.

Lemma none_rejected order :
  (forall j t, nth_error tasks j = Some t -> exists v, t = Fulfilled v) ->
  Behaviour.first_rejected tasks order = None.
Proof.
  intros F. induction order as [ | i order IH]; simpl; [reflexivity | ].
  destruct (nth_error tasks i) as [t | ] eqn:T; [ | exact IH].
  destruct (F i t T) as [v ->]. exact IH.
Qed.

Lemma fulfilled_state_tasks seen (st : all_state A) rs :
  Aux.all_inv tasks seen st -> settled st = Fulfilled rs ->
  forall j t, nth_error tasks j = Some t -> exists v, t = Fulfilled v.
Proof.
  intros [L V C D P] S j t T. apply D in S.
  assert (j < List.length tasks) as Lt by (apply nth_error_Some; congruence).
  rewrite <- L, S, length_map in Lt.
  destruct (nth_error rs j) as [v | ] eqn:R; [ | apply nth_error_None in R; lia].
  destruct (V j v) as [Tv _]; [now rewrite S, nth_error_map, R | ].
  exists v. congruence.
Qed.

Lemma fold_rejected order : forall seen (st : all_state A) e,
  Aux.all_inv tasks seen st ->
  (forall e', settled st <> Rejected e') ->
  settled (fold_left (settle_one tasks) order st) = Rejected e <->
  Behaviour.first_rejected tasks order = Some e.
Proof.
  induction order as [ | i order IH]; intros seen st e I NR.
  - simpl. split; [intros H; now elim (NR e) | discriminate].
  - destruct (settled st) as [rs | e' | ] eqn:S; [ | now elim (NR e') | ].
    + rewrite settled_stays by (rewrite S; discriminate).
      rewrite none_rejected by (now apply (fulfilled_state_tasks seen st rs)).
      rewrite S. split; discriminate.
    + cbn [fold_left Behaviour.first_rejected].
      pose proof (all_inv_step A tasks seen st i I) as I'.
      destruct (nth_error tasks i) as [[v | e' | ] | ] eqn:T.
      * apply (IH (i :: seen)); [exact I' | ].
        unfold settle_one. rewrite S, T.
        destruct (nth_error (values st) i) as [[w | ] | ]; intros e'; cbn [settled];
          try (rewrite S; discriminate).
        destruct (Nat.eqb _ _); discriminate.
      * assert (settle_one tasks st i
                = {| values := values st; remaining := remaining st;
                     settled := Rejected e' |}) as ->
          by (unfold settle_one; now rewrite S, T).
        rewrite settled_stays by (cbn [settled]; discriminate).
        cbn [settled]. split; congruence.
      * assert (settle_one tasks st i = st) as ->
          by (unfold settle_one; now rewrite S, T).
        apply (IH seen); [exact I | ]. intros e'. rewrite S. discriminate.
      * assert (settle_one tasks st i = st) as ->
          by (unfold settle_one; now rewrite S, T).
        apply (IH seen); [exact I | ]. intros e'. rewrite S. discriminate.
Qed.

(** [Promise.all] is rejected exactly when a rejected promise settles, and
    then with the error of the first of them to settle. *)
Lemma Promise_all_rejected order e :
  Promise_all order tasks = Rejected e <-> Behaviour.first_rejected tasks order = Some e.
Proof.
  unfold Promise_all. apply (fold_rejected order []); [apply all_inv_start | ].
  intros e'. unfold all_start. cbn [settled]. destruct (Nat.eqb _ _); discriminate.
Qed.

End Rejections.

(** ** The log and the output file of a run *)

Section Logs.
Import Js Env Shared.

(** Closes a goal on the log of [discover] stopped after the lines [l]. *)
Ltac stopped l :=
  intros [= <- <-]; split; [reflexivity | ];
  exists l; split; [cbn [console map]; rewrite <- ?app_assoc, ?app_nil_r; reflexivity | ];
  split; [simpl; lia | discriminate].

Lemma discover_log w scrap fx0 fx o :
  discover w scrap fx0 = (fx, o) ->
  files fx = files fx0 /\
  exists infos,
    console fx = console fx0 ++ map Info infos /\
    List.length infos <= 5 /\
    forall creds cats,
      o = Fulfilled (creds, cats) ->
      infos = firstn 5 (Behaviour.lines (username creds) (map Category.name cats) scrap) /\
      readCredentials w = Fulfilled creds /\
      exists page home,
        goto w ENTRY = Fulfilled page /\
        logIn w page (username creds) (password creds) = Fulfilled home /\
        scrapeSubmissionCategories home = Fulfilled cats.
Proof.
  unfold discover, then_, await, log_info, ret.
  destruct (launch w) as [[] | e | ];
    [ | stopped (@nil string) .. ].
  cbn [console files].
  destruct (goto w ENTRY) as [page | e | ] eqn:G;
    [ | stopped ["Loading precisionconference.com/~sigchi..."] .. ].
  destruct (readCredentials w) as [c | e | ] eqn:R;
    [ | stopped ["Loading precisionconference.com/~sigchi..."] .. ].
  cbn [console files].
  destruct (logIn w page (username c) (password c)) as [home | e | ] eqn:L;
    [ | stopped ["Loading precisionconference.com/~sigchi...";
                 ("Logging as " ++ username c ++ ".")%string] .. ].
  cbn [console files].
  destruct (scrapeSubmissionCategories home) as [cats | e | ] eqn:S;
    [ | stopped ["Loading precisionconference.com/~sigchi...";
                 ("Logging as " ++ username c ++ ".")%string; "Look for reviews..."] .. ].
  cbn [console files].
  intros [= <- <-]. split; [reflexivity | ].
  exists (firstn 5 (Behaviour.lines (username c) (map Category.name cats) scrap)).
  split; [cbn [console map firstn Behaviour.lines]; rewrite <- ?app_assoc; reflexivity | ].
  split; [simpl; lia | ].
  intros creds cats' [= <- <-]. split; [reflexivity | split; [reflexivity | ]].
  now exists page, home.
Qed.

(** How [finish] ends: without the file when the write fails, else with
    the file written and the outcome of closing the browser. *)
Lemma finish_cases w doc fx0 fx o :
  finish w doc fx0 = (fx, o) ->
  (fx = fx0 /\ o <> Fulfilled tt /\ writeFile w OUTPUT_FILE doc <> Fulfilled tt) \/
  (fx = {| console := console fx0 ++ [Info "Data written in reviews.json."];
           files := files fx0 ++ [(OUTPUT_FILE, doc)] |} /\
   writeFile w OUTPUT_FILE doc = Fulfilled tt /\ o = close w).
Proof.
  unfold finish, then_, write, log_info, await.
  destruct (writeFile w OUTPUT_FILE doc) as [[] | e | ].
  - cbn [console files]. intros [= <- <-]. now right.
  - intros [= <- <-]. left. repeat split; discriminate.
  - intros [= <- <-]. left. repeat split; discriminate.
Qed.

(** What a run leaves, whatever its outcome [o]: at most six lines of
    log; no file unless the write succeeded, and then the one document
    [doc], the outcome being that of closing the browser. *)
Lemma run_cases {D} w scrap (fan : credentials -> list Category.link -> outcome D)
      (doc : credentials -> D -> Json.json) fx o :
  then_ (discover w scrap) (fun '(creds, categories) =>
  then_ (await (fan creds categories)) (fun data => finish w (doc creds data))) start
  = (fx, o) ->
  exists infos,
    console fx = map Info infos /\ List.length infos <= 6 /\
    ((files fx = [] /\ o <> Fulfilled tt) \/
     (exists creds cats data,
         discover w scrap start
         = ({| console := map Info (firstn 5 infos); files := [] |},
            Fulfilled (creds, cats)) /\
         fan creds cats = Fulfilled data /\
         infos = Behaviour.lines (username creds) (map Category.name cats) scrap /\
         files fx = [(OUTPUT_FILE, doc creds data)] /\
         writeFile w OUTPUT_FILE (doc creds data) = Fulfilled tt /\
         o = close w)).
Proof.
  unfold then_ at 1.
  destruct (discover w scrap start) as [fx1 o1] eqn:D1.
  destruct (discover_log _ _ _ _ _ D1) as [F [infos [C [Len K]]]].
  cbn [console files start app] in C, F.
  destruct o1 as [[creds cats] | e | ].
  - destruct (K creds cats eq_refl) as [-> _].
    unfold then_ at 1, await.
    destruct (fan creds cats) as [data | e | ] eqn:P.
    + intros H. apply finish_cases in H. destruct H as [[-> [N _]] | [-> [W ->]]].
      * eexists. split; [exact C | split; [simpl; lia | left; split; assumption]].
      * exists (Behaviour.lines (username creds) (map Category.name cats) scrap).
        cbn [console files]. rewrite C, F.
        split; [reflexivity | split; [simpl; lia | right]].
        exists creds, cats, data. split; [ | now repeat split].
        f_equal. destruct fx1 as [c f]. cbn [console files] in C, F. now subst.
    + intros [= <- <-]. eexists.
      split; [exact C | split; [simpl; lia | left; split; [exact F | discriminate]]].
    + intros [= <- <-]. eexists.
      split; [exact C | split; [simpl; lia | left; split; [exact F | discriminate]]].
  - intros [= <- <-]. exists infos.
    split; [exact C | split; [lia | left; split; [exact F | discriminate]]].
  - intros [= <- <-]. exists infos.
    split; [exact C | split; [lia | left; split; [exact F | discriminate]]].
Qed.

End Logs.

Section Runs2.
Import Js Env Shared.

Lemma written_last_of_cases {D} w scrap
      (fan : credentials -> list Category.link -> outcome D)
      (doc : credentials -> D -> Json.json) :
  Behaviour.written_last w
    (then_ (discover w scrap) (fun '(creds, categories) =>
     then_ (await (fan creds categories)) (fun data => finish w (doc creds data))) start).
Proof.
  destruct (then_ _ _ start) as [fx o] eqn:E. apply run_cases in E.
  destruct E as [infos [_ [_ [[F N] | [creds [cats [data [_ [_ [_ [F [W O]]]]]]]]]]]].
  - now left.
  - right. now exists (doc creds data).
Qed.

(** X1: no revision writes a partial result.  A run that stops before the
    end, rejected or pending, has written no file; the output file is
    written once, after every category, submission and review is in, and
    the run then ends as closing the browser ends. *)
Theorem output_is_written_last (w : world) :
  (forall s, Behaviour.written_last w (Main.main w s start)) /\
  (forall s, Behaviour.written_last w (AwardRun.main w s start)) /\
  (forall order, Behaviour.written_last w (Listing.main w order start)).
Proof.
  split; [ | split]; intros s.
  - exact (written_last_of_cases w "Scrape reviews..."
             (fun _ cats => Promise_all (order_of s) (mapi (Main.withSubmissions w s) cats))
             (Main.document w)).
  - exact (written_last_of_cases w "Scrape reviews..."
             (fun _ cats => Promise_all (order_of s) (mapi (AwardRun.withSubmissions w s) cats))
             (AwardRun.document w)).
  - exact (written_last_of_cases w "Scrap reviews..."
             (fun _ cats => Promise_all s (map (Listing.categoryData w) cats))
             (Listing.document w)).
Qed.



(** X3: a run that fails logs the error as its last line, after at most
    six lines of progress. *)
Theorem failed_run_log (w : world) :
  (forall s fx e,
      Main.main w s start = (fx, Rejected e) ->
      exists infos,
        console (trace (Main.run w s)) = map Info infos ++ [Failure e] /\
        List.length infos <= 6) /\
  (forall order fx e,
      Listing.main w order start = (fx, Rejected e) ->
      exists infos,
        console (trace (Listing.run w order)) = map Info infos ++ [Failure e] /\
        List.length infos <= 6).
Proof.
  split.
  - intros s fx e E. unfold Main.run, catch_exit. rewrite E. cbn [trace log_error console].
    apply run_cases in E. destruct E as [infos [C [L _]]].
    exists infos. now rewrite C.
  - intros s fx e E. unfold Listing.run, catch_exit. rewrite E.
    cbn [trace log_error console].
    apply run_cases in E. destruct E as [infos [C [L _]]].
    exists infos. now rewrite C.
Qed.

Lemma failed_run_log_witness :
  console (trace (Main.run Scenario.offline Scenario.orders))
  = [Info "Loading precisionconference.com/~sigchi...";
     Failure (Error "net::ERR_INTERNET_DISCONNECTED")] /\
  console (trace (Listing.run Scenario.offline [0]))
  = [Info "Loading precisionconference.com/~sigchi...";
     Failure (Error "net::ERR_INTERNET_DISCONNECTED")].
Proof.
  split.
  - destruct (proj1 (failed_run_log Scenario.offline) Scenario.orders
                {| console := [Info "Loading precisionconference.com/~sigchi..."];
                   files := [] |}
                (Error "net::ERR_INTERNET_DISCONNECTED") eq_refl) as [infos [C _]].
    reflexivity.
  - destruct (proj2 (failed_run_log Scenario.offline) [0]
                {| console := [Info "Loading precisionconference.com/~sigchi..."];
                   files := [] |}
                (Error "net::ERR_INTERNET_DISCONNECTED") eq_refl) as [infos [C _]].
    reflexivity.
Defined.

End Runs2.

Section FailFast.
Import Js Env Shared.

(** X4: the reviews of a submission, and the submissions of a category,
    are rejected exactly when one of the operations launched is rejected
    and settles, and then with the error of the first of them to settle:
    one review page that fails rejects the whole list, whatever the other
    reviews gave. *)
Theorem fan_out_fails_fast (w : world) :
  (forall order address page links,
      goto w address = Fulfilled page ->
      Main.reviewAddresses page = Fulfilled links ->
      forall e,
        Main.scrapeSubmissionReviews w order address = Rejected e <->
        Behaviour.first_rejected
          (map (fun l => Main.scrapeSubmissionReview w (Main.address l) (Main.isUser l)) links)
          order = Some e) /\
  (forall s address page rows,
      goto w address = Fulfilled page ->
      Main.submissionRows page = Fulfilled rows ->
      forall e,
        Main.scrapeSubmissions w s address = Rejected e <->
        Behaviour.first_rejected (mapi (Main.withReviews w s) rows) (order_of s) = Some e).
Proof.
  split.
  - intros order address page links G L e.
    unfold Main.scrapeSubmissionReviews. rewrite G. cbn [bind]. rewrite L. cbn [bind].
    apply Promise_all_rejected.
  - intros s address page rows G R e.
    unfold Main.scrapeSubmissions. rewrite G. cbn [bind]. rewrite R. cbn [bind].
    apply Promise_all_rejected.
Qed.

Lemma fan_out_fails_fast_witness :
  Main.scrapeSubmissionReviews Sites.broken [0; 1] "/rev/123"
  = Rejected (Error "net::ERR_ABORTED") /\
  Main.scrapeSubmissions Sites.broken (inner_of Scenario.busy_orders 0) "/cat/1"
  = Rejected (Error "net::ERR_ABORTED").
Proof.
  destruct (fan_out_fails_fast Sites.broken) as [R S].
  split.
  - destruct (Main.reviewAddresses Scenario.busy_reviews) as [links | | ] eqn:L;
      [ | vm_compute in L; discriminate .. ].
    apply (R [0; 1] "/rev/123" Scenario.busy_reviews links eq_refl L).
    vm_compute in L. injection L as <-. vm_compute. reflexivity.
  - destruct (Main.submissionRows Scenario.busy_listing) as [rows | | ] eqn:L;
      [ | vm_compute in L; discriminate .. ].
    apply (S (inner_of Scenario.busy_orders 0) "/cat/1" Scenario.busy_listing rows eq_refl L).
    vm_compute in L. injection L as <-. vm_compute. reflexivity.
Defined.

(** X5: a run that finds no category still succeeds, whatever the
    schedule: it logs "Found 0 review categories: ." and writes the
    envelope with an empty array; it ends as closing the browser ends. *)
Theorem run_without_categories (w : world) (s : schedule) page creds home :
  launch w = Fulfilled tt ->
  goto w ENTRY = Fulfilled page ->
  readCredentials w = Fulfilled creds ->
  logIn w page (username creds) (password creds) = Fulfilled home ->
  Dom.select Dom.category_links home = [] ->
  writeFile w OUTPUT_FILE (envelope w creds "reviewCategories" []) = Fulfilled tt ->
  Main.main w s start
  = ({| console :=
          [ Info "Loading precisionconference.com/~sigchi...";
            Info ("Logging as " ++ username creds ++ ".");
            Info "Look for reviews...";
            Info "Found 0 review categories: .";
            Info "Scrape reviews...";
            Info "Data written in reviews.json." ];
        files := [(OUTPUT_FILE, envelope w creds "reviewCategories" [])] |},
     close w).
Proof.
  intros La G R L S W.
  unfold Main.main, discover, then_, await, log_info, ret, finish, write.
  rewrite La. cbn [console files start app]. rewrite G, R. cbn [console files app].
  rewrite L. unfold scrapeSubmissionCategories, eval_all. rewrite S.
  cbn [traverse map console files app mapi mapi_from List.length].
  unfold Promise_all. cbn [List.length all_start Nat.eqb settled].
  rewrite settled_stays by (cbn [settled]; discriminate).
  change (settled (all_start Main.CategoryData.t 0))
    with (Fulfilled (@nil Main.CategoryData.t)).
  cbv beta iota. unfold then_, Main.document. cbn [map]. rewrite W. reflexivity.
Qed.

Lemma run_without_categories_witness :
  files (trace (Main.run Sites.idle (Schedule [3; 1] [])))
  = [(OUTPUT_FILE,
      envelope Sites.idle {| username := "jane"; password := "secret" |}
               "reviewCategories" [])].
Proof.
  unfold Main.run, catch_exit.
  rewrite (run_without_categories Sites.idle (Schedule [3; 1] []) Scenario.entry
             {| username := "jane"; password := "secret" |} Sites.empty_home
             eq_refl eq_refl eq_refl eq_refl eq_refl eq_refl).
  reflexivity.
Defined.

End FailFast.

(** ** Scales, again *)

Section Scales2.
Import Js Env Shared.
Local Open Scope string_scope.

Lemma exec_found r pre s :
  (exists m, RegExp.rmatch r s [] (fun rest cs => Some ((0, Str.consumed s rest) :: cs))
             = Some m) ->
  exists m, RegExp.exec r (pre ++ s) = Some m.
Proof.
  intros [m M]. induction pre as [ | c pre IH]; cbn [append].
  - destruct s as [ | c s]; cbn [RegExp.exec]; rewrite M; now exists m.
  - cbn [RegExp.exec]. destruct (RegExp.rmatch r (String c (pre ++ s)) [] _) as [m' | ].
    + now exists m'.
    + exact IH.
Qed.

Lemma rmatch_lit_app A l r s cs (k : string -> RegExp.captures -> option A) :
  RegExp.rmatch (RegExp.lit l r) (l ++ s) cs k = RegExp.rmatch r s cs k.
Proof.
  induction l as [ | c l IH]; cbn [RegExp.lit RegExp.rmatch append]; [reflexivity | ].
  now rewrite Ascii.eqb_refl.
Qed.

Lemma scale_num_succeeds A n x rest cs (k : string -> RegExp.captures -> option A) :
  Spec.scale_numeral x ->
  (forall cs', exists a, k rest cs' = Some a) ->
  exists a, RegExp.rmatch (RegExp.Grp n RegExp.scale_num) (x ++ rest) cs k = Some a.
Proof.
  intros [[d [-> D]] | [d [d' [-> [D D']]]]] K; unfold RegExp.scale_num;
    cbn [RegExp.rmatch append]; rewrite D.
  - match goal with
    | |- exists a, match ?X with Some _ => _ | None => _ end = _ => destruct X as [a | ]
    end; [now exists a | apply K].
  - rewrite Ascii.eqb_refl, D'.
    match goal with
    | |- exists a, match ?X with Some _ => _ | None => _ end = _ =>
        destruct X as [a | ] eqn:E
    end; [now exists a | ].
    destruct (K ((n, Str.consumed (String d (String "." (String d' rest))) rest) :: cs))
      as [a Ha].
    congruence.
Qed.

Lemma scale_found text : Behaviour.scale_occurs text -> Main.scaleOf text <> None.
Proof.
  intros [pre [x [y [post [-> [X Y]]]]]]. unfold Main.scaleOf.
  destruct (exec_found RegExp.scale_re pre ("scale is " ++ x ++ ".." ++ y ++ post))
    as [m ->]; [ | discriminate].
  unfold RegExp.scale_re. rewrite rmatch_lit_app, rmatch_cat.
  apply scale_num_succeeds; [exact X | ]. intros cs'.
  change (RegExp.Cat (RegExp.Chr ".") (RegExp.Cat (RegExp.Chr ".")
                                                  (RegExp.Grp 2 RegExp.scale_num)))
    with (RegExp.lit ".." (RegExp.Grp 2 RegExp.scale_num)).
  rewrite rmatch_lit_app. apply scale_num_succeeds; [exact Y | ].
  intros cs''. eauto.
Qed.

Lemma scaleOf_absent text : Main.scaleOf text = None <-> ~ Behaviour.scale_occurs text.
Proof.
  split.
  - intros N O. now apply scale_found in O.
  - intros N. destruct (Main.scaleOf text) as [scale | ] eqn:E; [ | reflexivity].
    apply scaleOf_read in E. destruct E as [pre [x [y [post [T [X [Y _]]]]]]].
    elim N. now exists pre, x, y, post.
Qed.

(** X6: the rating scale and the expertise scale of a review are absent
    ([null]) exactly when the text of their cell has no "scale is x..y",
    [x] and [y] each a digit with at most one decimal digit. *)
Theorem scale_absent_without_pattern body r :
  Main.reviewOfBody body = Fulfilled r ->
  exists ratingTd expertiseTd,
    Main.cell (Main.infoCells body) 2 = Some ratingTd /\
    Main.cell (Main.infoCells body) 3 = Some expertiseTd /\
    (Main.Review.ratingScale r = None <-> ~ Behaviour.scale_occurs (text ratingTd)) /\
    (Main.Review.expertiseScale r = None <-> ~ Behaviour.scale_occurs (text expertiseTd)).
Proof.
  intros H. unfold Main.reviewOfBody in H.
  destruct (Main.cell (Main.infoCells body) 0) as [reviewerTd | ]; [ | discriminate].
  destruct (Main.cell (Main.infoCells body) 2) as [ratingTd | ]; [ | discriminate].
  destruct (Main.cell (Main.infoCells body) 3) as [expertiseTd | ]; [ | discriminate].
  cbn [bind defined] in H.
  repeat match type of H with
         | bind ?x _ = Fulfilled _ => destruct x; cbn [bind] in H; try discriminate H
         end.
  injection H as <-. cbn [Main.Review.ratingScale Main.Review.expertiseScale].
  exists ratingTd, expertiseTd.
  split; [reflexivity | split; [reflexivity | split]]; apply scaleOf_absent.
Qed.

Lemma scale_absent_without_pattern_witness :
  exists body r,
    Scenario.body_of Scenario.review = Some body /\
    Main.reviewOfBody body = Fulfilled r /\
    Main.Review.expertiseScale r = None /\
    ~ Behaviour.scale_occurs "4".
Proof.
  destruct (Scenario.body_of Scenario.review) as [body | ] eqn:B;
    [ | vm_compute in B; discriminate].
  vm_compute in B. injection B as B.
  destruct (Main.reviewOfBody body) as [r | | ] eqn:E;
    [ | subst body; vm_compute in E; discriminate .. ].
  destruct (scale_absent_without_pattern body r E) as [ratingTd [expertiseTd [R [X [_ SX]]]]].
  exists body, r. split; [reflexivity | split; [exact E | ]].
  subst body. vm_compute in X. injection X as <-.
  vm_compute in E. injection E as <-.
  split; [reflexivity | ]. exact (proj1 SX eq_refl).
Defined.

Lemma scale_num_single A n d rest cs (k : string -> RegExp.captures -> option A) :
  Str.is_digit d = true -> Behaviour.no_fraction rest = true ->
  RegExp.rmatch (RegExp.Grp n RegExp.scale_num) (String d rest) cs k
  = k rest ((n, String d "") :: cs).
Proof.
  intros D F. unfold RegExp.scale_num. cbn [RegExp.rmatch]. rewrite D.
  assert (Str.consumed (String d rest) rest = String d "") as ->
    by apply (consumed_append (String d "") rest).
  destruct rest as [ | c [ | d' rest]]; [reflexivity | | ].
  - now destruct (Ascii.eqb "." c).
  - destruct (Ascii.eqb_spec "." c) as [<- | Ne]; [ | reflexivity].
    cbn [Behaviour.no_fraction] in F. apply negb_true_iff in F. now rewrite F.
Qed.

Lemma exec_skip pre s :
  Str.contains "s" pre = false ->
  RegExp.exec RegExp.scale_re (pre ++ s) = RegExp.exec RegExp.scale_re s.
Proof.
  induction pre as [ | c pre IH]; [reflexivity | ].
  cbn [Str.contains]. intros H. apply orb_false_elim in H. destruct H as [C H].
  cbn [append RegExp.exec]. unfold RegExp.scale_re at 1.
  cbn [RegExp.lit RegExp.rmatch]. rewrite C. now apply IH.
Qed.

(** X7: the pattern reads one digit, with at most one decimal digit, on
    each side of "..": of "scale is a..b" followed by anything but a
    decimal, the scale is [a, b] for the digits [a] and [b], so that a
    scale written "1..10" is read as [1, 1]. *)
Theorem scale_reads_one_digit pre a b rest :
  Str.contains "s" pre = false ->
  Str.is_digit a = true -> Str.is_digit b = true ->
  Behaviour.no_fraction rest = true ->
  Main.scaleOf (pre ++ "scale is " ++ String a (".." ++ String b rest))
  = Some (Num.unary_plus (String a ""), Num.unary_plus (String b "")).
Proof.
  intros P Da Db F. unfold Main.scaleOf. rewrite (exec_skip pre _ P).
  change ("scale is " ++ String a (".." ++ String b rest))
    with (String "s" ("cale is " ++ String a (".." ++ String b rest))).
  cbn [RegExp.exec].
  change (String "s" ("cale is " ++ String a (".." ++ String b rest)))
    with ("scale is " ++ String a (".." ++ String b rest)).
  unfold RegExp.scale_re. rewrite rmatch_lit_app, rmatch_cat.
  rewrite (scale_num_single _ 1 a (".." ++ String b rest) _ _ Da eq_refl).
  change (RegExp.Cat (RegExp.Chr ".") (RegExp.Cat (RegExp.Chr ".")
                                                  (RegExp.Grp 2 RegExp.scale_num)))
    with (RegExp.lit ".." (RegExp.Grp 2 RegExp.scale_num)).
  rewrite rmatch_lit_app, (scale_num_single _ 2 b rest _ _ Db F).
  reflexivity.
Qed.

Lemma scale_reads_one_digit_witness :
  Main.scaleOf "3 (scale is 1..10)" = Some (Num.of_Z 1, Num.of_Z 1).
Proof.
  exact (scale_reads_one_digit "3 (" "1" "1" "0)" eq_refl eq_refl eq_refl eq_refl).
Defined.

End Scales2.

(** ** Review links and rows *)

Section Links.
Import Js Env Shared.
Local Open Scope string_scope.

Lemma prefix_append a s : prefix a s = true <-> exists post, s = a ++ post.
Proof.
  revert s. induction a as [ | c a IH]; intros s.
  - split; [intros _; now exists s | intros _; now destruct s].
  - destruct s as [ | c' s]; cbn [prefix append];
      [split; [discriminate | intros [post H]; discriminate] | ].
    destruct (ascii_dec c c') as [<- | Ne].
    + rewrite IH. split; intros [post H]; exists post; congruence.
    + split; [discriminate | intros [post H]; congruence].
Qed.

(** [s.includes(sub)] is true exactly when [sub] occurs in [s]. *)
Lemma includes_occurs sub s : Str.includes sub s = true <-> Behaviour.occurs sub s.
Proof.
  unfold Behaviour.occurs. induction s as [ | c s IH]; cbn [Str.includes].
  - rewrite orb_false_r, prefix_append. split.
    + intros [post H]. now exists "", post.
    + intros [[ | c pre] [post H]]; [now exists post | discriminate].
  - rewrite orb_true_iff, prefix_append, IH. split.
    + intros [[post H] | [pre [post H]]]; [now exists "", post | ].
      exists (String c pre), post. cbn [append]. congruence.
    + intros [[ | c' pre] [post H]]; [left; now exists post | right].
      exists pre, post. cbn [append] in H. congruence.
Qed.

(** X8: the reviews of a submission are flagged as the user's own by the
    text of their links: review [i] has [isUser] true exactly when "(you)"
    occurs in the text of link [i] of the review list. *)
Theorem own_review_flag w order address page reviews :
  goto w address = Fulfilled page ->
  Main.scrapeSubmissionReviews w order address = Fulfilled reviews ->
  List.length reviews = List.length (Dom.select Dom.review_links page) /\
  forall i r,
    nth_error reviews i = Some r ->
    exists link,
      nth_error (Dom.select Dom.review_links page) i = Some link /\
      (Main.Review.isUser r = true <-> Behaviour.occurs "(you)" (text link)).
Proof.
  intros G H. unfold Main.scrapeSubmissionReviews in H. rewrite G in H.
  unfold Main.reviewAddresses, eval_all in H. cbn [bind] in H.
  apply Promise_all_fulfilled in H. destruct H as [H _].
  rewrite map_map in H.
  assert (List.length reviews = List.length (Dom.select Dom.review_links page)) as L
    by (rewrite <- (length_map (@Fulfilled Main.Review.t)), <- H; apply length_map).
  split; [exact L | ]. intros i r R.
  destruct (nth_error (Dom.select Dom.review_links page) i) as [link | ] eqn:N.
  - exists link. split; [reflexivity | ].
    assert (nth_error (map (@Fulfilled Main.Review.t) reviews) i = Some (Fulfilled r)) as E
      by now rewrite nth_error_map, R.
    rewrite <- H, nth_error_map, N in E. cbn [option_map] in E. injection E as E.
    apply review_number_on_page in E. destruct E as [-> _].
    cbn [Main.reviewAddressOf Main.isUser]. apply includes_occurs.
  - apply nth_error_None in N. assert (nth_error reviews i <> None) as S by congruence.
    apply nth_error_Some in S. lia.
Qed.

Lemma own_review_flag_witness :
  exists reviews,
    Main.scrapeSubmissionReviews Scenario.busy [1; 0] "/rev/123" = Fulfilled reviews /\
    map Main.Review.isUser reviews = [true; false] /\
    Behaviour.occurs "(you)" "Review 1 (you)".
Proof.
  destruct (Main.scrapeSubmissionReviews Scenario.busy [1; 0] "/rev/123")
    as [reviews | | ] eqn:E; [ | vm_compute in E; discriminate .. ].
  destruct (own_review_flag Scenario.busy [1; 0] "/rev/123" Scenario.busy_reviews reviews
              eq_refl E) as [L F].
  exists reviews. split; [reflexivity | ].
  vm_compute in E. injection E as <-. split; [reflexivity | ].
  destruct (F 0 _ eq_refl) as [link [N U]].
  vm_compute in N. injection N as <-. now apply U.
Defined.


End Links.

(** ** Listings at their edges, and the first revision *)

Section Listings.
Import Js Env Shared.

Lemma select_short page :
  (forall n, In n (Dom.subtree [] [] page) ->
             Dom.tagName (Dom.node_elem n) = "tr"%string ->
             List.length (Dom.before (Dom.self n)) < 3) ->
  Dom.select Dom.submission_rows page = [].
Proof.
  intros H. unfold Dom.select. apply filter_none. intros n I.
  rewrite matches_rows.
  destruct (String.eqb_spec (Dom.tagName (Dom.node_elem n)) "tr") as [T | T];
    [ | reflexivity].
  specialize (H n I T). cbn [andb].
  destruct (Nat.leb_spec 3 (List.length (Dom.before (Dom.self n)))); [lia | reflexivity].
Qed.

(** X10: a page on which no row has three elements or more before it in
    its own parent gives the empty list of submissions in every revision,
    without an error, whatever the rows hold: none of their cells is
    read. *)
Theorem short_listing_is_empty (page : Dom.document) :
  (forall n, In n (Dom.subtree [] [] page) ->
             Dom.tagName (Dom.node_elem n) = "tr"%string ->
             List.length (Dom.before (Dom.self n)) < 3) ->
  Listing.fetchSubmissionList page = Fulfilled [] /\
  Main.submissionRows page = Fulfilled [] /\
  AwardRun.submissionRows page = Fulfilled [] /\
  forall order, First.fetchSubmissionList order page = Fulfilled [].
Proof.
  intros H.
  unfold Listing.fetchSubmissionList, Main.submissionRows, AwardRun.submissionRows,
    First.fetchSubmissionList, eval_all.
  rewrite (select_short page H). repeat split. intros order. cbn [map].
  unfold Promise_all. cbn [List.length].
  rewrite settled_stays by (cbn; discriminate). reflexivity.
Qed.

Lemma short_listing_is_empty_witness :
  Main.submissionRows Sites.three_rows = Fulfilled [] /\
  First.fetchSubmissionList [] Sites.three_rows = Fulfilled [].
Proof.
  assert (forall n, In n (Dom.subtree [] [] Sites.three_rows) ->
                    Dom.tagName (Dom.node_elem n) = "tr"%string ->
                    List.length (Dom.before (Dom.self n)) < 3) as H.
  { intros n I T.
    assert (forallb (fun n => negb (String.eqb (Dom.tagName (Dom.node_elem n)) "tr")
                              || (List.length (Dom.before (Dom.self n)) <? 3)%nat)
                    (Dom.subtree [] [] Sites.three_rows) = true) as F by reflexivity.
    rewrite forallb_forall in F. specialize (F n I). rewrite T in F.
    cbn [String.eqb Ascii.eqb Bool.eqb negb orb] in F. now apply Nat.ltb_lt in F. }
  split.
  - exact (proj1 (proj2 (short_listing_is_empty Sites.three_rows H))).
  - exact (proj2 (proj2 (proj2 (short_listing_is_empty Sites.three_rows H))) []).
Defined.

Lemma traverse_rejected {A B} (f : A -> outcome B) xs :
  (forall x, f x <> Pending) ->
  (exists x e, In x xs /\ f x = Rejected e) ->
  exists e, traverse f xs = Rejected e.
Proof.
  intros NP. induction xs as [ | x xs IH]; intros [y [e [I R]]]; [contradiction | ].
  cbn [traverse]. destruct (f x) as [b | e' | ] eqn:F; cbn [bind].
  - destruct I as [-> | I]; [congruence | ].
    destruct IH as [e'' ->]; [now exists y, e | ]. now exists e''.
  - now exists e'.
  - now elim (NP x).
Qed.

Lemma bind_settles {A B} (x : outcome A) (k : A -> outcome B) :
  x <> Pending -> (forall a, k a <> Pending) -> bind x k <> Pending.
Proof. intros X K. destruct x; cbn [bind]; [apply K | discriminate | now elim X]. Qed.

Lemma read_settles {B} prop (x : option Dom.node) (f : Dom.node -> B) :
  bind (defined prop x) (fun n => Fulfilled (f n)) <> Pending.
Proof. destruct x; discriminate. Qed.

Lemma row_never_pending n : Main.submissionOfRow n <> Pending.
Proof.
  unfold Main.submissionOfRow, innerText_of, querySelector_of, title_of, href_of.
  repeat (apply bind_settles; [apply read_settles | intros ?]).
  discriminate.
Qed.

(** X11: one torn row discards a whole listing: when a row after the
    first three has fewer than fifteen cells, the rows of the listing are
    rejected, and so is [scrapeSubmissions], whatever the other rows
    hold. *)
Theorem torn_row_rejects_listing rows r :
  forallb Spec.plain_row rows = true ->
  In r (skipn 3 rows) ->
  List.length (Dom.querySelectorAll (Dom.tag "td") (Dom.root r)) < 15 ->
  exists e,
    Main.submissionRows (Pages.listing_page rows) = Rejected e /\
    forall w s address,
      goto w address = Fulfilled (Pages.listing_page rows) ->
      Main.scrapeSubmissions w s address = Rejected e.
Proof.
  intros P I L.
  assert (exists e, Main.submissionRows (Pages.listing_page rows) = Rejected e) as [e E].
  { unfold Main.submissionRows, eval_all.
    rewrite (traverse_rows _ _ Main_row_element), (select_listing rows P).
    apply traverse_rejected.
    - intros x. apply row_never_pending.
    - exists r. eexists. split; [exact I | ].
      unfold Main.submissionOfRow, innerText_of at 1.
      replace (nth_error (Dom.querySelectorAll (Dom.tag "td") (Dom.root r)) 14)
        with (@None Dom.node) by (symmetry; apply nth_error_None; lia).
      reflexivity. }
  exists e. split; [exact E | ].
  intros w s address G. unfold Main.scrapeSubmissions. rewrite G. cbn [bind].
  now rewrite E.
Qed.

Lemma torn_row_rejects_listing_witness :
  exists e, Main.submissionRows (Pages.listing_page Sites.torn_rows) = Rejected e.
Proof.
  destruct (torn_row_rejects_listing Sites.torn_rows Sites.short_row eq_refl) as [e [E _]].
  - cbn. right. left. reflexivity.
  - vm_compute. lia.
  - now exists e.
Defined.

Lemma map_fulfilled_Forall2 {A B} (f : A -> outcome B) xs ys :
  map f xs = map (@Fulfilled B) ys <-> Forall2 (fun x y => f x = Fulfilled y) xs ys.
Proof.
  revert ys. induction xs as [ | x xs IH]; intros [ | y ys]; cbn [map].
  - split; [constructor | reflexivity].
  - split; [discriminate | intros H; inversion H].
  - split; [discriminate | intros H; inversion H].
  - split.
    + intros [= F E]. constructor; [exact F | now apply IH].
    + intros H. inversion H as [ | ? ? ? ? F E]; subst. f_equal; [exact F | now apply IH].
Qed.

Lemma Forall2_equiv {A B} (R R' : A -> B -> Prop) xs ys :
  (forall x y, R x y <-> R' x y) -> Forall2 R xs ys <-> Forall2 R' xs ys.
Proof.
  intros E. split; intros H; induction H; constructor; auto; now apply E.
Qed.

(** Read through handles, a row gives what the page function gives. *)
Lemma First_row tr sub :
  First.submissionOfRow tr = Fulfilled sub <-> Listing.submissionOfRow tr = Fulfilled sub.
Proof.
  unfold First.submissionOfRow, Listing.submissionOfRow, Handle.jsonValueOf,
    Handle.query_of, innerText_of, querySelector_of, title_of, href_of.
  destruct (nth_error (Dom.querySelectorAll (Dom.tag "td") tr) 6) as [td6 | ];
    cbn [defined bind]; [ | split; discriminate].
  destruct (nth_error (Dom.querySelectorAll (Dom.tag "td") tr) 8) as [td8 | ];
    cbn [defined bind]; [ | split; discriminate].
  destruct (Dom.querySelector (Dom.tag "a") td8) as [a8 | ];
    cbn [defined bind]; [ | split; discriminate].
  destruct (nth_error (Dom.querySelectorAll (Dom.tag "td") tr) 12) as [td12 | ];
    cbn [defined bind]; [ | split; discriminate].
  destruct (Dom.querySelector (Dom.tag "a") td12) as [a12 | ];
    cbn [defined bind]; [ | split; discriminate].
  reflexivity.
Qed.

(** Read through handles, a link gives what the page function gives. *)
Lemma First_link link cat :
  First.categoryOfLink link = Fulfilled cat <-> categoryOfLink link = Fulfilled cat.
Proof.
  unfold First.categoryOfLink, categoryOfLink, Handle.getParentNode, Handle.query,
    Handle.jsonValueOf, innerText_of.
  cbn [bind].
  destruct (Dom.parentNode link) as [td | ]; cbn [defined bind]; [ | split; discriminate].
  destruct (Dom.parentNode td) as [row | ]; cbn [defined bind]; [ | split; discriminate].
  destruct (Dom.querySelector (Dom.tag "td") row) as [cell | ];
    cbn [defined bind]; [ | split; discriminate].
  reflexivity.
Qed.

(** X12: the first revision, which reads every row and every link
    through element handles and joins them with [Promise.all], gives the
    submissions and the categories the later revision gives: it is
    fulfilled with a list exactly when the later revision is and every
    element settles, in whatever order. *)
Theorem first_revision_reads_the_same (order : list nat) (page : Dom.document) :
  (forall subs,
      First.fetchSubmissionList order page = Fulfilled subs <->
      Listing.fetchSubmissionList page = Fulfilled subs /\
      Spec.all_settle (List.length (Dom.select Dom.submission_rows page)) order) /\
  (forall cats,
      First.fetchSubmissionCategories order page = Fulfilled cats <->
      Listing.fetchSubmissionCategories page = Fulfilled cats /\
      Spec.all_settle (List.length (Dom.select Dom.category_links page)) order).
Proof.
  split.
  - intros subs.
    unfold First.fetchSubmissionList, Listing.fetchSubmissionList, eval_all.
    rewrite Promise_all_fulfilled, length_map, map_fulfilled_Forall2, traverse_fulfilled.
    rewrite (Forall2_equiv _ _ _ _ First_row). reflexivity.
  - intros cats.
    unfold First.fetchSubmissionCategories, Listing.fetchSubmissionCategories,
      scrapeSubmissionCategories, eval_all.
    rewrite Promise_all_fulfilled, length_map, map_fulfilled_Forall2, traverse_fulfilled.
    rewrite (Forall2_equiv _ _ _ _ First_link). reflexivity.
Qed.

End Listings.

(** ** The other revisions' documents and the review parts *)

Section Others.
Import Js Env Shared.

(** X13: the revisions differ in what they write.  The revision with
    awards writes the envelope with the categories under [categories];
    the first revision writes the bare array of categories, without tool
    name, version, user or date. *)
Theorem documents_of_other_revisions (w : world) :
  (forall s fx,
      AwardRun.main w s start = (fx, Fulfilled tt) ->
      Spec.envelope_written w "categories" fx) /\
  (forall links s fx,
      First.main w links s start = (fx, Fulfilled tt) ->
      exists data,
        files fx = [(OUTPUT_FILE, Json.JArr data)] /\
        forall key, Json.field key (Json.JArr data) = None).
Proof.
  split.
  - intros s fx H.
    apply (run_cases w "Scrape reviews..."
             (fun _ cats => Promise_all (order_of s) (mapi (AwardRun.withSubmissions w s) cats))
             (AwardRun.document w)) in H.
    destruct H as [infos [_ [_ [[_ N] | [creds [cats [data [D [_ [_ [F _]]]]]]]]]]];
      [now elim N | ].
    apply discover_log in D. destruct D as [_ [infos' [_ [_ K]]]].
    destruct (K creds cats eq_refl) as [_ [R _]].
    exists creds, (map AwardRun.CategoryData.to_json data). split; [exact R | exact F].
  - intros links s fx. unfold First.main, then_, await, log_info.
    destruct (launch w); try discriminate. cbn [console files start app].
    destruct (goto w ENTRY) as [page | | ]; try discriminate.
    destruct (readCredentials w) as [creds | | ]; try discriminate.
    cbn [console files].
    destruct (logIn w page (username creds) (password creds)) as [home | | ];
      try discriminate.
    cbn [console files].
    destruct (First.fetchSubmissionCategories links home) as [cats | | ]; try discriminate.
    cbn [console files].
    destruct (Promise_all _ _) as [data | | ]; try discriminate.
    intros H. apply finish_files in H. cbn [files app] in H.
    exists (map Listing.CategoryData.to_json data). split; [exact H | reflexivity].
Qed.

Lemma documents_of_other_revisions_witness :
  Spec.envelope_written Scenario.busy "categories"
    (trace (AwardRun.run Scenario.busy Scenario.busy_orders)) /\
  exists data,
    files (trace (First.run Scenario.world [0] (Schedule [0] [Schedule [0] []])))
    = [(OUTPUT_FILE, Json.JArr data)].
Proof.
  split.
  - apply (proj1 (documents_of_other_revisions Scenario.busy) Scenario.busy_orders).
    vm_compute. reflexivity.
  - destruct (proj2 (documents_of_other_revisions Scenario.world) [0]
                (Schedule [0] [Schedule [0] []])
                (fst (First.main Scenario.world [0] (Schedule [0] [Schedule [0] []]) start)))
      as [data [F _]]; [vm_compute; reflexivity | ].
    now exists data.
Defined.

Lemma trimStart_head s :
  match Str.trimStart s with String c _ => Str.is_ws c = false | EmptyString => True end.
Proof.
  induction s as [ | c s IH]; cbn [Str.trimStart]; [exact I | ].
  destruct (Str.is_ws c) eqn:E; [exact IH | exact E].
Qed.

Lemma trimEnd_head s :
  match s with String c _ => Str.is_ws c = false | EmptyString => True end ->
  match Str.trimEnd s with String c _ => Str.is_ws c = false | EmptyString => True end.
Proof.
  destruct s as [ | c s]; [exact (fun H => H) | ]. intros H. cbn [Str.trimEnd].
  now rewrite H.
Qed.

Lemma trimEnd_last s :
  match Behaviour.last_char (Str.trimEnd s) with
  | Some c => Str.is_ws c = false
  | None => True
  end.
Proof.
  induction s as [ | c s IH]; cbn [Str.trimEnd]; [exact I | ].
  destruct (Str.is_ws c) eqn:W; cbn [andb].
  - destruct (Str.trimEnd s) as [ | c' t]; cbn [Str.is_empty]; [exact I | exact IH].
  - destruct (Str.trimEnd s) as [ | c' t]; [exact W | exact IH].
Qed.

(** [s.trim()] neither begins nor ends with white space. *)
Lemma trim_tidy s : Behaviour.tidy (Str.trim s).
Proof.
  unfold Behaviour.tidy, Str.trim. split.
  - apply trimEnd_head, trimStart_head.
  - apply trimEnd_last.
Qed.

(** X14: no title and no content of a review part begins or ends with
    white space. *)
Theorem parts_are_tidy body r :
  Main.reviewOfBody body = Fulfilled r ->
  Forall (fun p => Behaviour.tidy_opt (Main.Part.title p) /\
                   Behaviour.tidy_opt (Main.Part.content p))
         (Main.Review.reviewParts r).
Proof.
  intros H.
  assert (Main.Review.reviewParts r
          = Main.reviewPartsOf (Dom.querySelectorAll Dom.review_rows body)) as ->.
  { unfold Main.reviewOfBody in H.
    repeat match type of H with
           | bind ?x _ = Fulfilled _ =>
               destruct x; cbn [bind] in H; try discriminate H
           end.
    now injection H as <-. }
  rewrite reviewPartsOf_pairs. apply Forall_forall. intros p I.
  apply filter_In in I. destruct I as [I _]. apply in_map_iff in I.
  destruct I as [[t c] [<- _]]. unfold Spec.part_of_pair.
  cbn [Main.Part.title Main.Part.content fst snd]. split.
  - destruct (String.eqb (text t) ""); [exact I | apply trim_tidy].
  - destruct c as [c | ]; [apply trim_tidy | exact I].
Qed.

Lemma parts_are_tidy_witness :
  exists body r,
    Scenario.body_of Scenario.review3 = Some body /\
    Main.reviewOfBody body = Fulfilled r /\
    Forall (fun p => Behaviour.tidy_opt (Main.Part.title p) /\
                     Behaviour.tidy_opt (Main.Part.content p))
           (Main.Review.reviewParts r).
Proof.
  destruct (Scenario.body_of Scenario.review3) as [body | ] eqn:B;
    [ | vm_compute in B; discriminate].
  destruct (Main.reviewOfBody body) as [r | | ] eqn:E;
    [ | vm_compute in B; injection B as <-; vm_compute in E; discriminate .. ].
  exists body, r. split; [reflexivity | split; [exact E | ]].
  exact (parts_are_tidy body r E).
Defined.

End Others.

(** ** Pages in the expected layout *)

Section Layouts.
Import Js Env Shared Aux.
Local Open Scope string_scope.

Lemma traverse_app {A B} (f : A -> outcome B) xs xs' ys ys' :
  traverse f xs = Fulfilled ys -> traverse f xs' = Fulfilled ys' ->
  traverse f (xs ++ xs') = Fulfilled (ys ++ ys')%list.
Proof.
  intros H H'. apply traverse_fulfilled. apply Forall2_app; now apply traverse_fulfilled.
Qed.

Lemma matches_category_link n :
  Dom.matches Dom.category_links n
  = String.eqb (Dom.tagName (Dom.node_elem n)) "a"
    && existsb (fun m => String.eqb (Dom.tagName (Dom.node_elem m)) "td"
                         && existsb (Dom.matches Layout.home_table)
                                    (Dom.chain (Dom.ancestors m)))
               (Dom.chain (Dom.ancestors n)).
Proof.
  unfold Dom.category_links.
  cbn [Dom.matches Dom.matches_compound forallb Dom.matches_simple].
  fold Layout.home_table. rewrite andb_true_r. f_equal.
  induction (Dom.chain (Dom.ancestors n)) as [ | m l IH]; [reflexivity | ].
  cbn [existsb]. now rewrite IH, andb_true_r.
Qed.

Lemma category_rows_read anc bef cats :
  existsb (Dom.matches Layout.home_table) (Dom.chain anc) = true ->
  traverse categoryOfLink
           (filter (Dom.matches Dom.category_links)
                   (Dom.forest (Dom.subtree anc) bef (map Layout.category_row cats)))
  = Fulfilled cats.
Proof.
  intros T. revert bef. induction cats as [ | [name address] cats IH]; intros bef;
    [reflexivity | ].
  cbn [map Dom.forest]. rewrite filter_app.
  apply (traverse_app _ _ _ [_] _); [ | apply IH].
  unfold Layout.category_row, Pages.el, Pages.td, Pages.a.
  cbn [Dom.subtree Dom.forest app filter Category.name Category.address].
  rewrite !matches_category_link.
  cbn [Dom.node_elem Dom.self Dom.elem Dom.ancestors Dom.tagName Dom.chain existsb].
  rewrite T. reflexivity.
Qed.

(** X16: on a landing page in the expected layout (a heading, then a
    block that holds a table with one row per category, the name in the
    first cell and the link inside it), [scrapeSubmissionCategories] gives
    the categories back: every one, once, in the order of the rows, with
    its name and its address. *)
Theorem categories_of_layout (cats : list Category.link) :
  scrapeSubmissionCategories (Layout.home cats) = Fulfilled cats.
Proof.
  unfold scrapeSubmissionCategories, eval_all, Dom.select, Layout.home, Pages.page,
    Pages.el.
  cbn [Dom.subtree Dom.forest app]. rewrite !app_nil_r.
  repeat (rewrite filter_cons_false by (rewrite matches_category_link; reflexivity)).
  apply category_rows_read. reflexivity.
Qed.

Lemma matches_review_link n :
  Dom.matches Dom.review_links n
  = String.eqb (Dom.tagName (Dom.node_elem n)) "a"
    && existsb (fun m => String.eqb (Dom.tagName (Dom.node_elem m)) "tr"
                         && existsb (Dom.matches Layout.review_table)
                                    (Dom.chain (Dom.ancestors m)))
               (Dom.chain (Dom.ancestors n)).
Proof.
  unfold Dom.review_links.
  cbn [Dom.matches Dom.matches_compound forallb Dom.matches_simple].
  fold Layout.review_table. rewrite andb_true_r. f_equal.
  induction (Dom.chain (Dom.ancestors n)) as [ | m l IH]; [reflexivity | ].
  cbn [existsb]. now rewrite IH, andb_true_r.
Qed.

Lemma review_rows_read anc bef links :
  existsb (Dom.matches Layout.review_table) (Dom.chain anc) = true ->
  map Main.reviewAddressOf
      (filter (Dom.matches Dom.review_links)
              (Dom.forest (Dom.subtree anc) bef
                          (map (fun l => Pages.el "tr" "" [Pages.el "td" "" [l]])
                               (map Layout.review_anchor links))))
  = map Layout.review_link links.
Proof.
  intros T. revert bef. induction links as [ | [text href] links IH]; intros bef;
    [reflexivity | ].
  cbn [map Dom.forest]. rewrite filter_app, map_app, IH.
  change (map Layout.review_link ((text, href) :: links))
    with ([Layout.review_link (text, href)] ++ map Layout.review_link links)%list.
  f_equal.
  unfold Layout.review_anchor, Pages.el, Pages.a.
  cbn [Dom.subtree Dom.forest app filter fst snd].
  rewrite !matches_review_link.
  cbn [Dom.node_elem Dom.self Dom.elem Dom.ancestors Dom.tagName Dom.chain existsb].
  rewrite T. reflexivity.
Qed.

(** X17: on a review list in the expected layout (inside [#wrap], the
    second heading, then the block that holds the table with one link per
    row), the page function of [scrapeSubmissionReviews] gives one entry
    per link, in the order of the rows, with the address of the link and
    [isUser] true exactly when the text of the link contains "(you)". *)
Theorem review_links_of_layout (links : list (string * string)) :
  Main.reviewAddresses (Layout.review_links links)
  = Fulfilled (map Layout.review_link links).
Proof.
  unfold Main.reviewAddresses, eval_all, Dom.select, Layout.review_links,
    Pages.review_list, Pages.page.
  unfold Pages.el at 1 2 3 4 5 6 7 8 9.
  cbn [Dom.subtree Dom.forest app]. rewrite !app_nil_r.
  repeat (rewrite filter_cons_false by (rewrite matches_review_link; reflexivity)).
  f_equal. apply review_rows_read. reflexivity.
Qed.

(** Two chains of property reads on the same cells are equal. *)
Ltac same_reads T :=
  repeat (cbv zeta;
          first [ reflexivity
                | apply bind_ext;
                  [ first [apply same_innerText | apply same_title | apply same_href];
                    first [assumption | apply same_nth; exact T]
                  | intros ? ]
                | apply same_anchor; [apply same_nth; exact T | intros ? ? ?] ]).

Lemma Award_row_element n :
  Award.submissionOfRow n = Award.submissionOfRow (Dom.root (Dom.node_elem n)).
Proof.
  pose proof (same_tds n) as T. unfold Award.submissionOfRow. same_reads T.
Qed.

Lemma rows_plain cs : forallb Spec.plain_row (map Layout.row_of cs) = true.
Proof. induction cs as [ | c cs IH]; [reflexivity | ]. cbn [map forallb]. now rewrite IH. Qed.

Lemma rows_read {B} (f : Dom.node -> outcome B) (g : Layout.cells -> B) headers cs :
  List.length headers = 3 ->
  forallb Spec.plain_row headers = true ->
  (forall n, f n = f (Dom.root (Dom.node_elem n))) ->
  (forall c, f (Dom.root (Layout.row_of c)) = Fulfilled (g c)) ->
  eval_all Dom.submission_rows (traverse f) (Layout.listing headers cs)
  = Fulfilled (map g cs).
Proof.
  intros L P E R. unfold eval_all, Layout.listing.
  rewrite (traverse_rows f _ E), select_listing
    by (rewrite forallb_app, P; apply rows_plain).
  destruct headers as [ | h1 [ | h2 [ | h3 [ | h4 headers]]]]; try discriminate L.
  cbn [app skipn]. apply traverse_fulfilled.
  induction cs as [ | c cs IH]; cbn [map]; constructor; [apply R | exact IH].
Qed.

(** X18: on a listing in the expected layout (three header rows, then
    one row of fifteen cells per submission), every revision gives the
    submissions back, one per row and in the order of the rows: the id
    from cell 6, the title from the link of cell 8, the addresses from the
    links of cells 8 and 12, the status from cell 0, the award from cell 4
    and, as coordinator, the first parenthesised token of cell 14. *)
Theorem submissions_of_layout (headers : list Dom.element) (cs : list Layout.cells) :
  List.length headers = 3 ->
  forallb Spec.plain_row headers = true ->
  Listing.fetchSubmissionList (Layout.listing headers cs)
  = Fulfilled (map Layout.listing_row cs) /\
  Main.submissionRows (Layout.listing headers cs)
  = Fulfilled (map Layout.main_row cs) /\
  AwardRun.submissionRows (Layout.listing headers cs)
  = Fulfilled (map Layout.award_row cs).
Proof.
  intros L P. repeat split.
  - apply rows_read; auto using Listing_row_element.
  - apply rows_read; auto using Main_row_element.
  - apply rows_read; auto using Award_row_element.
Qed.

Lemma submissions_of_layout_witness :
  Main.submissionRows
    (Layout.listing [Pages.header_row; Pages.header_row; Pages.header_row]
       [{| Layout.status := "Done"; Layout.award := ""; Layout.id := "123";
           Layout.title := "Paper X"; Layout.submission := "/sub/123";
           Layout.reviews := "/rev/123";
           Layout.coordinator := "Jane Doe (coordinator)" |}])
  = Fulfilled
      [{| Main.Submission.id := "123"; Main.Submission.title := "Paper X";
          Main.Submission.submissionAddress := "/sub/123";
          Main.Submission.reviewsAddress := "/rev/123";
          Main.Submission.reviewStatus := "Done";
          Main.Submission.coordinator := Some "coordinator" |}].
Proof.
  exact (proj1 (proj2 (submissions_of_layout
                         [Pages.header_row; Pages.header_row; Pages.header_row]
                         [{| Layout.status := "Done"; Layout.award := "";
                             Layout.id := "123"; Layout.title := "Paper X";
                             Layout.submission := "/sub/123";
                             Layout.reviews := "/rev/123";
                             Layout.coordinator := "Jane Doe (coordinator)" |}]
                         eq_refl eq_refl))).
Defined.

Lemma matches_review_row n :
  Dom.matches Dom.review_rows n
  = String.eqb (Dom.tagName (Dom.node_elem n)) "tr"
    && match Dom.parentNode n with
       | Some p => Dom.matches Layout.parts_body p
       | None => false
       end.
Proof.
  unfold Dom.review_rows.
  cbn [Dom.matches Dom.matches_compound forallb Dom.matches_simple].
  fold Layout.parts_body. now rewrite andb_true_r.
Qed.

Lemma part_rows_select f anc bef parts :
  Dom.matches Layout.parts_body {| Dom.self := f; Dom.ancestors := anc |} = true ->
  filter (Dom.matches Dom.review_rows)
         (Dom.forest (Dom.subtree (f :: anc)) bef (Layout.part_rows parts))
  = row_nodes (f :: anc) bef (Layout.part_rows parts).
Proof.
  intros T. revert bef. induction parts as [ | [t c] parts IH]; intros bef;
    [reflexivity | ].
  unfold Layout.part_rows. cbn [flat_map app fst snd]. fold (Layout.part_rows parts).
  unfold Pages.td, Pages.el.
  cbn [Dom.forest Dom.subtree app row_nodes]. rewrite <- ?app_assoc. cbn [app filter].
  rewrite !matches_review_row.
  cbn [Dom.node_elem Dom.self Dom.elem Dom.ancestors Dom.tagName Dom.parentNode].
  rewrite T. cbn [String.eqb Ascii.eqb Bool.eqb andb].
  now rewrite IH.
Qed.

Lemma part_rows_pairs anc bef parts :
  map Spec.part_of_pair (Spec.pairs (row_nodes anc bef (Layout.part_rows parts)))
  = map Layout.part_of parts.
Proof.
  revert bef. induction parts as [ | [t c] parts IH]; intros bef; [reflexivity | ].
  unfold Layout.part_rows. cbn [flat_map app fst snd]. fold (Layout.part_rows parts).
  cbn [row_nodes Spec.pairs map]. rewrite IH. f_equal.
  unfold Spec.part_of_pair, Layout.part_of. cbn. now rewrite is_empty_eqb.
Qed.

(** X19: on a review page in the expected layout (the information in
    the second table, one row each for the reviewer, the submission, the
    rating and the expertise, the value in bold in the second cell; the
    review parts in the third table, a title row then a content row),
    [scrapeSubmissionReview] reads the number from the bold text of the
    reviewer row, the rating and the expertise from the bold texts of rows
    three and four, the scales from the texts of their cells, the type of
    reviewer from the text of the reviewer's cell, and one review part per
    pair of rows, titles and contents trimmed, less those whose title is
    white space only.  The revision with awards reads the same four
    scalar fields. *)
Theorem review_of_layout
        (reviewer number rating ratingBold expertise expertiseBold : string)
        (parts : list (string * string)) :
  let page := Layout.review reviewer number rating ratingBold expertise expertiseBold parts in
  let type := match parenthesized reviewer with Some t => t | None => "external" end in
  eval_one (Dom.tag "body") Main.reviewOfBody page
  = Fulfilled {| Main.Review.number := Num.unary_plus number;
                 Main.Review.rating := Num.unary_plus ratingBold;
                 Main.Review.ratingScale := Main.scaleOf rating;
                 Main.Review.reviewerExpertise := Num.unary_plus expertiseBold;
                 Main.Review.expertiseScale := Main.scaleOf expertise;
                 Main.Review.reviewerType := type;
                 Main.Review.reviewParts :=
                   filter Main.titled (map Layout.part_of parts) |} /\
  eval_one (Dom.tag "body") Award.reviewOfBody page
  = Fulfilled {| Award.Review.number := Num.unary_plus number;
                 Award.Review.rating := Num.unary_plus ratingBold;
                 Award.Review.reviewerExpertise := Num.unary_plus expertiseBold;
                 Award.Review.reviewerType := type |}.
Proof.
  intros page type. split.
  - unfold eval_one, page, Layout.review, Pages.review_page, Pages.page, Pages.info_row,
      Pages.td, Pages.el.
    cbn [Dom.select Dom.subtree Dom.forest app filter Dom.matches Dom.tag
         Dom.matches_compound forallb Dom.matches_simple Dom.node_elem Dom.self Dom.elem
         Dom.tagName String.eqb Ascii.eqb Bool.eqb andb hd_error].
    match goal with |- Main.reviewOfBody ?b = _ => set (body := b) end.
    assert (Main.reviewPartsOf (Dom.querySelectorAll Dom.review_rows body)
            = filter Main.titled (map Layout.part_of parts)) as P.
    { rewrite reviewPartsOf_pairs. unfold Dom.querySelectorAll, Dom.descendants, body.
      cbn [Dom.subtree Dom.forest app Dom.children Dom.node_elem Dom.self Dom.elem
           Dom.ancestors].
      rewrite ?app_nil_r.
      repeat (rewrite filter_cons_false by (rewrite matches_review_row; reflexivity)).
      rewrite part_rows_select by reflexivity. rewrite part_rows_pairs.
      apply filter_ext. intros p. symmetry. apply titled_not_empty. }
    unfold Main.reviewOfBody. cbv zeta. rewrite P. reflexivity.
  - reflexivity.
Qed.

End Layouts.

(** ** Edges of the page functions *)

Section Edges.
Import Js Env Shared.
Local Open Scope string_scope.

Lemma blank_trim x : Str.all Str.is_ws x = true -> Str.trim x = "".
Proof.
  unfold Str.trim. induction x as [ | c x IH]; [reflexivity | ].
  cbn [Str.all Str.trimStart]. intros H. apply andb_prop in H. destruct H as [W H].
  rewrite W. now apply IH.
Qed.

(** X20: a score whose bold text is blank (empty, or white space only)
    is read as the number 0, not as a missing score. *)
Theorem blank_score_is_zero (td b : Dom.node) :
  Dom.querySelector (Dom.tag "b") td = Some b ->
  Str.all Str.is_ws (text b) = true ->
  Main.bold_number td = Fulfilled (Num.of_Z 0) /\
  Json.of_number (Num.unary_plus (text b)) = Json.JNum 0.
Proof.
  intros Q W. unfold Main.bold_number, innerText_of. rewrite Q. cbn [defined bind].
  unfold Num.unary_plus, Num.ToNumber, Num.value. now rewrite (blank_trim _ W).
Qed.

Lemma blank_score_is_zero_witness :
  exists body r,
    Scenario.body_of Sites.blank_review = Some body /\
    Main.reviewOfBody body = Fulfilled r /\
    Main.Review.rating r = Num.of_Z 0.
Proof.
  destruct (Scenario.body_of Sites.blank_review) as [body | ] eqn:B;
    [ | vm_compute in B; discriminate].
  destruct (Main.cell (Main.infoCells body) 2) as [td | ] eqn:C;
    [ | vm_compute in B; injection B as <-; vm_compute in C; discriminate].
  destruct (Dom.querySelector (Dom.tag "b") td) as [b | ] eqn:Q;
    [ | vm_compute in B; injection B as <-; vm_compute in C; injection C as <-;
        vm_compute in Q; discriminate].
  assert (Str.all Str.is_ws (text b) = true) as W.
  { vm_compute in B. injection B as <-. vm_compute in C. injection C as <-.
    vm_compute in Q. injection Q as <-. reflexivity. }
  pose proof (proj1 (blank_score_is_zero td b Q W)) as N.
  destruct (Main.reviewOfBody body) as [r | e | ] eqn:R;
    [ | vm_compute in B; injection B as <-; vm_compute in R; discriminate ..].
  exists body, r. split; [reflexivity | split; [exact R | ]].
  unfold Main.reviewOfBody in R. rewrite C in R.
  repeat match type of R with
         | bind ?x _ = Fulfilled _ =>
             let E := fresh "E" in
             destruct x eqn:E; cbn [bind] in R; try discriminate R
         end.
  cbn [defined] in *. injection E0 as <-. injection R as <-. cbn [Main.Review.rating].
  congruence.
Defined.

Lemma chain_ancestors fs m :
  In m (Dom.chain fs) ->
  exists pre, fs = (pre ++ Dom.self m :: Dom.ancestors m)%list.
Proof.
  induction fs as [ | f fs IH]; [intros [] | ]. cbn [Dom.chain]. intros [<- | H].
  - now exists [].
  - destruct (IH H) as [pre ->]. now exists (f :: pre).
Qed.

(** X21: a category link never lacks a parent or a grandparent.  Every
    link that 'h1 + div table td a' selects has both, so the only way the
    callback of [scrapeSubmissionCategories] throws is a grandparent that
    holds no [td] (a link that is not a child of its cell); otherwise it
    gives the text of the first [td] inside the grandparent and the
    address of the link. *)
Theorem category_link_has_a_row (page : Dom.document) (link : Dom.node) :
  In link (Dom.select Dom.category_links page) ->
  exists parent row,
    Dom.parentNode link = Some parent /\
    Dom.parentNode parent = Some row /\
    (forall cell, Dom.querySelector (Dom.tag "td") row = Some cell ->
                  categoryOfLink link
                  = Fulfilled {| Category.name := text cell;
                                 Category.address := href link |}) /\
    (Dom.querySelector (Dom.tag "td") row = None ->
     categoryOfLink link = Rejected (TypeError "Cannot read property 'innerText'")).
Proof.
  intros H. apply filter_In in H. destruct H as [_ M].
  unfold Dom.category_links in M. cbn [Dom.matches] in M.
  apply andb_prop in M. destruct M as [_ M].
  apply existsb_exists in M. destruct M as [m [I M]].
  cbn [Dom.matches] in M. apply andb_prop in M. destruct M as [_ M].
  apply existsb_exists in M. destruct M as [t [It _]].
  apply chain_ancestors in I. destruct I as [pre I].
  assert (exists f g rest, Dom.ancestors link = f :: g :: rest) as [f [g [rest A]]].
  { destruct (Dom.ancestors m) as [ | a l] eqn:Am; [destruct It | ].
    rewrite I. destruct pre as [ | p [ | q pre]]; cbn [app]; eauto. }
  exists {| Dom.self := f; Dom.ancestors := g :: rest |},
         {| Dom.self := g; Dom.ancestors := rest |}.
  unfold categoryOfLink, Dom.parentNode. rewrite A. cbn [Dom.ancestors defined bind].
  repeat split.
  - intros cell ->. reflexivity.
  - intros ->. reflexivity.
Qed.

Lemma category_link_has_a_row_witness :
  scrapeSubmissionCategories Sites.wrapped_home
  = Rejected (TypeError "Cannot read property 'innerText'").
Proof.
  destruct (Dom.select Dom.category_links Sites.wrapped_home) as [ | link l] eqn:S;
    [vm_compute in S; discriminate | ].
  destruct (category_link_has_a_row Sites.wrapped_home link) as [p [row [P [G [_ N]]]]].
  { rewrite S. now left. }
  unfold scrapeSubmissionCategories, eval_all. rewrite S. cbn [traverse].
  rewrite N; [reflexivity | ].
  vm_compute in S. injection S as <- <-. vm_compute in P. injection P as <-.
  vm_compute in G. injection G as <-. reflexivity.
Defined.

(** X22: the page function of [scrapeSubmissionReview] returns a review
    exactly when rows one, three and four of the information table each
    have a second cell with a bold element in it; in every other case it
    throws the same error, a [TypeError] on reading [innerText]. *)
Theorem review_needs_its_cells (body : Dom.node) :
  ((exists r, Main.reviewOfBody body = Fulfilled r) <->
   Behaviour.has_bold body 0 /\ Behaviour.has_bold body 2 /\ Behaviour.has_bold body 3) /\
  ((exists r, Main.reviewOfBody body = Fulfilled r) \/
   Main.reviewOfBody body = Rejected (TypeError "Cannot read property 'innerText'")).
Proof.
  unfold Behaviour.has_bold, Main.reviewOfBody, Main.bold_number, innerText_of.
  destruct (Main.cell (Main.infoCells body) 0) as [t0 | ]; cbn [defined bind].
  2: { split; [split | now right]; [intros [r H]; discriminate H | ].
       intros [[td [b [H _]]] _]; discriminate H. }
  destruct (Main.cell (Main.infoCells body) 2) as [t2 | ]; cbn [defined bind].
  2: { split; [split | now right]; [intros [r H]; discriminate H | ].
       intros [_ [[td [b [H _]]] _]]; discriminate H. }
  destruct (Main.cell (Main.infoCells body) 3) as [t3 | ]; cbn [defined bind].
  2: { split; [split | now right]; [intros [r H]; discriminate H | ].
       intros [_ [_ [td [b [H _]]]]]; discriminate H. }
  destruct (Dom.querySelector (Dom.tag "b") t0) as [b0 | ] eqn:Q0; cbn [defined bind].
  2: { split; [split | now right]; [intros [r H]; discriminate H | ].
       intros [[td [b [[= <-] H]]] _]. congruence. }
  destruct (Dom.querySelector (Dom.tag "b") t2) as [b2 | ] eqn:Q2; cbn [defined bind].
  2: { split; [split | now right]; [intros [r H]; discriminate H | ].
       intros [_ [[td [b [[= <-] H]]] _]]. congruence. }
  destruct (Dom.querySelector (Dom.tag "b") t3) as [b3 | ] eqn:Q3; cbn [defined bind].
  2: { split; [split | now right]; [intros [r H]; discriminate H | ].
       intros [_ [_ [td [b [[= <-] H]]]]]. congruence. }
  split; [split | left; eexists; reflexivity].
  - intros _. repeat split; eexists; eexists; split; (reflexivity || eassumption).
  - intros _. eexists; reflexivity.
Qed.

End Edges.
